(** * Billing pipeline of the lab site: aggregation, invoice numbering,
      adjustments and inclusion filtering

    Shallow embedding of [billing/views.py] (class [BillingInvoiceFormView],
    then [BillingAppViewMixin] and [MacolaRequestFormView]) and of the form
    declarations of [billing/forms.py] they rely on.

    Conventions of the embedding.
    - Python exceptions are values of [exn]; a computation that may raise
      has type [result A].
    - Strings are byte strings ([string]); the inputs considered are ASCII,
      so that a character is one byte and the code-point order of Python is
      the byte order.
    - A [DataFrame] is the list of its rows, in index order; a [Series] is
      the list of its values.
    - Amounts of money ([float64] columns and [Decimal] form values) are
      modelled by the rational number they denote ([Q]); the rounding of
      binary floating point and of the decimal context is outside the model.
    - Rendering helpers that live outside the billing application
      ([currency], the reportlab and xlsxwriter documents, the PDF
      templates) are not modelled: a generated document is represented by
      the table of values handed to the renderer. *)

From Stdlib Require Import List String Ascii Bool Arith ZArith NArith Lia.
From Stdlib Require Import QArith Permutation Sorted Finite OrderedTypeEx.
From Stdlib Require Import DecimalString DecimalZ DecimalN DecimalPos DecimalFacts.
Import ListNotations.

Local Open Scope string_scope.
Local Open Scope Z_scope.

(** ** Exceptions and fallible computations *)

Inductive exn : Type :=
| AttributeError
| KeyError
| IndexError
| ValueError
| DoesNotExist.

Inductive result (A : Type) : Type :=
| Ok (a : A)
| Raise (e : exn).

Arguments Ok {A} a.
Arguments Raise {A} e.

Definition bind {A B : Type} (m : result A) (k : A -> result B) : result B :=
  match m with
  | Ok a => k a
  | Raise e => Raise e
  end.

Notation "x <- m ;; k" := (bind m (fun x => k))
  (at level 61, m at next level, right associativity).
Notation "' pat <- m ;; k" := (bind m (fun x => match x with pat => k end))
  (at level 61, pat pattern, m at next level, right associativity).

(** [for x in xs: body] threading an accumulator, stopping at the first
    exception. *)
Fixpoint for_each {A S : Type} (xs : list A) (body : S -> A -> result S) (s : S)
  : result S :=
  match xs with
  | [] => Ok s
  | x :: rest => s' <- body s x ;; for_each rest body s'
  end.

(** ** Python built-ins used by the views *)

Module Py.

Definition is_digit (c : ascii) : bool :=
  let n := N_of_ascii c in ((48 <=? n) && (n <=? 57))%N.

Definition digit_val (c : ascii) : N := (N_of_ascii c - 48)%N.

(** ASCII characters stripped by [int()]: TAB..CR, FS..US and the space. *)
Definition is_space (c : ascii) : bool :=
  let n := N_of_ascii c in
  (((9 <=? n) && (n <=? 13)) || ((28 <=? n) && (n <=? 32)))%N.

Fixpoint drop_while {A : Type} (p : A -> bool) (l : list A) : list A :=
  match l with
  | [] => []
  | x :: r => if p x then drop_while p r else l
  end.

Definition strip (l : list ascii) : list ascii :=
  rev (drop_while is_space (rev (drop_while is_space l))).

(** Decimal digits with single underscores between digits (PEP 515);
    [prev] tells whether the previous character was a digit. *)
Fixpoint parse_digits (l : list ascii) (acc : N) (prev : bool) : option N :=
  match l with
  | [] => if prev then Some acc else None
  | c :: r =>
      if is_digit c then parse_digits r (10 * acc + digit_val c)%N true
      else if (c =? "_")%char then
        if prev then parse_digits r acc false else None
      else None
  end.

(** [int(s)] for a string: surrounding whitespace, an optional sign, then
    the digits; anything else raises [ValueError]. *)
Definition int (s : string) : result Z :=
  let body := strip (list_ascii_of_string s) in
  let '(neg, ds) :=
    match body with
    | "-"%char :: r => (true, r)
    | "+"%char :: r => (false, r)
    | _ => (false, body)
    end in
  match parse_digits ds 0%N false with
  | Some n => Ok (if neg then - Z.of_N n else Z.of_N n)
  | None => Raise ValueError
  end.

(** [str(v)] for an integer. *)
Definition str (v : Z) : string := NilZero.string_of_int (Z.to_int v).

(** [s[:-4]] and [s[-4:]]. *)
Definition slice_to_m4 (s : string) : string :=
  substring 0 (String.length s - 4) s.

Definition slice_from_m4 (s : string) : string :=
  substring (String.length s - 4) 4 s.

Fixpoint zeros (n : nat) : string :=
  match n with
  | O => EmptyString
  | S k => String "0" (zeros k)
  end.

(** ['{:0>4}'.format(x)]: fill character ['0'], right aligned, width 4. *)
Definition pad4 (s : string) : string := zeros (4 - String.length s) ++ s.

(** ['{}{:0>4}'.format(prefix, v)] *)
Definition fmt (prefix : string) (v : Z) : string := prefix ++ pad4 (str v).

(** [range(a, b)] *)
Definition range (a b : Z) : list Z :=
  map (fun i => a + Z.of_nat i) (seq 0 (Z.to_nat (b - a))).

(** [re.compile(r'\d+').findall(s)]: the maximal runs of digits, left to
    right. [cur] is the run being read, last digit first. *)
Definition flush (cur : list ascii) : list string :=
  match cur with
  | [] => []
  | _ => [string_of_list_ascii (rev cur)]
  end.

Fixpoint findall_digits_from (l cur : list ascii) : list string :=
  match l with
  | [] => flush cur
  | c :: r =>
      if is_digit c then findall_digits_from r (c :: cur)
      else (flush cur ++ findall_digits_from r [])%list
  end.

Definition findall_digits (s : string) : list string :=
  findall_digits_from (list_ascii_of_string s) [].

(** [max(xs)] on strings: the first greatest element; [ValueError] when the
    list is empty. *)
Definition max (xs : list string) : result string :=
  match xs with
  | [] => Raise ValueError
  | x :: r => Ok (fold_left (fun m y => if String.ltb m y then y else m) r x)
  end.

(** Truthiness of a string. *)
Definition truthy (s : string) : bool := negb (s =? EmptyString)%string.

(** [s.lower()] on ASCII. *)
Definition lower_char (c : ascii) : ascii :=
  let n := N_of_ascii c in
  if ((65 <=? n) && (n <=? 90))%N then ascii_of_N (n + 32) else c.

Fixpoint lower (s : string) : string :=
  match s with
  | EmptyString => EmptyString
  | String c r => String (lower_char c) (lower r)
  end.

(** [sub in s] *)
Fixpoint contains (sub s : string) : bool :=
  String.prefix sub s ||
  match s with
  | EmptyString => false
  | String _ r => contains sub r
  end.

Fixpoint take_while {A : Type} (p : A -> bool) (l : list A) : list A :=
  match l with
  | [] => []
  | x :: r => if p x then x :: take_while p r else []
  end.

(** [s.split()[-1]]: the last word; [IndexError] when there is none. *)
Definition last_word (s : string) : result string :=
  let back := drop_while is_space (rev (list_ascii_of_string s)) in
  match back with
  | [] => Raise IndexError
  | _ => Ok (string_of_list_ascii (rev (take_while (fun c => negb (is_space c)) back)))
  end.

(** [re.compile(r',').sub('\n', s)] *)
Definition newline : ascii := ascii_of_N 10.

Fixpoint commas_to_newlines (s : string) : string :=
  match s with
  | EmptyString => EmptyString
  | String c r =>
      String (if (c =? ",")%char then newline else c) (commas_to_newlines r)
  end.

(** [s[:n]] for a non-negative [n]. *)
Definition slice_to (n : nat) (s : string) : string := substring 0 n s.

End Py.

(** ** Invoice numbering allocator: [get_billing_data], lines 225-228 *)

(** [n_accts] is [len(inv_cat_df.acct.drop_duplicates())]. *)
Definition allocate (invoice_start : string) (n_accts : nat) : result (list string) :=
  let prefix := Py.slice_to_m4 invoice_start in
  sequence <- Py.int (Py.slice_from_m4 invoice_start) ;;
  let sequence_range := Py.range sequence (sequence + Z.of_nat n_accts) in
  Ok (map (fun v => Py.fmt prefix v) sequence_range).

(** ** New starting invoice number: [invoices], lines 614-617 *)

Definition next_invoice_start (invoice_nos : list (string * string)) : result string :=
  let invoice_seq := flat_map Py.findall_digits (map snd invoice_nos) in
  last_invoice_no <- Py.max invoice_seq ;;
  sequence <- Py.int (Py.slice_from_m4 last_invoice_no) ;;
  Ok (Py.fmt (Py.slice_to_m4 last_invoice_no) (sequence + 1)).

(** ** pandas operations used by the views *)

Module Pd.

Section Frames.

Context {A : Type}.

(** Stable insertion of [x] in front of the first row that is not below
    it. *)
Fixpoint insert (leb : A -> A -> bool) (x : A) (l : list A) : list A :=
  match l with
  | [] => [x]
  | y :: r => if leb x y then x :: l else y :: insert leb x r
  end.

(** A stable sort: rows that compare equal keep their relative order, as
    the multi-key [sort_values] and the key order of [groupby] do. *)
Fixpoint sort (leb : A -> A -> bool) (l : list A) : list A :=
  match l with
  | [] => []
  | x :: r => insert leb x (sort leb r)
  end.

(** [Series.drop_duplicates()]: the first occurrence of each value, in
    order. [seen] holds the values already kept. *)
Fixpoint drop_duplicates_from (eqb : A -> A -> bool) (seen l : list A) : list A :=
  match l with
  | [] => []
  | x :: r =>
      if existsb (eqb x) seen then drop_duplicates_from eqb seen r
      else x :: drop_duplicates_from eqb (x :: seen) r
  end.

Definition drop_duplicates (eqb : A -> A -> bool) (l : list A) : list A :=
  drop_duplicates_from eqb [] l.

(** [df[mask]] with a list of booleans of the length of the frame. *)
Fixpoint select (df : list A) (mask : list bool) : list A :=
  match df, mask with
  | x :: df', b :: mask' => if b then x :: select df' mask' else select df' mask'
  | _, _ => []
  end.

End Frames.

(** [df.groupby(key)]: one group per distinct key, keys in ascending order,
    each group holding its rows in frame order. *)
Definition groupby {A K : Type} (eqb leb : K -> K -> bool) (key : A -> K)
    (df : list A) : list (K * list A) :=
  map (fun k => (k, filter (fun r => eqb (key r) k) df))
      (sort leb (drop_duplicates eqb (map key df))).

(** [Series.sum()] of a numeric column. *)
Definition sum (xs : list Q) : Q := fold_left Qplus xs 0%Q.

(** [Series.fillna(v)]: a missing value ([None]) becomes [v]. *)
Definition fillna {A : Type} (v : A) (x : option A) : A :=
  match x with
  | Some y => y
  | None => v
  end.

(** A frame after [df[key]] with a list key: a list of booleans selects
    rows; the empty list is read as a list of column labels and leaves a
    frame without columns. *)
Inductive frame (A : Type) : Type :=
| Frame (rows : list A)
| NoColumns.

Arguments Frame {A} rows.
Arguments NoColumns {A}.

Definition getitem {A : Type} (df : list A) (key : list bool) : result (frame A) :=
  match key with
  | [] => Ok NoColumns
  | _ =>
      if (List.length key =? List.length df)%nat then Ok (Frame (select df key))
      else Raise ValueError
  end.

Definition rows_of {A : Type} (f : frame A) : list A :=
  match f with
  | Frame rows => rows
  | NoColumns => []
  end.

(** Access to a column of the frame, as [groupby('provider')] does first. *)
Definition columns {A : Type} (f : frame A) : result (list A) :=
  match f with
  | Frame rows => Ok rows
  | NoColumns => Raise KeyError
  end.

End Pd.

(** Python dictionaries, in insertion order. *)
Module Dict.

Section Ops.

Context {K V : Type} (eqb : K -> K -> bool).

Fixpoint get (d : list (K * V)) (k : K) : result V :=
  match d with
  | [] => Raise KeyError
  | (k', v) :: r => if eqb k' k then Ok v else get r k
  end.

Fixpoint set (d : list (K * V)) (k : K) (v : V) : list (K * V) :=
  match d with
  | [] => [(k, v)]
  | (k', v') :: r => if eqb k' k then (k', v) :: r else (k', v') :: set r k v
  end.

End Ops.

End Dict.

(** ** Data model *)

(** A row of the Vision Star query of [get_vistar_billing_df]. *)
Record vistar_row : Type := {
  v_acct : string;
  v_job_id : Z;
  v_enter_date : string;
  v_frame_name : string;
  v_frame_item_no : string;
  v_frame_name2 : string;
  v_comment1 : string;
  v_ship_date : string;
  v_patient_name : string;
  v_lens_price : Q;
  v_frame_price : Q;
  v_sales : Q
}.

(** A row of the account reference query of [get_macola_df]; a NULL of the
    database ([NaN] in the frame) is [None]. The views read a column [cat]
    (the invoice category of the account) from the merged frame, which the
    query text of this revision does not select: the model carries it with
    the reference row. *)
Record macola_row : Type := {
  m_acct : string;
  m_provider : option Z;
  m_tax_rate : option Q;
  m_cat : Z
}.

(** A row of the merged frame, after [fillna] and with the derived columns
    [tax] and [total]. *)
Record job : Type := {
  acct : string;
  job_id : Z;
  enter_date : string;
  frame_name : string;
  frame_item_no : string;
  frame_name2 : string;
  comment1 : string;
  ship_date : string;
  patient_name : string;
  lens_price : Q;
  frame_price : Q;
  sales : Q;
  provider : Z;
  tax_rate : Q;
  cat : Z;
  tax : Q;
  total : Q
}.

(** Rows of the models of [macola.models], with the fields the views read. *)
Record InvoiceCategory : Type := {
  ic_id : Z;
  number : Z;
  description : string;
  invoice_start : string
}.

Record BillToProvider : Type := {
  bp_id : Z;
  bp_name : string;
  bp_short_name : string;
  bp_macola_No : string
}.

Record MacolaAcct : Type := {
  account_No : string;
  name : string;
  short_name : string;
  email : string;
  macola_No : string;
  contact_name : string;
  contact_title : string
}.

(** The attributes [sales], [tax] and [total] that [set_totals] attaches to
    a model instance for the run. *)
Record Totals : Type := {
  obj_sales : Q;
  obj_tax : Q;
  obj_total : Q
}.

(** Model instances as the views hold them: the database row and the
    attributes attached during the run. *)
Record category_obj : Type := {
  ic : InvoiceCategory;
  ic_totals : option Totals;
  invoice_no_manager : list string;
  has_providers : bool;
  macolas_needed : nat
}.

Record provider_obj : Type := {
  bp : BillToProvider;
  bp_totals : option Totals
}.

Record acct_obj : Type := {
  ma : MacolaAcct;
  ma_totals : option Totals;
  invoice_no_form : option string
}.

(** [set_totals] works on any instance that can carry the three attributes. *)
Class ModelInstance (A : Type) : Type := {
  totals : A -> option Totals;
  with_totals : A -> Totals -> A
}.

#[export] Instance category_instance : ModelInstance category_obj := {
  totals := ic_totals;
  with_totals o t :=
    {| ic := ic o; ic_totals := Some t; invoice_no_manager := invoice_no_manager o;
       has_providers := has_providers o; macolas_needed := macolas_needed o |}
}.

#[export] Instance provider_instance : ModelInstance provider_obj := {
  totals := bp_totals;
  with_totals o t := {| bp := bp o; bp_totals := Some t |}
}.

#[export] Instance acct_instance : ModelInstance acct_obj := {
  totals := ma_totals;
  with_totals o t :=
    {| ma := ma o; ma_totals := Some t; invoice_no_form := invoice_no_form o |}
}.

Definition fetch_category (m : InvoiceCategory) : category_obj :=
  {| ic := m; ic_totals := None; invoice_no_manager := [];
     has_providers := false; macolas_needed := 0 |}.

Definition fetch_provider (m : BillToProvider) : provider_obj :=
  {| bp := m; bp_totals := None |}.

Definition fetch_acct (m : MacolaAcct) : acct_obj :=
  {| ma := m; ma_totals := None; invoice_no_form := None |}.

(** What the views read and write outside the request: the snapshot
    ['billing_data'] of the HDF file, the tables of the three models, and
    the trace of the instances written by [save()], latest first. *)
Record world : Type := {
  hdf_store : option (list job);
  InvoiceCategory_objects : list InvoiceCategory;
  BillToProvider_objects : list BillToProvider;
  MacolaAcct_objects : list MacolaAcct;
  saved : list InvoiceCategory
}.

(** An element of [billing_data]: the job row with the instances attached by
    [job_dict.update]. *)
Record job_dict : Type := {
  jd_job : job;
  jd_acct : acct_obj;
  jd_provider : option provider_obj;
  jd_cat : category_obj;
  include_form : bool
}.

(** ** Aggregation: [get_object], [set_totals], [get_billing_data] *)

(** [get_object(queryset, pk)]: the instance with that primary key, or
    [None]. *)
Definition get_object {M : Type} (has_pk : M -> bool) (queryset : list M) : option M :=
  find has_pk queryset.

Definition get_category (qs : list InvoiceCategory) (pk : Z) : option category_obj :=
  option_map fetch_category (get_object (fun m => ic_id m =? pk) qs).

Definition get_provider (qs : list BillToProvider) (pk : Z) : option provider_obj :=
  option_map fetch_provider (get_object (fun m => bp_id m =? pk) qs).

Definition get_acct (qs : list MacolaAcct) (pk : string) : option acct_obj :=
  option_map fetch_acct (get_object (fun m => (account_No m =? pk)%string) qs).

(** [set_totals(obj, data_df)], lines 177-189. *)
Definition set_totals {A : Type} `{ModelInstance A} (obj : option A) (data_df : list job)
  : option A :=
  match obj with
  | Some o =>
      let sales_sum := Pd.sum (map sales data_df) in
      let tax_sum := Pd.sum (map tax data_df) in
      Some (with_totals o {| obj_sales := sales_sum;
                             obj_tax := tax_sum;
                             obj_total := (sales_sum + tax_sum)%Q |})
  | None => None
  end.

(** Attribute access on an object that may be [None]. *)
Definition attr {A : Type} (obj : option A) : result A :=
  match obj with
  | Some o => Ok o
  | None => Raise AttributeError
  end.

(** [xs[i]] on a list. *)
Definition item {A : Type} (xs : list A) (i : nat) : result A :=
  match nth_error xs i with
  | Some x => Ok x
  | None => Raise IndexError
  end.

(** [pd.merge(left, right, on='acct')]: the inner join, in the order of the
    left frame. *)
Definition merge (left : list vistar_row) (right : list macola_row)
  : list (vistar_row * macola_row) :=
  flat_map (fun j => map (pair j)
                       (filter (fun a => (m_acct a =? v_acct j)%string) right))
           left.

(** Lines 212-215: [fillna(0)] on [tax_rate] and [provider], then the
    derived columns. *)
Definition derive (row : vistar_row * macola_row) : job :=
  let '(j, a) := row in
  let tax_rate := Pd.fillna 0%Q (m_tax_rate a) in
  let provider := Pd.fillna 0 (m_provider a) in
  {| acct := v_acct j; job_id := v_job_id j; enter_date := v_enter_date j;
     frame_name := v_frame_name j; frame_item_no := v_frame_item_no j;
     frame_name2 := v_frame_name2 j; comment1 := v_comment1 j;
     ship_date := v_ship_date j; patient_name := v_patient_name j;
     lens_price := v_lens_price j; frame_price := v_frame_price j;
     sales := v_sales j;
     provider := provider; tax_rate := tax_rate; cat := m_cat a;
     tax := (v_sales j * tax_rate)%Q;
     total := ((1 + tax_rate) * v_sales j)%Q |}.

(** Line 216: the order of
    [sort_values(by=['cat', 'provider', 'acct', 'ship_date', 'patient_name'])];
    the two dates are the strings the query formats. *)
Definition lex (c1 c2 : comparison) : comparison :=
  match c1 with
  | Eq => c2
  | _ => c1
  end.

Definition sort_key_compare (r1 r2 : job) : comparison :=
  lex (cat r1 ?= cat r2)
   (lex (provider r1 ?= provider r2)
     (lex (String.compare (acct r1) (acct r2))
       (lex (String.compare (ship_date r1) (ship_date r2))
            (String.compare (patient_name r1) (patient_name r2))))).

Definition sort_key_leb (r1 r2 : job) : bool :=
  match sort_key_compare r1 r2 with
  | Gt => false
  | _ => true
  end.

Definition sort_values (df : list job) : list job := Pd.sort sort_key_leb df.

(** Lines 211-216: the merged, filled, derived and sorted frame. *)
Definition merged_frame (vistar_billing_df : list vistar_row) (macola_df : list macola_row)
  : list job :=
  sort_values (map derive (merge vistar_billing_df macola_df)).

Definition groupby_cat : list job -> list (Z * list job) := Pd.groupby Z.eqb Z.leb cat.
Definition groupby_provider : list job -> list (Z * list job) :=
  Pd.groupby Z.eqb Z.leb provider.
Definition groupby_acct : list job -> list (string * list job) :=
  Pd.groupby String.eqb String.leb acct.

(** [get_cached_data]: the snapshot of the HDF file. *)
Definition get_cached_data (w : world) : result (list job) :=
  match hdf_store w with
  | Some df => Ok df
  | None => Raise KeyError
  end.

(** State of the loops of one category: [invoice_no_idx],
    [inv_cat_obj.macolas_needed] and the rows appended so far, each with its
    account and provider instances. *)
Record cat_loop : Type := {
  invoice_no_idx : nat;
  needed : nat;
  appended : list (job * acct_obj * option provider_obj)
}.

(** Lines 240-257: body of the loop over the accounts of a provider. *)
Definition acct_body (all_accts : list MacolaAcct) (invoice_no_forms : list string)
    (provider_o : option provider_obj) (st : cat_loop) (g : string * list job)
  : result cat_loop :=
  let '(acct_no, acct_df) := g in
  let acct_o := set_totals (get_acct all_accts acct_no) acct_df in
  form <- item invoice_no_forms (invoice_no_idx st) ;;
  a <- attr acct_o ;;
  let a := {| ma := ma a; ma_totals := ma_totals a; invoice_no_form := Some form |} in
  let needed' :=
    match provider_o with
    | None => if Py.truthy (macola_No (ma a)) then needed st else S (needed st)
    | Some _ => needed st
    end in
  Ok {| invoice_no_idx := S (invoice_no_idx st);
        needed := needed';
        appended := (appended st ++ map (fun j => (j, a, provider_o)) acct_df)%list |}.

(** Lines 237-257: body of the loop over the providers of a category. *)
Definition provider_body (all_providers : list BillToProvider)
    (all_accts : list MacolaAcct) (invoice_no_forms : list string)
    (st : cat_loop) (g : Z * list job) : result cat_loop :=
  let '(provider_id, provider_df) := g in
  let provider_o := set_totals (get_provider all_providers provider_id) provider_df in
  for_each (groupby_acct provider_df)
           (acct_body all_accts invoice_no_forms provider_o) st.

(** Lines 222-257: body of the loop over the categories. [clean_data] maps
    the number [n] of the field [start_n] to the submitted starting code. The
    category instance is shared by all its rows, so they see the attributes
    it has at the end of the loop. *)
Definition cat_body (w : world) (clean_data : list (Z * string))
    (billing_data : list job_dict) (g : Z * list job) : result (list job_dict) :=
  let '(inv_cat_id, inv_cat_df) := g in
  let inv_cat_o := set_totals (get_category (InvoiceCategory_objects w) inv_cat_id) inv_cat_df in
  c <- attr inv_cat_o ;;
  invoice_start <- Dict.get Z.eqb clean_data (number (ic c)) ;;
  invoice_no_range <-
    allocate invoice_start
             (List.length (Pd.drop_duplicates String.eqb (map acct inv_cat_df))) ;;
  st <- for_each (groupby_provider inv_cat_df)
                 (provider_body (BillToProvider_objects w) (MacolaAcct_objects w)
                                invoice_no_range)
                 {| invoice_no_idx := 0; needed := 0; appended := [] |} ;;
  let c := {| ic := ic c; ic_totals := ic_totals c;
              invoice_no_manager := invoice_no_range;
              has_providers := existsb (fun r => negb (provider r =? 0)) inv_cat_df;
              macolas_needed := needed st |} in
  Ok (billing_data ++
      map (fun '(j, a, p) =>
             {| jd_job := j; jd_acct := a; jd_provider := p; jd_cat := c;
                include_form := true |})
          (appended st))%list.

(** [get_billing_data(clean_data, from_cache)], lines 201-258. The snapshot
    is written before the loops run, so it stays written when they raise. *)
Definition get_billing_data (vistar_billing_df : list vistar_row)
    (macola_df : list macola_row) (clean_data : list (Z * string))
    (from_cache : bool) (w : world) : result (list job_dict) * world :=
  match (if from_cache then get_cached_data w
         else Ok (merged_frame vistar_billing_df macola_df)) with
  | Raise e => (Raise e, w)
  | Ok merged =>
      let w' :=
        if from_cache then w
        else {| hdf_store := Some merged;
                InvoiceCategory_objects := InvoiceCategory_objects w;
                BillToProvider_objects := BillToProvider_objects w;
                MacolaAcct_objects := MacolaAcct_objects w;
                saved := saved w |} in
      (for_each (groupby_cat merged) (cat_body w clean_data) [], w')
  end.

(** [form_valid], lines 284-301: the answer to the period form. Without the
    lab's own account the form is answered as invalid ([None] here) before
    any query; else the billing data of the period are fetched. *)
Definition form_valid (vistar_billing_df : list vistar_row)
    (macola_df : list macola_row) (cd : list (Z * string)) (w : world)
  : result (option (list job_dict)) * world :=
  match find (fun m => (account_No m =? "ici")%string) (MacolaAcct_objects w) with
  | None => (Ok None, w)
  | Some _ =>
      let run := get_billing_data vistar_billing_df macola_df cd false w in
      (billing_data <- fst run ;; Ok (Some billing_data), snd run)
  end.

(** ** Forms of [billing/forms.py] and [validate_form] *)

(** A bound form or formset after [is_valid()]: invalid, or valid with its
    [cleaned_data]. *)
Inductive bound (A : Type) : Type :=
| Invalid
| Valid (cleaned_data : A).

Arguments Invalid {A}.
Arguments Valid {A} cleaned_data.

(** [kind_choices] *)
Inductive kind_choice : Type :=
| Credit
| Debit.

(** Clean data of an [AdjustmentForm]; after [validate_form] it is a row of
    the frame with columns [kind], [ref], [des], [amount]. *)
Record adjustment : Type := {
  kind : kind_choice;
  ref : string;
  des : string;
  amount : Q
}.

(** Clean data of an [InvoicePathForm]. *)
Record savepath : Type := {
  save_to : string;
  invoice_date : string
}.

(** What [validate_form] returns for a formset: the bound formset itself when
    it is invalid, [None] when no form holds data, else the processed
    data. *)
Inductive validated (A : Type) : Type :=
| Bound_form
| None_value
| Clean (a : A).

Arguments Bound_form {A}.
Arguments None_value {A}.
Arguments Clean {A} a.

(** [[data for data in clean_data if data]]: the clean data of a form left
    empty is the empty dictionary, here [None]. *)
Fixpoint non_empty {R : Type} (clean_data : list (option R)) : list R :=
  match clean_data with
  | [] => []
  | Some d :: r => d :: non_empty r
  | None :: r => non_empty r
  end.

(** [validate_form(bound_form, field_name)], lines 260-282, on a formset.
    [process] stands for lines 276-281 at the class of the formset: the
    normalization of an [AdjustmentFormset], the selection of the column
    [field_name] for the single-field formsets. *)
Definition validate_form {R C : Type} (process : list R -> C)
    (bound_form : bound (list (option R))) : validated C :=
  match bound_form with
  | Valid clean_data =>
      match non_empty clean_data with
      | [] => None_value
      | filtered => Clean (process filtered)
      end
  | Invalid => Bound_form
  end.

(** Lines 276-278: [kind.map({'Credit': -1, 'Debit': 1})] times [amount]. *)
Definition kind_sign (k : kind_choice) : Q :=
  match k with
  | Credit => (-1)%Q
  | Debit => 1%Q
  end.

Definition normalize (a : adjustment) : adjustment :=
  {| kind := kind a; ref := ref a; des := des a;
     amount := (amount a * kind_sign (kind a))%Q |}.

Definition validate_adjustments (bound_form : bound (list (option adjustment)))
  : validated (list adjustment) :=
  validate_form (map normalize) bound_form.

(** [validate_form(formset, field_name=...)] on the formsets whose forms
    have the single field [field_name]. *)
Definition validate_field {R : Type} (bound_form : bound (list (option R)))
  : validated (list R) :=
  validate_form (fun column => column) bound_form.

(** [.tolist()] on what [validate_form] returned: a formset and [None] have
    no such attribute. *)
Definition tolist {A : Type} (v : validated (list A)) : result (list A) :=
  match v with
  | Clean values => Ok values
  | Bound_form | None_value => Raise AttributeError
  end.

(** Line 341: the adjustments of an account are the frame, or [None] for
    anything that is not a frame. *)
Definition frame_or_none (v : validated (list adjustment)) : option (list adjustment) :=
  match v with
  | Clean df => Some df
  | Bound_form | None_value => None
  end.

(** ** Generated documents *)

(** A cell of a table handed to a renderer: a text, a number, or an amount
    handed to [currency] or to [currency_or_blank]. *)
Inductive cell : Type :=
| Text (s : string)
| Number (n : Z)
| Amount (v : Q)
| Currency (v : Q)
| Currency_or_blank (v : Q).

Inductive response : Type :=
| Form_invalid
| Register_pdf (cat_des month_yr : string) (table_data : list (list cell))
| Invoices_pdf (cat_des inv_period : string) (stories : list (list (list cell)))
| Summary_xlsx (invoice_date : string) (worksheets : list (string * list (list cell)))
| Credit_pdf (acct_no : string) (adj_table_info : list (list cell)).

(** [Dec(x)] on a float: the decimal of the same value. *)
Definition Dec (x : Q) : Q := x.

Definition adjustments_dict : Type := list (string * option (list adjustment)).
Definition invoice_nos_dict : Type := list (string * string).

(** [get_ici_account], lines 157-164. *)
Definition get_ici_account (w : world) : option MacolaAcct :=
  get_object (fun m => (account_No m =? "ici")%string) (MacolaAcct_objects w).

(** ** [register], lines 345-438 *)

(** Line 376: the sum of the normalized amounts of an account, [0] when it
    has no adjustment frame. *)
Definition acct_adjs_of (adj_df : option (list adjustment)) : Q :=
  match adj_df with
  | Some df => Pd.sum (map amount df)
  | None => 0%Q
  end.

(** Line 367 *)
Definition included_accts_of (invoice_nos : invoice_nos_dict) : list string :=
  map fst (filter (fun kv => Py.truthy (snd kv)) invoice_nos).

Definition isin (included_accts : list string) (r : job) : bool :=
  existsb (String.eqb (acct r)) included_accts.

Definition newline : string := String Py.newline EmptyString.

(** Lines 372-391: body of the loop over the accounts of a provider; the
    state is [table_data] and [prov_adjs]. *)
Definition register_acct_body (all_accounts : list MacolaAcct)
    (adjustments : adjustments_dict) (invoice_nos : invoice_nos_dict)
    (included_accts : list string) (st : list (list cell) * list Q)
    (g : string * list job) : result (list (list cell) * list Q) :=
  let '(acct_no, acct_df) := g in
  let '(table_data, prov_adjs) := st in
  adj_df <- Dict.get String.eqb adjustments acct_no ;;
  if negb (existsb (String.eqb acct_no) included_accts) then Ok st
  else
    let acct_adjs := acct_adjs_of adj_df in
    let acct_o := set_totals (get_acct all_accounts acct_no) acct_df in
    a <- attr acct_o ;;
    let acct_des := name (ma a) ++ " - #" ++ account_No (ma a) in
    let acct_des :=
      if Py.truthy (email (ma a)) then acct_des ++ newline ++ email (ma a)
      else acct_des in
    invoice_no <- Dict.get String.eqb invoice_nos acct_no ;;
    t <- attr (totals a) ;;
    Ok ((table_data ++
         [[Text (Py.commas_to_newlines invoice_no);
           Text acct_des;
           Currency_or_blank (obj_sales t);
           Currency_or_blank (obj_tax t);
           Currency_or_blank acct_adjs;
           Currency_or_blank (Dec (obj_total t) + acct_adjs)%Q]])%list,
        (prov_adjs ++ [acct_adjs])%list).

(** Python's [sum(xs)] on a list of numbers. *)
Definition py_sum (xs : list Q) : Q := fold_left Qplus xs 0%Q.

(** Lines 368-407: body of the loop over the providers; the state is
    [table_data] and [total_adjs]. The merged frame has no column [name], so
    reading [provider_df.name] for a provider without short name raises. *)
Definition register_provider_body (w : world)
    (adjustments : adjustments_dict) (invoice_nos : invoice_nos_dict)
    (included_accts : list string) (st : list (list cell) * list Q)
    (g : Z * list job) : result (list (list cell) * list Q) :=
  let '(provider_id, provider_df) := g in
  let '(table_data, total_adjs) := st in
  let provider_o := set_totals (get_provider (BillToProvider_objects w) provider_id) provider_df in
  '(table_data, prov_adjs) <-
    for_each (groupby_acct provider_df)
             (register_acct_body (MacolaAcct_objects w) adjustments invoice_nos
                                 included_accts)
             (table_data, []) ;;
  let prov_adj_sum := py_sum prov_adjs in
  let total_adjs := (total_adjs ++ [prov_adj_sum])%list in
  match provider_o with
  | None => Ok (table_data, total_adjs)
  | Some p =>
      prov_name <-
        (if Py.truthy (bp_short_name (bp p)) then Ok (bp_short_name (bp p))
         else Raise AttributeError) ;;
      let included_prov_acct_df := filter (isin included_accts) provider_df in
      Ok ((table_data ++
           [[Text EmptyString;
             Text (prov_name ++ " Subtotals");
             Currency (Pd.sum (map sales included_prov_acct_df));
             Currency_or_blank (Pd.sum (map tax included_prov_acct_df));
             Currency_or_blank prov_adj_sum;
             Currency (Dec (Pd.sum (map total included_prov_acct_df)) + prov_adj_sum)%Q]])%list,
          total_adjs)
  end.

Definition register_header : list cell :=
  [Text "Invoice No"; Text "Account Description"; Text "Sales"; Text "Sales Tax";
   Text "Adjustments"; Text "Total"].

Definition register (w : world) (category_o : option category_obj)
    (savepath_clean_data : savepath) (billing_data : Pd.frame job)
    (adjustments : adjustments_dict) (invoice_nos : invoice_nos_dict)
  : result response :=
  let included_accts := included_accts_of invoice_nos in
  df <- Pd.columns billing_data ;;
  '(table_data, total_adjs) <-
    for_each (groupby_provider df)
             (register_provider_body w adjustments invoice_nos included_accts)
             ([register_header], []) ;;
  let included_total_acct_df := filter (isin included_accts) df in
  let total_adj_sum := py_sum total_adjs in
  let sales_sum := Pd.sum (map sales included_total_acct_df) in
  let tax_sum := Pd.sum (map tax included_total_acct_df) in
  let table_data :=
    (table_data ++
     [[Text EmptyString; Text "Totals"; Currency sales_sum; Currency_or_blank tax_sum;
       Currency_or_blank total_adj_sum;
       Currency (Dec (sales_sum + tax_sum) + total_adj_sum)%Q]])%list in
  c <- attr category_o ;;
  Ok (Register_pdf (description (ic c)) (invoice_date savepath_clean_data) table_data).

(** ** [invoices], lines 440-619 *)

(** [category_obj.save()]: the row of that primary key is rewritten with the
    fields of the instance. *)
Definition save (c : InvoiceCategory) (w : world) : world :=
  {| hdf_store := hdf_store w;
     InvoiceCategory_objects :=
       map (fun m => if ic_id m =? ic_id c then c else m) (InvoiceCategory_objects w);
     BillToProvider_objects := BillToProvider_objects w;
     MacolaAcct_objects := MacolaAcct_objects w;
     saved := c :: saved w |}.

(** Line 450 binds both [all_providers] and [all_accounts] to the pair
    returned by [attrgetter], so [get_object(all_providers, provider_id)] at
    line 530, the first statement of the loop over the provider groups,
    calls [filter] on a tuple. *)
Definition get_object_of_tuple {M : Type} : result (option M) := Raise AttributeError.

(** Line 529-530: the loop over the provider groups stops in its first
    iteration; with no group, no invoice is built. *)
Definition invoices_provider_body (stories : list (list (list cell)))
    (g : Z * list job) : result (list (list (list cell))) :=
  _ <- @get_object_of_tuple BillToProvider ;;
  Ok stories.

Definition invoices (w : world) (category_o : option category_obj)
    (savepath_clean_data : savepath) (billing_data : Pd.frame job)
    (adjustments : adjustments_dict) (invoice_nos : invoice_nos_dict)
  : result response * world :=
  let run :=
    c <- attr category_o ;;
    ici <- attr (get_ici_account w) ;;
    df <- Pd.columns billing_data ;;
    stories <- for_each (groupby_provider df) invoices_provider_body [] ;;
    new_start <- next_invoice_start invoice_nos ;;
    Ok (c, stories, new_start) in
  match run with
  | Raise e => (Raise e, w)
  | Ok (c, stories, new_start) =>
      let category := {| ic_id := ic_id (ic c); number := number (ic c);
                         description := description (ic c);
                         invoice_start := new_start |} in
      (Ok (Invoices_pdf (description (ic c)) (invoice_date savepath_clean_data) stories),
       save category w)
  end.

(** ** [summary], lines 621-753 *)

(** Lines 713-719 *)
Definition disp_frame_of (j : job) : string :=
  if Py.contains "stock" (Py.lower (patient_name j)) then comment1 j
  else if negb (Py.truthy (frame_item_no j)) then frame_name2 j
  else frame_name j.

Definition kind_name (k : kind_choice) : string :=
  match k with
  | Credit => "Credit"
  | Debit => "Debit"
  end.

(** [all_accounts.get(account_No=acct_no)] and [all_providers.get(pk=...)] *)
Definition objects_get {M : Type} (has_pk : M -> bool) (queryset : list M) : result M :=
  match find has_pk queryset with
  | Some m => Ok m
  | None => Raise DoesNotExist
  end.

(** Lines 706-743: body of the loop over the accounts; the mappings are read
    under the literal key ['acct_no']. The state is the rows written to the
    worksheet. *)
Definition summary_acct_body (all_accounts : list MacolaAcct)
    (adjustments : adjustments_dict) (invoice_nos : invoice_nos_dict)
    (rows : list (list cell)) (g : string * list job) : result (list (list cell)) :=
  let '(acct_no, acct_df) := g in
  invoice_no <- Dict.get String.eqb invoice_nos "acct_no" ;;
  acct_adjs <- Dict.get String.eqb adjustments "acct_no" ;;
  if negb (Py.truthy invoice_no) then Ok rows
  else
    a <- objects_get (fun m => (account_No m =? acct_no)%string) all_accounts ;;
    let name := if Py.truthy (short_name a) then short_name a else name a in
    let job_rows :=
      map (fun j => [Text invoice_no; Text acct_no; Text name; Number (job_id j);
                     Text (patient_name j); Text (disp_frame_of j); Text (ship_date j);
                     Amount (lens_price j); Amount (frame_price j); Amount (sales j)])
          acct_df in
    let adj_rows :=
      match acct_adjs with
      | Some df =>
          map (fun adj => [Text invoice_no; Text acct_no; Text name; Text (ref adj);
                           Text (des adj); Text (kind_name (kind adj));
                           Text EmptyString; Text EmptyString; Text EmptyString; Amount (amount adj)])
              df
      | None => []
      end in
    Ok (rows ++ job_rows ++ adj_rows)%list.

Definition summary_header : list cell :=
  [Text "Invoice No"; Text "Account No"; Text "Shipped To"; Text "Job ID No";
   Text "Patient Name"; Text "Frame Style"; Text "Ship Date"; Text "Lens Price";
   Text "Frame Price"; Text "Total Price"].

(** Lines 677-752: body of the loop over the providers, one worksheet
    each. *)
Definition summary_provider_body (w : world)
    (adjustments : adjustments_dict) (invoice_nos : invoice_nos_dict)
    (worksheets : list (string * list (list cell))) (g : Z * list job)
  : result (list (string * list (list cell))) :=
  let '(provider_id, provider_df) := g in
  p <- objects_get (fun m => bp_id m =? provider_id) (BillToProvider_objects w) ;;
  let short_name :=
    if Py.truthy (bp_short_name p) then bp_short_name p else Py.slice_to 10 (bp_name p) in
  rows <- for_each (groupby_acct provider_df)
                   (summary_acct_body (MacolaAcct_objects w) adjustments invoice_nos)
                   [summary_header] ;;
  let total_row :=
    [Text "TOTAL PATIENTS:"; Number (Z.of_nat (List.length provider_df))] in
  Ok (worksheets ++ [(short_name, rows ++ [total_row])])%list.

Definition summary (w : world) (savepath_clean_data : savepath)
    (billing_data : Pd.frame job)
    (adjustments : adjustments_dict) (invoice_nos : invoice_nos_dict)
  : result response :=
  df <- Pd.columns billing_data ;;
  worksheets <- for_each (groupby_provider df)
                         (summary_provider_body w adjustments invoice_nos) [] ;;
  Ok (Summary_xlsx (invoice_date savepath_clean_data) worksheets).

(** ** [credit], lines 755-825 *)

(** [convert_to_currency], lines 191-199, on a row of the adjustment frame. *)
Definition convert_to_currency (adj : adjustment) : list cell :=
  [Text (kind_name (kind adj)); Text (ref adj); Text (des adj);
   Currency_or_blank (amount adj)].

Definition credit (w : world) (credit_value : string)
    (adjustments : adjustments_dict) (invoice_nos : invoice_nos_dict)
  : result response :=
  acct_no <- Py.last_word credit_value ;;
  acct_adjs_df <- Dict.get String.eqb adjustments "acct_no" ;;
  acct_inv_no <- Dict.get String.eqb invoice_nos "acct_no" ;;
  ici <- attr (get_ici_account w) ;;
  df <- attr acct_adjs_df ;;
  Ok (Credit_pdf acct_no
        ([Text "Adjustment Type"; Text "Reference No"; Text "Description"; Text "Amount"]
         :: map convert_to_currency df)).

(** ** [post], lines 303-343 *)

(** The name after the underscore of the submit key of the request. *)
Inductive submit : Type :=
| submit_register
| submit_invoices
| submit_summary
| submit_credit.

(** A POST request carrying a submit key: the category, the bound forms and
    formsets built from its data (the inclusion and adjustment formsets by
    account number, as their prefixes are), and the value of [_credit]. *)
Record request : Type := {
  misc_submit : submit;
  cat_id : Z;
  inv_formset : bound (list (option string));
  savepath_form : bound savepath;
  include_formset : string -> bound (list (option bool));
  adj_formset : string -> bound (list (option adjustment));
  credit_value : string
}.

(** Lines 336-342: body of the loop over the accounts of the category,
    paired with the submitted invoice numbers. *)
Definition post_body (rq : request)
    (st : list bool * adjustments_dict * invoice_nos_dict)
    (p : string * string) : result (list bool * adjustments_dict * invoice_nos_dict) :=
  let '(acct_no, invoice_no) := p in
  let '(include_job_mask, adjustments, invoice_nos) := st in
  included <- tolist (validate_field (include_formset rq acct_no)) ;;
  let adj_formset_clean_data := validate_adjustments (adj_formset rq acct_no) in
  Ok ((include_job_mask ++ included)%list,
      Dict.set String.eqb adjustments acct_no (frame_or_none adj_formset_clean_data),
      Dict.set String.eqb invoice_nos acct_no invoice_no).

(** What [post] hands to the generating method, or nothing when the path
    form is invalid and [form_invalid] answers. *)
Definition post_arguments (rq : request) (w : world)
  : result (option (savepath * Pd.frame job * adjustments_dict * invoice_nos_dict)) :=
  invoice_no_list <- tolist (validate_field (inv_formset rq)) ;;
  match savepath_form rq with
  | Invalid => Ok None
  | Valid savepath_clean_data =>
      cached <- get_cached_data w ;;
      let billing_data := filter (fun r => cat r =? cat_id rq) cached in
      '(include_job_mask, adjustments, invoice_nos) <-
        for_each (combine (Pd.drop_duplicates String.eqb (map acct billing_data))
                          invoice_no_list)
                 (post_body rq) ([], [], []) ;;
      selected <- Pd.getitem billing_data include_job_mask ;;
      Ok (Some (savepath_clean_data, selected, adjustments, invoice_nos))
  end.

Definition post (rq : request) (w : world) : result response * world :=
  let category_o := get_category (InvoiceCategory_objects w) (cat_id rq) in
  match post_arguments rq w with
  | Raise e => (Raise e, w)
  | Ok None => (Ok Form_invalid, w)
  | Ok (Some (savepath_clean_data, billing_data, adjustments, invoice_nos)) =>
      match misc_submit rq with
      | submit_register =>
          (register w category_o savepath_clean_data billing_data adjustments invoice_nos, w)
      | submit_invoices =>
          invoices w category_o savepath_clean_data billing_data adjustments invoice_nos
      | submit_summary =>
          (summary w savepath_clean_data billing_data adjustments invoice_nos, w)
      | submit_credit =>
          (credit w (credit_value rq) adjustments invoice_nos, w)
      end
  end.

(** * Other parts of the views and of the forms *)

(** ** End of the period: [form_valid], lines 291-293 *)

(** A [date] is modelled by its proleptic Gregorian ordinal
    ([date.toordinal()]): day 1 is 1 January of year 1, a Monday.
    [date.weekday()] is [(toordinal() + 6) % 7], Monday being 0. *)
Definition weekday (d : Z) : Z := (d + 6) mod 7.

(** [d - timedelta(days=k)] *)
Definition minus_days (d k : Z) : Z := d - k.

(** [end]: the last day of the selected period, moved back to the Friday
    when it falls on a Saturday (5) or on a Sunday (6). *)
Definition period_end (d : Z) : Z :=
  let day_of_week := weekday d in
  if (day_of_week =? 5) || (day_of_week =? 6) then minus_days d (day_of_week - 4)
  else d.

(** ** Paths: [BillingAppViewMixin] and [get_cache_path], [get_savepath_kwargs] *)

Module Os.

(** [os.path.join(a, *p)] of [posixpath]: a component that starts with the
    separator replaces what precedes it; otherwise it is appended, after a
    separator unless the path is empty or ends with one. *)
Definition starts_with_sep (s : string) : bool := String.prefix "/" s.

Fixpoint ends_with_sep (s : string) : bool :=
  match s with
  | EmptyString => false
  | String c EmptyString => (c =? "/")%char
  | String _ r => ends_with_sep r
  end.

Definition join_one (path b : string) : string :=
  if starts_with_sep b then b
  else if negb (Py.truthy path) || ends_with_sep path then path ++ b
  else path ++ "/" ++ b.

Definition join (a : string) (p : list string) : string := fold_left join_one p a.

End Os.

Definition proxy_static_dir : string := "/var/www/wsgi-scripts/static/billing".

Definition proxy_invoice_dir : string := "/home/proxyserver/clerks/exports/".

(** [on_localhost], lines 52-57; [host] is the value of
    [request.get_host()]. *)
Definition on_localhost (host : string) : bool :=
  Py.contains "localhost" (Py.lower host).

(** [get_ici_logo_path], lines 59-67; [environ] is [os.environ]. *)
Definition get_ici_logo_path (host : string) (environ : list (string * string))
  : result string :=
  let filename := "ici_logo.png" in
  if on_localhost host then
    pwd <- Dict.get String.eqb environ "PWD" ;;
    Ok (Os.join pwd ["billing/static/billing/"; filename])
  else Ok (Os.join proxy_static_dir [filename]).

(** [get_cache_path], lines 128-136. *)
Definition get_cache_path (host : string) (environ : list (string * string))
  : result string :=
  let filename := "billing_data.h5" in
  if on_localhost host then
    pwd <- Dict.get String.eqb environ "PWD" ;;
    Ok (Os.join pwd ["billing/static/billing/"; filename])
  else Ok (Os.join proxy_static_dir [filename]).

(** [save_path] of [get_savepath_kwargs], lines 151-152. *)
Definition save_path (host : string) (environ : list (string * string))
  : result string :=
  if on_localhost host then
    user <- Dict.get String.eqb environ "USER" ;;
    Ok (Os.join "/home/" [user ++ "/"])
  else Ok proxy_invoice_dir.

(** ** Fields of the starting codes: [InvoicePeriodForm], forms.py lines 36-43 *)

(** [InvoiceCategory.objects.order_by('number')] *)
Definition order_by_number (cats : list InvoiceCategory) : list InvoiceCategory :=
  Pd.sort (fun a b => number a <=? number b) cats.

(** The fields [start_<pk>] of the form, one per category, each named after
    the primary key of its category and holding its [invoice_start] as
    initial value. A field [start_n] is represented by [n], as in the
    [clean_data] of [get_billing_data]. *)
Definition start_fields (cats : list InvoiceCategory) : list (Z * string) :=
  map (fun c => (ic_id c, invoice_start c)) (order_by_number cats).

(** ** Request of a MACOLA number: [MacolaRequestForm] and
       [MacolaRequestFormView] *)

(** Values of form fields and of table columns. A date is carried by its
    rendering under ['%m/%d/%Y']. *)
Inductive value : Type :=
| Str (s : string)
| Int (n : Z)
| Bool (b : bool)
| Num (q : Q)
| Date (mdy : string)
| Null.

(** Truth value of a value in a condition. *)
Definition truth (v : value) : bool :=
  match v with
  | Str s => Py.truthy s
  | Int n => negb (n =? 0)
  | Bool b => b
  | Num q => negb (Qeq_bool q 0)
  | Date _ => true
  | Null => false
  end.

(** A text built by [str.format]: the literal parts of the template and the
    values that fill its fields. *)
Inductive fragment : Type :=
| Lit (s : string)
| Arg (v : value).

(** [MacolaRequestForm.__init__], forms.py lines 74-106: the names of the
    fields, in order, for the given [acct_no] argument. *)
Definition MacolaRequestForm_fields (acct_no : option string) : list string :=
  (["req_date"; "req_person"; "acct_type"]
   ++ match acct_no with
      | None => ["tax_exemption"; "name"; "inv_addr1"; "inv_addr2"; "inv_city";
                 "inv_state"; "inv_zip"; "phone"; "fax_No"; "email"]
      | Some _ => []
      end
   ++ ["state_employee"; "agency_loc"; "agency_no"; "fund_no"])%list.

(** The [cleaned_data] of a valid form: one entry per field; [data] gives
    the clean value of each field. *)
Definition cleaned_data_of (fields : list string) (data : string -> value)
  : list (string * value) :=
  map (fun f => (f, data f)) fields.

(** [get_form_kwargs], lines 838-845: the [acct_no] argument of the form for
    the [acct] argument of the URL. *)
Definition get_form_kwargs (acct : string) : option string :=
  if (acct =? "none")%string then None else Some acct.

(** [d.strftime('%m/%d/%Y')] *)
Definition strftime_mdy (v : value) : result value :=
  match v with
  | Date mdy => Ok (Str mdy)
  | _ => Raise AttributeError
  end.

Inductive macola_response : Type :=
| Macola_form_invalid (msg : list fragment)
| Macola_pdf (acct_no : string) (table_data : list (list (list fragment))).

Section MacolaRequest.

(** [QuerySet.values()]: the dictionary of the columns of a row of
    [macola.models.MacolaAcct]; the model is declared outside the billing
    application. *)
Variable values : MacolaAcct -> list (string * value).

(** Lines 856-865: the account data, from the table for an account number,
    from the form otherwise; [None] stands for the answer
    [form_invalid]. *)
Definition requested_account (acct_no : string) (cd : list (string * value))
    (w : world) : result (option (list (string * value))) :=
  if Py.truthy acct_no then
    match filter (fun a => (account_No a =? acct_no)%string) (MacolaAcct_objects w) with
    | [] => Ok None
    | first :: _ =>
        let acct := values first in
        tax_rate <- Dict.get String.eqb acct "tax_rate" ;;
        tax_exemption <-
          (if truth tax_rate then Ok (Str EmptyString)
           else Dict.get String.eqb acct "tax_exemption") ;;
        Ok (Some (Dict.set String.eqb acct "tax_exemption" tax_exemption))
    end
  else Ok (Some (Dict.set String.eqb cd "account_No" (Str acct_no))).

(** [MacolaRequestFormView.form_valid], lines 847-940, for the [acct]
    argument of the URL and the clean values [data] of the fields. The
    document is the table handed to the renderer, each cell a formatted
    text. *)
Definition macola_form_valid (acct_no : string) (data : string -> value) (w : world)
  : result macola_response :=
  let cd := cleaned_data_of (MacolaRequestForm_fields (get_form_kwargs acct_no)) data in
  state_employee <- Dict.get String.eqb cd "state_employee" ;;
  requested <- requested_account acct_no cd w ;;
  match requested with
  | None =>
      Ok (Macola_form_invalid
            [Lit "Account '"; Arg (Str acct_no);
             Lit "' does not exist in MACOLA Customer Accounts table"])
  | Some acct =>
      let blank_row := [[Lit EmptyString]; [Lit EmptyString]] in
      tax_exempt <- Dict.get String.eqb acct "tax_exemption" ;;
      inv_addr1 <- Dict.get String.eqb acct "inv_addr1" ;;
      inv_addr2 <- Dict.get String.eqb acct "inv_addr2" ;;
      inv_city <- Dict.get String.eqb acct "inv_city" ;;
      inv_State <- Dict.get String.eqb acct "inv_State" ;;
      inv_zip <- Dict.get String.eqb acct "inv_zip" ;;
      req_date <- Dict.get String.eqb cd "req_date" ;;
      req_date <- strftime_mdy req_date ;;
      req_person <- Dict.get String.eqb cd "req_person" ;;
      acct_type <- Dict.get String.eqb cd "acct_type" ;;
      name <- Dict.get String.eqb acct "name" ;;
      phone <- Dict.get String.eqb acct "phone" ;;
      fax_No <- Dict.get String.eqb acct "fax_No" ;;
      email <- Dict.get String.eqb acct "email" ;;
      let table_data :=
        [ [[Lit "*Required Information"];
           [Lit "Macola Number Assigned: ____________________"]];
          [[Lit "*Date of Request: "; Arg req_date];
           [Lit "Person Requesting Number: "; Arg req_person]];
          blank_row;
          [[Lit "*Type of Account Requested: "; Arg acct_type]; [Lit EmptyString]];
          blank_row;
          [[Lit "*Sales Tax Status: ";
            Lit (if truth tax_exempt then "Sales Tax Exempt" else "Taxable")];
           [Lit "Tax Exemption Number: "; Arg tax_exempt]];
          [[Lit ("++Note: A copy of Tax Exemption Certificate must be provided to "
                 ++ "Fiscal Department as proof in order for account to" ++ newline
                 ++ "maintain tax exemption status.")];
           [Lit EmptyString]];
          blank_row;
          [[Lit "*Customer Information:"]; [Lit EmptyString]];
          [[Lit "Account Name:"];
           [Arg name; Lit " ";
            Lit (if Py.truthy acct_no then "#" ++ acct_no else EmptyString)]];
          [[Lit "*Address:"];
           [Arg inv_addr1; Lit ", "; Arg inv_addr2; Lit ("," ++ newline);
            Arg inv_city; Lit ", "; Arg inv_State; Lit " "; Arg inv_zip]];
          [[Lit "*Phone Number:"]; [Arg phone]];
          [[Lit "*Fax Number:"]; [Arg fax_No]];
          [[Lit "*Email Address:"]; [Arg email]];
          [[Lit "*Account Holder ";
            Lit (if truth state_employee then "IS" else "is NOT");
            Lit " a State Employee"];
           [Lit EmptyString]] ] in
      extension <-
        (if truth state_employee then
           agency_no <- Dict.get String.eqb cd "agency_no" ;;
           fund_no <- Dict.get String.eqb cd "fund_no" ;;
           agency_loc <- Dict.get String.eqb cd "agency_loc" ;;
           Ok [ [[Lit "State Agency Location: "; Arg agency_loc]; [Lit EmptyString]];
                [[Lit "Customer is a State Agency"];
                 [Lit "Agency No: "; Arg agency_no; Lit " | Fund No: "; Arg fund_no]] ]
         else Ok [blank_row; blank_row; blank_row]) ;;
      let closing :=
        [ blank_row;
          [[Lit "ICI Use Only"]; [Lit EmptyString]];
          [[Lit "Date Entered in Macola: __________"]; [Lit "Entered By: __________"]];
          [[Lit "Date NEW ACCOUNT SPREADSHEET Updated: _________"];
           [Lit "Account Number and Date Emailed: __________"]];
          [[Lit "Revision Date: 5/15/2017"]] ] in
      Ok (Macola_pdf acct_no (table_data ++ extension ++ closing))
  end.

End MacolaRequest.

(** * Vocabulary of the statements *)

(** Value of a run of digits read from the left, starting from [acc]. *)
Definition horner (l : list ascii) (acc : N) : N :=
  fold_left (fun a c => (10 * a + Py.digit_val c)%N) l acc.

(** The string holds decimal digits only. *)
Definition all_digits (s : string) : bool :=
  forallb Py.is_digit (list_ascii_of_string s).

(** [l1] holds some of the elements of [l2], in the order of [l2]. *)
Inductive Subseq {A : Type} : list A -> list A -> Prop :=
| Subseq_nil : Subseq [] []
| Subseq_skip (x : A) (l1 l2 : list A) : Subseq l1 l2 -> Subseq l1 (x :: l2)
| Subseq_keep (x : A) (l1 l2 : list A) : Subseq l1 l2 -> Subseq (x :: l1) (x :: l2).

(** Laws of a three-way comparison that decides a strict total order. *)
Record order_laws {K : Type} (cmp : K -> K -> comparison) : Prop := {
  cmp_eq_iff : forall x y, cmp x y = Eq <-> x = y;
  cmp_antisym : forall x y, cmp y x = CompOpp (cmp x y);
  cmp_lt_trans : forall x y z, cmp x y = Lt -> cmp y z = Lt -> cmp x z = Lt
}.

Definition leb_of {K : Type} (cmp : K -> K -> comparison) (x y : K) : bool :=
  match cmp x y with
  | Gt => false
  | _ => true
  end.

(** Lexicographic comparison of pairs. *)
Definition lex_pair {A B : Type} (cmpA : A -> A -> comparison)
    (cmpB : B -> B -> comparison) (x y : A * B) : comparison :=
  lex (cmpA (fst x) (fst y)) (cmpB (snd x) (snd y)).

(** The sort key of a row of the merged frame, in the order of the [by]
    argument of [sort_values]. *)
Definition sort_key (r : job) : Z * (Z * (string * (string * string))) :=
  (cat r, (provider r, (acct r, (ship_date r, patient_name r)))).

Definition key_compare : Z * (Z * (string * (string * string))) ->
                         Z * (Z * (string * (string * string))) -> comparison :=
  lex_pair Z.compare
    (lex_pair Z.compare
      (lex_pair String.compare (lex_pair String.compare String.compare))).

(** [r1] is not after [r2] in the order of the sort keys. *)
Definition key_le (r1 r2 : job) : Prop := sort_key_leb r1 r2 = true.

(** The keys of the groups of [groupby]: each key of the frame once, in
    ascending order. *)
Definition group_keys {A K : Type} (eqb leb : K -> K -> bool) (key : A -> K)
    (df : list A) : list K :=
  Pd.sort leb (Pd.drop_duplicates eqb (map key df)).

(** The totals of a frame, as [set_totals] computes them. *)
Definition totals_of (data_df : list job) : Totals :=
  {| obj_sales := Pd.sum (map sales data_df);
     obj_tax := Pd.sum (map tax data_df);
     obj_total := (Pd.sum (map sales data_df) + Pd.sum (map tax data_df))%Q |}.

(** The instance carries totals computed over [data_df]: [sales] and [tax]
    are the sums of the columns and [total] is their sum. *)
Definition attached (o : option Totals) (data_df : list job) : Prop :=
  exists t, o = Some t /\
    obj_sales t = Pd.sum (map sales data_df) /\
    obj_tax t = Pd.sum (map tax data_df) /\
    obj_total t = (obj_sales t + obj_tax t)%Q.

(** The rows of [df] in the category, then with the provider, then with the
    account of [j]. *)
Definition cat_rows (j : job) (df : list job) : list job :=
  filter (fun r => cat r =? cat j) df.

Definition provider_rows (j : job) (df : list job) : list job :=
  filter (fun r => provider r =? provider j) (cat_rows j df).

Definition acct_rows (j : job) (df : list job) : list job :=
  filter (fun r => (acct r =? acct j)%string) (provider_rows j df).

(** Strict order of strings. *)
Definition str_lt (s t : string) : Prop := String.compare s t = Lt.

(** Two rows have the same sort key. *)
Definition same_key (r1 r2 : job) : bool :=
  match sort_key_compare r1 r2 with
  | Eq => true
  | _ => false
  end.

(** The parts of a row appended by the loops of [get_billing_data]. *)
Definition job_of (e : job * acct_obj * option provider_obj) : job := fst (fst e).
Definition acct_of (e : job * acct_obj * option provider_obj) : acct_obj := snd (fst e).
Definition provider_of (e : job * acct_obj * option provider_obj)
  : option provider_obj := snd e.

(** The rows of the groups of a frame, group after group, for the three
    nested [groupby] of [get_billing_data]. *)
Definition acct_groups_rows (provider_df : list job) : list job :=
  List.concat (map snd (groupby_acct provider_df)).

Definition provider_groups_rows (inv_cat_df : list job) : list job :=
  List.concat (map (fun g => acct_groups_rows (snd g)) (groupby_provider inv_cat_df)).

Definition cat_groups_rows (merged : list job) : list job :=
  List.concat (map (fun g => provider_groups_rows (snd g)) (groupby_cat merged)).

(** An appended row carries instances with the totals of its account group
    and of its provider group. *)
Definition entry_ok (inv_cat_df : list job) (e : job * acct_obj * option provider_obj)
  : Prop :=
  exists pg, In pg (groupby_provider inv_cat_df) /\
    (forall p, provider_of e = Some p -> attached (totals p) (snd pg)) /\
    exists ag, In ag (groupby_acct (snd pg)) /\
      In (job_of e) (snd ag) /\
      attached (totals (acct_of e)) (snd ag) /\
      exists i, invoice_no_form (acct_of e) = Some i.

(** * Scenarios *)

(** One account with two jobs of sales 100.00 and 50.00, taxed at 0.0825,
    in the category "Retail" (5), which starts at "RT015001". *)
Definition job_row (acct_no : string) (id : Z) (ship patient : string) (net : Q)
  : vistar_row :=
  {| v_acct := acct_no; v_job_id := id; v_enter_date := "01/02/2020";
     v_frame_name := "Aviator"; v_frame_item_no := "F100"; v_frame_name2 := "Aviator 52";
     v_comment1 := EmptyString; v_ship_date := ship; v_patient_name := patient;
     v_lens_price := 0; v_frame_price := 0; v_sales := net |}.

Definition reference_row (acct_no : string) : macola_row :=
  {| m_acct := acct_no; m_provider := None; m_tax_rate := Some 0.0825%Q; m_cat := 5 |}.

Definition account (acct_no : string) : MacolaAcct :=
  {| account_No := acct_no; name := "Clinic " ++ acct_no; short_name := EmptyString;
     email := EmptyString; macola_No := "M" ++ acct_no; contact_name := EmptyString;
     contact_title := EmptyString |}.

Definition retail : InvoiceCategory :=
  {| ic_id := 5; number := 5; description := "Retail"; invoice_start := "RT015001" |}.

Definition lab_world (accts : list string) : world :=
  {| hdf_store := None;
     InvoiceCategory_objects := [retail];
     BillToProvider_objects := [];
     MacolaAcct_objects := map account accts ++ [account "ici"];
     saved := [] |}.

Definition two_jobs : list vistar_row :=
  [job_row "1001" 1 "01/05/2020" "Doe, Jane" 100; job_row "1001" 2 "01/06/2020" "Roe, Rick" 50].

Definition two_jobs_run : result (list job_dict) * world :=
  get_billing_data two_jobs [reference_row "1001"] [(5, "RT015001")] false
                   (lab_world ["1001"]).

(** Three accounts with one job each in the category "Retail". *)
Definition three_accts : list string := ["1001"; "1002"; "1003"].

Definition three_jobs : list vistar_row :=
  [job_row "1003" 1 "01/05/2020" "Doe, Jane" 100;
   job_row "1001" 2 "01/06/2020" "Roe, Rick" 50;
   job_row "1002" 3 "01/07/2020" "Poe, Pat" 75].

Definition three_accts_run : result (list job_dict) * world :=
  get_billing_data three_jobs (map reference_row three_accts) [(5, "RT015001")] false
                   (lab_world three_accts).

(** A request on the category "Retail" that submits the three proposed
    codes, the same inclusion flag for every job, and the given adjustment
    formsets. *)
Definition retail_request (submit_key : submit) (include : bool)
    (adj : string -> bound (list (option adjustment))) : request :=
  {| misc_submit := submit_key;
     cat_id := 5;
     inv_formset := Valid [Some "RT015001"; Some "RT015002"; Some "RT015003"];
     savepath_form := Valid {| save_to := "/home/clerk"; invoice_date := "January 2020" |};
     include_formset := fun _ => Valid [Some include];
     adj_formset := adj;
     credit_value := "Credit 1001" |}.

(** No adjustment is submitted: the extra form of every formset is left
    empty. *)
Definition no_adjustment (acct_no : string) : bound (list (option adjustment)) :=
  Valid [None].

(** The adjustment formset of account "1001" does not validate. *)
Definition invalid_adjustment (acct_no : string) : bound (list (option adjustment)) :=
  if (acct_no =? "1001")%string then Invalid else Valid [None].

(** The account "1001" of the two-job scenario with two Credit adjustments
    of 20.00 and 5.00 submitted, every job included. *)
Definition credit_20 : adjustment :=
  {| kind := Credit; ref := "1"; des := "scratched lens"; amount := 20 |}.

Definition credit_5 : adjustment :=
  {| kind := Credit; ref := "2"; des := "late delivery"; amount := 5 |}.

Definition two_credits_request : request :=
  {| misc_submit := submit_register;
     cat_id := 5;
     inv_formset := Valid [Some "RT015001"];
     savepath_form := Valid {| save_to := "/home/clerk"; invoice_date := "January 2020" |};
     include_formset := fun _ => Valid [Some true; Some true];
     adj_formset := fun _ => Valid [Some credit_20; Some credit_5; None];
     credit_value := "Credit 1001" |}.

(** An institutional run: the account "2001" is billed to the provider 7 in
    the category "Retail"; one job, included, invoice number "RT015001". *)
Definition hospital : BillToProvider :=
  {| bp_id := 7; bp_name := "State Hospital"; bp_short_name := "Hospital";
     bp_macola_No := "P7" |}.

Definition institution_world : world :=
  {| hdf_store :=
       Some (merged_frame [job_row "2001" 1 "01/05/2020" "Doe, Jane" 100]
                          [{| m_acct := "2001"; m_provider := Some 7;
                              m_tax_rate := None; m_cat := 5 |}]);
     InvoiceCategory_objects := [retail];
     BillToProvider_objects := [hospital];
     MacolaAcct_objects := [account "2001"; account "ici"];
     saved := [] |}.

Definition institution_request (submit_key : submit) : request :=
  {| misc_submit := submit_key;
     cat_id := 5;
     inv_formset := Valid [Some "RT015001"];
     savepath_form := Valid {| save_to := "/home/clerk"; invoice_date := "January 2020" |};
     include_formset := fun _ => Valid [Some true];
     adj_formset := fun _ => Valid [Some credit_5];
     credit_value := "Credit 2001" |}.

(** * Vocabulary of the further properties *)

(** The string holds no decimal digit. *)
Definition no_digit (s : string) : bool :=
  forallb (fun c => negb (Py.is_digit c)) (list_ascii_of_string s).

(** The flags that [validate_form] keeps of an inclusion formset. *)
Definition include_flags (rq : request) (acct_no : string) : list bool :=
  match include_formset rq acct_no with
  | Valid flags => non_empty flags
  | Invalid => []
  end.

(** The entry of [adjustments] that line 341 computes for an account. *)
Definition adjustments_entry (rq : request) (acct_no : string)
  : string * option (list adjustment) :=
  (acct_no, frame_or_none (validate_adjustments (adj_formset rq acct_no))).

(** Sum of a list of amounts. *)
Definition sigma (xs : list Q) : Q := fold_right Qplus 0%Q xs.

(** The amount held by a cell of a table; a cell of text holds none. *)
Definition amount_of (c : cell) : Q :=
  match c with
  | Amount v | Currency v | Currency_or_blank v => v
  | Text _ | Number _ => 0%Q
  end.

(** The amount in column [i] of a line, columns counted from 0. *)
Definition column (i : nat) (line : list cell) : Q :=
  amount_of (nth i line (Text EmptyString)).

(** A line of the register that stands for an account shows its invoice
    numbers in the first cell; the lines of subtotals and of totals leave
    that cell empty. *)
Definition account_line (line : list cell) : bool :=
  match line with
  | Text s :: _ => Py.truthy s
  | _ => false
  end.

(** The amount [f] of a row when its account is included, else nothing. *)
Definition included_amount (included_accts : list string) (f : job -> Q) (r : job) : Q :=
  if isin included_accts r then f r else 0%Q.

(** The sum of column [i] over the account lines of a table. *)
Definition accounts_sum (i : nat) (lines : list (list cell)) : Q :=
  sigma (map (column i) (filter account_line lines)).

(** The account groups of the rows of a category, provider after provider,
    in the order in which the loops of [get_billing_data] visit them, each
    with the key of its provider group. *)
Definition visited_groups (pgroups : list (Z * list job)) : list (Z * (string * list job)) :=
  flat_map (fun pg => map (pair (fst pg)) (groupby_acct (snd pg))) pgroups.

(** The account has a row in the table and no MACOLA number. *)
Definition lacks_macola (all_accts : list MacolaAcct) (acct_no : string) : bool :=
  match get_acct all_accts acct_no with
  | Some a => negb (Py.truthy (macola_No (ma a)))
  | None => false
  end.

(** No row of the table of providers has this primary key. *)
Definition no_provider (all_providers : list BillToProvider) (provider_id : Z) : bool :=
  match get_provider all_providers provider_id with
  | Some _ => false
  | None => true
  end.

(** The accounts of the visited groups, in visiting order. *)
Definition visited_accts (pgroups : list (Z * list job)) : list string :=
  map (fun g => fst (snd g)) (visited_groups pgroups).

(** Each account of the frame has its rows under one provider. *)
Definition one_provider_per_acct (cdf : list job) : Prop :=
  forall r1 r2, In r1 cdf -> In r2 cdf -> acct r1 = acct r2 -> provider r1 = provider r2.

(** The rows of one category of the merged frame. *)
Definition category_frame (cdf : list job) : Prop :=
  StronglySorted key_le cdf /\ forall x y, In x cdf -> In y cdf -> cat x = cat y.

(** The account lacks a MACOLA number and has a row whose provider is not
    in the table of providers. *)
Definition needs_macola (provs : list BillToProvider) (accts : list MacolaAcct)
    (cdf : list job) (a : string) : bool :=
  lacks_macola accts a
  && existsb (fun r => (acct r =? a)%string && no_provider provs (provider r)) cdf.

(** What [get_billing_data] attaches to a row of the category frame [cdf]:
    the code of its account, by the position of the account among the
    distinct accounts of the category, and the attributes of the
    category. *)
Definition numbered (w : world) (cdf : list job) (codes : list string) (d : job_dict)
  : Prop :=
  let accts := Pd.drop_duplicates String.eqb (map acct cdf) in
  In (jd_job d) cdf /\
  invoice_no_manager (jd_cat d) = codes /\
  has_providers (jd_cat d) = existsb (fun r => negb (provider r =? 0)) cdf /\
  macolas_needed (jd_cat d)
  = List.length (filter (needs_macola (BillToProvider_objects w) (MacolaAcct_objects w) cdf)
                        accts) /\
  (jd_provider d = None <-> no_provider (BillToProvider_objects w) (provider (jd_job d)) = true) /\
  exists i code,
    nth_error accts i = Some (acct (jd_job d)) /\
    nth_error codes i = Some code /\
    invoice_no_form (jd_acct d) = Some code.


(** A table of accounts whose columns carry the names that
    [MacolaRequestFormView] reads, and the clean values of a request made
    on 3 February 2020 for a customer who is no state employee. *)
Definition account_columns (a : MacolaAcct) : list (string * value) :=
  [("account_No", Str (account_No a)); ("name", Str (name a));
   ("tax_rate", Num 0.0825); ("tax_exemption", Str EmptyString);
   ("inv_addr1", Str "1 Main Street"); ("inv_addr2", Str EmptyString);
   ("inv_city", Str "Dixon"); ("inv_State", Str "IL"); ("inv_zip", Str "61021");
   ("phone", Str "555-0100"); ("fax_No", Str EmptyString); ("email", Str (email a))].

Definition request_data (field : string) : value :=
  if (field =? "req_date")%string then Date "02/03/2020"
  else if (field =? "state_employee")%string then Bool false
  else if (field =? "agency_no")%string then Int 426
  else if (field =? "fund_no")%string then Int 301
  else Str "Clerk".


(** A block of the register: the lines of the accounts of one provider
    group, then the line of subtotals of the provider when it has a row in
    the table of providers. *)
Definition block_lines (b : list (list cell) * list (list cell)) : list (list cell) :=
  (fst b ++ snd b)%list.

(** The lines of the accounts of the block all show an invoice number, and
    its line of subtotals, when there is one, repeats the sums of the
    columns of sales, tax, adjustments and total over them. *)
Definition subtotals_ok (b : list (list cell) * list (list cell)) : Prop :=
  filter account_line (fst b) = fst b /\
  (snd b = [] \/
   exists s, snd b = [s] /\ account_line s = false /\
     (column 2 s == accounts_sum 2 (fst b))%Q /\
     (column 3 s == accounts_sum 3 (fst b))%Q /\
     (column 4 s == accounts_sum 4 (fst b))%Q /\
     (column 5 s == accounts_sum 5 (fst b))%Q).

(** * Facts on strings *)

Section StringFacts.

Lemma length_append (s t : string) :
String.length (s ++ t) = (String.length s + String.length t)%nat.
Proof. induction s as [|c s IH]; simpl; [reflexivity | now rewrite IH]. Qed.

Lemma substring_all (s : string) : substring 0 (String.length s) s = s.
Proof. induction s as [|c s IH]; simpl; [reflexivity | now rewrite IH]. Qed.

Lemma substring_append_left (s t : string) :
substring 0 (String.length s) (s ++ t) = s.
Proof.
induction s as [|c s IH]; simpl.
- destruct t; reflexivity.
- now rewrite IH.
Qed.

Lemma substring_append_right (s t : string) (m : nat) :
substring (String.length s) m (s ++ t) = substring 0 m t.
Proof. induction s as [|c s IH]; simpl; [reflexivity | exact IH]. Qed.

Lemma append_inj_left (p s t : string) : p ++ s = p ++ t -> s = t.
Proof. induction p as [|c p IH]; simpl; intros H; [exact H | injection H; auto]. Qed.

Lemma prefix_append (p s : string) : String.prefix p (p ++ s) = true.
Proof.
induction p as [|c p IH]; simpl.
- destruct s; reflexivity.
- destruct (ascii_dec c c); [exact IH | congruence].
Qed.

Lemma list_ascii_append (s t : string) :
list_ascii_of_string (s ++ t) = (list_ascii_of_string s ++ list_ascii_of_string t)%list.
Proof. induction s as [|c s IH]; simpl; [reflexivity | now rewrite IH]. Qed.

Lemma list_ascii_length (s : string) :
List.length (list_ascii_of_string s) = String.length s.
Proof. induction s as [|c s IH]; simpl; [reflexivity | now rewrite IH]. Qed.

End StringFacts.

Lemma slice_to_m4_append (p s : string) :
  String.length s = 4%nat -> Py.slice_to_m4 (p ++ s) = p.
Proof.
  intros H. unfold Py.slice_to_m4. rewrite length_append, H.
  replace (String.length p + 4 - 4)%nat with (String.length p) by lia.
  apply substring_append_left.
Qed.

Lemma slice_from_m4_append (p s : string) :
  String.length s = 4%nat -> Py.slice_from_m4 (p ++ s) = s.
Proof.
  intros H. unfold Py.slice_from_m4. rewrite length_append, H.
  replace (String.length p + 4 - 4)%nat with (String.length p) by lia.
  rewrite substring_append_right, <- H. apply substring_all.
Qed.

(** * Decimal numerals *)

Lemma parse_digits_horner (l : list ascii) :
  forall acc prev, l <> [] -> forallb Py.is_digit l = true ->
  Py.parse_digits l acc prev = Some (horner l acc).
Proof.
  induction l as [|c r IH]; intros acc prev Hne Hd; [congruence|].
  simpl in Hd. apply andb_prop in Hd as [Hc Hr].
  simpl. rewrite Hc. destruct r as [|c' r'].
  - reflexivity.
  - rewrite IH; [reflexivity | discriminate | exact Hr].
Qed.

Lemma digit_not_space (c : ascii) : Py.is_digit c = true -> Py.is_space c = false.
Proof.
  unfold Py.is_digit, Py.is_space. intros H.
  apply andb_prop in H as [H1 H2].
  apply N.leb_le in H1. apply N.leb_le in H2.
  apply orb_false_iff; split; apply andb_false_iff; right; apply N.leb_gt; lia.
Qed.

Lemma drop_while_digits (l : list ascii) :
  forallb Py.is_digit l = true -> Py.drop_while Py.is_space l = l.
Proof.
  destruct l as [|c r]; simpl; [reflexivity|].
  intros H. apply andb_prop in H as [Hc _].
  now rewrite (digit_not_space c Hc).
Qed.

Lemma strip_digits (l : list ascii) :
  forallb Py.is_digit l = true -> Py.strip l = l.
Proof.
  intros H. unfold Py.strip. rewrite (drop_while_digits l H).
  rewrite drop_while_digits; [apply rev_involutive|].
  rewrite forallb_forall in *. intros x Hx. apply H. now apply in_rev.
Qed.

Lemma int_digits (s : string) :
  s <> EmptyString -> all_digits s = true ->
  Py.int s = Ok (Z.of_N (horner (list_ascii_of_string s) 0)).
Proof.
  intros Hne Hd. unfold Py.int, all_digits in *.
  rewrite (strip_digits _ Hd).
  destruct s as [|c s]; [congruence|]. simpl list_ascii_of_string in *.
  assert (Hc : Py.is_digit c = true) by (simpl in Hd; now apply andb_prop in Hd as [? _]).
  destruct c as [[] [] [] [] [] [] [] []];
    try (vm_compute in Hc; discriminate Hc); cbv beta iota;
    (rewrite parse_digits_horner; [reflexivity | discriminate | exact Hd]).
Qed.

Lemma uint_all_digits (d : Decimal.uint) :
  all_digits (NilEmpty.string_of_uint d) = true.
Proof. induction d; simpl; auto. Qed.

Lemma horner_cons (c : ascii) (l : list ascii) (acc : N) :
  horner (c :: l) acc = horner l (10 * acc + Py.digit_val c)%N.
Proof. reflexivity. Qed.

Lemma horner_app (l1 l2 : list ascii) (acc : N) :
  horner (l1 ++ l2) acc = horner l2 (horner l1 acc).
Proof. unfold horner. apply fold_left_app. Qed.

Lemma horner_uint_acc (d : Decimal.uint) :
  forall acc : positive,
  horner (list_ascii_of_string (NilEmpty.string_of_uint d)) (Npos acc)
  = Npos (Pos.of_uint_acc d acc).
Proof.
  induction d; intros acc; simpl NilEmpty.string_of_uint;
    simpl list_ascii_of_string; [reflexivity | ..];
    rewrite horner_cons; cbn [Pos.of_uint_acc]; rewrite <- IHd; f_equal;
    match goal with
    | |- context [Py.digit_val ?c] =>
        let v := eval vm_compute in (Py.digit_val c) in
        change (Py.digit_val c) with v
    end; lia.
Qed.

Lemma horner_uint (d : Decimal.uint) :
  horner (list_ascii_of_string (NilEmpty.string_of_uint d)) 0 = Pos.of_uint d.
Proof.
  induction d; simpl NilEmpty.string_of_uint; simpl list_ascii_of_string;
    [reflexivity | ..]; rewrite horner_cons; cbn [Pos.of_uint];
    try (exact IHd);
    match goal with
    | |- horner _ ?a = _ =>
        let v := eval vm_compute in a in change a with v
    end; apply horner_uint_acc.
Qed.

Lemma horner_zeros (k : nat) (l : list ascii) :
  horner (list_ascii_of_string (Py.zeros k) ++ l) 0 = horner l 0.
Proof.
  induction k as [|k IH]; [reflexivity|].
  cbn [Py.zeros list_ascii_of_string app]. rewrite horner_cons. exact IH.
Qed.

Lemma zeros_all_digits (k : nat) : all_digits (Py.zeros k) = true.
Proof. induction k; simpl; auto. Qed.

Lemma length_zeros (k : nat) : String.length (Py.zeros k) = k.
Proof. induction k; simpl; auto. Qed.

Lemma string_of_uint_nonnil (d : Decimal.uint) :
  d <> Decimal.Nil ->
  NilZero.string_of_uint d = NilEmpty.string_of_uint d /\
  NilEmpty.string_of_uint d <> EmptyString.
Proof. destruct d; intros H; try congruence; split; (reflexivity || discriminate). Qed.

(** [str] on a natural number: its decimal digits, denoting that number. *)
Lemma str_nonneg (v : Z) :
  0 <= v ->
  Py.str v <> EmptyString /\ all_digits (Py.str v) = true /\
  horner (list_ascii_of_string (Py.str v)) 0 = Z.to_N v.
Proof.
  intros Hv. unfold Py.str. destruct v as [|p|p]; [| |lia].
  - repeat split; discriminate.
  - simpl Z.to_int. unfold NilZero.string_of_int.
    destruct (string_of_uint_nonnil _ (DecimalPos.Unsigned.to_uint_nonnil p))
      as [-> Hne].
    repeat split.
    + exact Hne.
    + apply uint_all_digits.
    + rewrite horner_uint. apply DecimalPos.Unsigned.of_to.
Qed.

Lemma pad4_length (s : string) :
  String.length (Py.pad4 s) = Nat.max 4 (String.length s).
Proof. unfold Py.pad4. rewrite length_append, length_zeros. lia. Qed.

Lemma pad4_str (v : Z) :
  0 <= v ->
  Py.pad4 (Py.str v) <> EmptyString /\ all_digits (Py.pad4 (Py.str v)) = true /\
  horner (list_ascii_of_string (Py.pad4 (Py.str v))) 0 = Z.to_N v.
Proof.
  intros Hv. destruct (str_nonneg v Hv) as (Hne & Hd & Hh).
  unfold Py.pad4. repeat split.
  - intros H. apply (f_equal String.length) in H.
    rewrite length_append in H. simpl in H.
    destruct (Py.str v); [congruence | simpl in H; lia].
  - unfold all_digits in *. rewrite list_ascii_append, forallb_app.
    rewrite Hd. pose proof (zeros_all_digits (4 - String.length (Py.str v))) as Hz.
    unfold all_digits in Hz. now rewrite Hz.
  - now rewrite list_ascii_append, horner_zeros.
Qed.

(** The formatted sequence number is read back by [int]. *)
Lemma int_pad4_str (v : Z) : 0 <= v -> Py.int (Py.pad4 (Py.str v)) = Ok v.
Proof.
  intros Hv. destruct (pad4_str v Hv) as (Hne & Hd & Hh).
  rewrite int_digits by assumption. rewrite Hh. f_equal. lia.
Qed.

Lemma fmt_inj (prefix : string) (a b : Z) :
  0 <= a -> 0 <= b -> Py.fmt prefix a = Py.fmt prefix b -> a = b.
Proof.
  intros Ha Hb H. unfold Py.fmt in H. apply append_inj_left in H.
  destruct (pad4_str a Ha) as (_ & _ & Ea).
  destruct (pad4_str b Hb) as (_ & _ & Eb).
  rewrite H in Ea. rewrite Ea in Eb. lia.
Qed.

(** A run of [n] digits denotes a number below [10 ^ n]. *)
Lemma horner_bound (l : list ascii) :
  forall acc, forallb Py.is_digit l = true ->
  (horner l acc < (acc + 1) * 10 ^ N.of_nat (List.length l))%N.
Proof.
  induction l as [|c r IH]; intros acc Hd.
  - simpl. lia.
  - simpl in Hd. apply andb_prop in Hd as [Hc Hr].
    rewrite horner_cons. specialize (IH (10 * acc + Py.digit_val c)%N Hr).
    assert (Py.digit_val c <= 9)%N.
    { unfold Py.is_digit in Hc. unfold Py.digit_val.
      apply andb_prop in Hc as [H1 H2]. apply N.leb_le in H2. lia. }
    change (List.length (c :: r)) with (S (List.length r)).
    rewrite Nat2N.inj_succ, N.pow_succ_r'. nia.
Qed.

Lemma str_short_check :
  forallb (fun k => (String.length (Py.str (Z.of_nat k)) <=? 4)%nat) (seq 0 (Z.to_nat 10000)) = true.
Proof. vm_compute. reflexivity. Qed.

Lemma str_length_le4 (v : Z) :
  0 <= v -> ((String.length (Py.str v) <= 4)%nat <-> v <= 9999).
Proof.
  intros Hv. split.
  - intros Hlen. destruct (str_nonneg v Hv) as (_ & Hd & Hh).
    pose proof (horner_bound (list_ascii_of_string (Py.str v)) 0%N Hd) as Hb.
    rewrite Hh, list_ascii_length in Hb.
    assert (10 ^ N.of_nat (String.length (Py.str v)) <= 10 ^ 4)%N
      by (apply N.pow_le_mono_r; lia).
    change (10 ^ 4)%N with 10000%N in *. lia.
  - intros Hle. pose proof str_short_check as Hc.
    rewrite forallb_forall in Hc.
    specialize (Hc (Z.to_nat v)). rewrite Z2Nat.id in Hc by exact Hv.
    apply Nat.leb_le, Hc, in_seq. lia.
Qed.

Lemma fmt_length (prefix : string) (v : Z) :
  String.length prefix = 4%nat -> 0 <= v ->
  (String.length (Py.fmt prefix v) = 8%nat <-> v <= 9999).
Proof.
  intros Hp Hv. unfold Py.fmt. rewrite length_append, pad4_length, Hp.
  rewrite <- (str_length_le4 v Hv). lia.
Qed.

Lemma range_nth (a : Z) (n i : nat) :
  (i < n)%nat -> nth_error (Py.range a (a + Z.of_nat n)) i = Some (a + Z.of_nat i).
Proof.
  intros Hi. unfold Py.range.
  replace (Z.to_nat (a + Z.of_nat n - a)) with n by lia.
  rewrite nth_error_map, nth_error_nth' with (d := 0%nat) by (rewrite length_seq; lia).
  rewrite seq_nth by exact Hi. reflexivity.
Qed.

Lemma range_length (a : Z) (n : nat) :
  List.length (Py.range a (a + Z.of_nat n)) = n.
Proof.
  unfold Py.range. rewrite length_map, length_seq. lia.
Qed.

Lemma four_digits_bound (s : string) :
  String.length s = 4%nat -> all_digits s = true ->
  s <> EmptyString /\ (horner (list_ascii_of_string s) 0 <= 9999)%N.
Proof.
  intros Hl Hd. split.
  - intros ->. discriminate Hl.
  - pose proof (horner_bound _ 0%N Hd) as Hb.
    rewrite list_ascii_length, Hl in Hb. change (10 ^ N.of_nat 4)%N with 10000%N in Hb. lia.
Qed.

(** C2 (amended). For a starting code made of a 4-character prefix and a
    4-digit suffix and every count [n], the allocator returns [n] distinct
    codes; the code of rank [i] is the prefix followed by the decimal
    numeral of [start + i], padded with zeros to four characters, so the
    suffixes read [start], [start + 1], ... in turn; a code has exactly 8
    characters if and only if its number is at most 9999. *)
Theorem allocate_codes (prefix suffix : string) (n : nat) :
  String.length prefix = 4%nat ->
  String.length suffix = 4%nat ->
  all_digits suffix = true ->
  exists start codes,
    Py.int suffix = Ok start /\ 0 <= start <= 9999 /\
    allocate (prefix ++ suffix) n = Ok codes /\
    List.length codes = n /\
    NoDup codes /\
    forall i, (i < n)%nat ->
      exists digits,
        nth_error codes i = Some (prefix ++ digits) /\
        String.prefix prefix (prefix ++ digits) = true /\
        digits = Py.pad4 (Py.str (start + Z.of_nat i)) /\
        Py.int digits = Ok (start + Z.of_nat i) /\
        (String.length (prefix ++ digits) = 8%nat <-> start + Z.of_nat i <= 9999).
Proof.
  intros Hp Hs Hd.
  destruct (four_digits_bound suffix Hs Hd) as [Hne Hb].
  set (start := Z.of_N (horner (list_ascii_of_string suffix) 0)).
  assert (Hstart : 0 <= start <= 9999) by (unfold start; lia).
  exists start, (map (Py.fmt prefix) (Py.range start (start + Z.of_nat n))).
  assert (Hint : Py.int suffix = Ok start) by (now apply int_digits).
  split; [exact Hint|]. split; [exact Hstart|]. split.
  { unfold allocate. rewrite slice_from_m4_append, slice_to_m4_append by exact Hs.
    rewrite Hint. reflexivity. }
  split; [now rewrite length_map, range_length|]. split.
  { unfold Py.range. rewrite map_map.
    replace (Z.to_nat (start + Z.of_nat n - start)) with n by lia.
    apply Finite.Injective_map_NoDup_in; [|apply seq_NoDup].
    intros x y Hx Hy H. apply fmt_inj in H; lia. }
  intros i Hi. exists (Py.pad4 (Py.str (start + Z.of_nat i))).
  split; [|split; [|split; [|split]]].
  - rewrite nth_error_map, range_nth by exact Hi. reflexivity.
  - apply prefix_append.
  - reflexivity.
  - apply int_pad4_str. lia.
  - apply (fmt_length prefix); [exact Hp | lia].
Qed.

Lemma allocate_codes_witness :
  exists codes, allocate "RT015001" 3 = Ok codes /\ List.length codes = 3%nat /\ NoDup codes.
Proof.
  destruct (allocate_codes "RT01" "5001" 3 eq_refl eq_refl eq_refl)
    as (start & codes & _ & _ & Halloc & Hlen & Hnodup & _).
  exists codes. split; [exact Halloc | split; [exact Hlen | exact Hnodup]].
Defined.

(** C2 as stated fails past 9999: the second code allocated from
    "RT019999" has 9 characters. *)
Lemma allocate_past_9999 :
  allocate "RT019999" 2 = Ok ["RT019999"; "RT0110000"] /\
  String.length "RT0110000" <> 8%nat.
Proof. split; [reflexivity | discriminate]. Qed.

(** * The commit after an allocation, for codes made of digits *)

Lemma findall_digits_from_digits (l : list ascii) :
  forall cur, forallb Py.is_digit l = true ->
  Py.findall_digits_from l cur = Py.flush (rev l ++ cur).
Proof.
  induction l as [|c r IH]; intros cur Hd; [reflexivity|].
  simpl in Hd. apply andb_prop in Hd as [Hc Hr].
  simpl. rewrite Hc, (IH _ Hr), <- List.app_assoc. reflexivity.
Qed.

Lemma findall_digits_all (s : string) :
  s <> EmptyString -> all_digits s = true -> Py.findall_digits s = [s].
Proof.
  intros Hne Hd. unfold Py.findall_digits. rewrite findall_digits_from_digits by exact Hd.
  rewrite List.app_nil_r. unfold Py.flush.
  destruct (rev (list_ascii_of_string s)) eqn:E.
  - apply (f_equal (@rev ascii)) in E. rewrite rev_involutive in E. simpl in E.
    destruct s; [congruence | discriminate].
  - rewrite <- E, rev_involutive, string_of_list_ascii_of_string. reflexivity.
Qed.

Lemma ascii_compare_refl (c : ascii) : Ascii.compare c c = Eq.
Proof. unfold Ascii.compare. apply N.compare_refl. Qed.

Lemma compare_append (p s t : string) :
  String.compare (p ++ s) (p ++ t) = String.compare s t.
Proof.
  induction p as [|c p IH]; simpl; [reflexivity|].
  now rewrite ascii_compare_refl.
Qed.

Lemma padded_successor_check :
  forallb (fun k => String.ltb (Py.pad4 (Py.str (Z.of_nat k)))
                               (Py.pad4 (Py.str (Z.of_nat k + 1))))
          (seq 0 (Z.to_nat 9999)) = true.
Proof. vm_compute. reflexivity. Qed.

Lemma fmt_successor (prefix : string) (v : Z) :
  0 <= v < 9999 -> String.ltb (Py.fmt prefix v) (Py.fmt prefix (v + 1)) = true.
Proof.
  intros Hv. unfold String.ltb, Py.fmt. rewrite compare_append.
  pose proof padded_successor_check as Hc. rewrite forallb_forall in Hc.
  specialize (Hc (Z.to_nat v)). rewrite Z2Nat.id in Hc by lia.
  apply Hc, in_seq. lia.
Qed.

Lemma fold_max_increasing (f : nat -> string) (m : nat) :
  forall k,
  (forall i, (k <= i < k + m)%nat -> String.ltb (f i) (f (S i)) = true) ->
  fold_left (fun x y => if String.ltb x y then y else x) (map f (seq (S k) m)) (f k)
  = f (k + m)%nat.
Proof.
  induction m as [|m IH]; intros k Hinc.
  - simpl. f_equal. lia.
  - cbn [seq map fold_left]. rewrite (Hinc k) by lia.
    rewrite IH; [f_equal; lia|]. intros i Hi. apply Hinc. lia.
Qed.

(** [max] on a list that increases from each element to the next is its last
    element. *)
Lemma max_increasing (g : Z -> string) (a : Z) (n : nat) :
  (forall i, (i < n)%nat ->
             String.ltb (g (a + Z.of_nat i)) (g (a + Z.of_nat (S i))) = true) ->
  Py.max (map g (Py.range a (a + Z.of_nat (S n)))) = Ok (g (a + Z.of_nat n)).
Proof.
  intros Hinc. unfold Py.range.
  replace (Z.to_nat (a + Z.of_nat (S n) - a)) with (S n) by lia.
  rewrite map_map. cbn [seq map Py.max]. f_equal.
  apply (fold_max_increasing (fun i => g (a + Z.of_nat i)) n 0%nat).
  intros i Hi. apply Hinc. lia.
Qed.

Lemma fmt_all_digits (prefix : string) (v : Z) :
  all_digits prefix = true -> 0 <= v ->
  Py.fmt prefix v <> EmptyString /\ all_digits (Py.fmt prefix v) = true.
Proof.
  intros Hp Hv. destruct (pad4_str v Hv) as (Hne & Hd & _). unfold Py.fmt. split.
  - intros H. destruct prefix; simpl in H; [contradiction | discriminate].
  - unfold all_digits in *. now rewrite list_ascii_append, forallb_app, Hp, Hd.
Qed.

Lemma flat_map_findall_digits (prefix : string) (vs : list Z) :
  all_digits prefix = true -> Forall (fun v => 0 <= v) vs ->
  flat_map Py.findall_digits (map (Py.fmt prefix) vs) = map (Py.fmt prefix) vs.
Proof.
  intros Hp. induction 1 as [|v r Hv _ IH]; [reflexivity|].
  cbn [map flat_map]. rewrite IH.
  destruct (fmt_all_digits prefix v Hp Hv) as [Hne Hd].
  now rewrite (findall_digits_all _ Hne Hd).
Qed.

Lemma map_snd_combine {A B : Type} (xs : list A) (ys : list B) :
  List.length xs = List.length ys -> map snd (combine xs ys) = ys.
Proof.
  revert ys. induction xs as [|x r IH]; intros [|y ys] H; try discriminate; [reflexivity|].
  simpl. f_equal. apply IH. now injection H.
Qed.

(** For a starting code of 8 digits, as the period form documents it, and
    [n >= 1] accounts whose codes all stay within four digits, the commit
    step run on the codes the allocator proposed computes the prefix
    followed by the next sequence number. *)
Lemma next_start_after_allocate (prefix suffix : string) (accts : list string) :
  String.length prefix = 4%nat -> String.length suffix = 4%nat ->
  all_digits prefix = true -> all_digits suffix = true ->
  accts <> [] ->
  exists start codes,
    Py.int suffix = Ok start /\
    allocate (prefix ++ suffix) (List.length accts) = Ok codes /\
    (start + Z.of_nat (List.length accts) - 1 <= 9999 ->
     next_invoice_start (combine accts codes)
     = Ok (Py.fmt prefix (start + Z.of_nat (List.length accts)))).
Proof.
  intros Hp Hs Hdp Hds Hne.
  destruct (allocate_codes prefix suffix (List.length accts) Hp Hs Hds)
    as (start & codes & Hint & Hstart & Halloc & Hlen & _ & _).
  exists start, codes. split; [exact Hint|]. split; [exact Halloc|].
  intros Hmax. unfold allocate in Halloc.
  rewrite slice_from_m4_append, slice_to_m4_append, Hint in Halloc by exact Hs.
  simpl in Halloc. injection Halloc as <-.
  unfold next_invoice_start.
  rewrite map_snd_combine by (now rewrite Hlen).
  rewrite flat_map_findall_digits.
  2: exact Hdp.
  2:{ unfold Py.range. rewrite Forall_forall. intros v Hv.
      apply in_map_iff in Hv as (i & <- & _). lia. }
  destruct accts as [|a0 rest]; [congruence|].
  set (n := List.length rest). change (List.length (a0 :: rest)) with (S n) in *.
  rewrite (max_increasing (Py.fmt prefix) start n).
  2:{ intros i Hi. replace (start + Z.of_nat (S i)) with (start + Z.of_nat i + 1) by lia.
      apply fmt_successor. lia. }
  cbn [bind].
  change (Py.fmt prefix (start + Z.of_nat n))
    with (prefix ++ Py.pad4 (Py.str (start + Z.of_nat n))).
  assert (Hl : String.length (Py.pad4 (Py.str (start + Z.of_nat n))) = 4%nat).
  { rewrite pad4_length.
    assert ((String.length (Py.str (start + Z.of_nat n)) <= 4)%nat)
      by (apply str_length_le4; lia).
    lia. }
  rewrite slice_from_m4_append, slice_to_m4_append by exact Hl.
  rewrite int_pad4_str by lia. cbn [bind]. do 2 f_equal. lia.
Qed.

(** * Facts on comparisons *)

Section OrderFacts.

Context {K : Type} (cmp : K -> K -> comparison) (laws : order_laws cmp).

Lemma cmp_refl (x : K) : cmp x x = Eq.
Proof. now apply (cmp_eq_iff cmp laws). Qed.

Lemma cmp_gt_lt (x y : K) : cmp x y = Gt -> cmp y x = Lt.
Proof. intros H. rewrite (cmp_antisym cmp laws x y), H. reflexivity. Qed.

Lemma cmp_lt_gt (x y : K) : cmp x y = Lt -> cmp y x = Gt.
Proof. intros H. rewrite (cmp_antisym cmp laws x y), H. reflexivity. Qed.

Lemma leb_of_total (x y : K) : leb_of cmp x y = false -> leb_of cmp y x = true.
Proof.
  unfold leb_of. destruct (cmp x y) eqn:E; try discriminate.
  intros _. now rewrite (cmp_gt_lt x y E).
Qed.

Lemma leb_of_refl (x : K) : leb_of cmp x x = true.
Proof. unfold leb_of. now rewrite cmp_refl. Qed.

Lemma leb_of_trans (x y z : K) :
  leb_of cmp x y = true -> leb_of cmp y z = true -> leb_of cmp x z = true.
Proof.
  unfold leb_of. destruct (cmp x y) eqn:Exy; try discriminate; intros _.
  - apply (cmp_eq_iff cmp laws) in Exy. now subst y.
  - destruct (cmp y z) eqn:Eyz; try discriminate; intros _.
    + apply (cmp_eq_iff cmp laws) in Eyz. subst z. now rewrite Exy.
    + now rewrite (cmp_lt_trans cmp laws x y z Exy Eyz).
Qed.

Lemma leb_of_antisym (x y : K) :
  leb_of cmp x y = true -> leb_of cmp y x = true -> x = y.
Proof.
  unfold leb_of. destruct (cmp x y) eqn:Exy; try discriminate; intros _.
  - intros _. now apply (cmp_eq_iff cmp laws).
  - now rewrite (cmp_lt_gt x y Exy).
Qed.

End OrderFacts.

Lemma lex_pair_laws {A B : Type} (cmpA : A -> A -> comparison)
    (cmpB : B -> B -> comparison) :
  order_laws cmpA -> order_laws cmpB -> order_laws (lex_pair cmpA cmpB).
Proof.
  intros LA LB. split.
  - intros [a1 b1] [a2 b2]. unfold lex_pair, lex. simpl. split.
    + destruct (cmpA a1 a2) eqn:EA; try discriminate. intros EB.
      apply (cmp_eq_iff cmpA LA) in EA. apply (cmp_eq_iff cmpB LB) in EB. congruence.
    + intros H. injection H as -> ->.
      now rewrite (cmp_refl cmpA LA), (cmp_refl cmpB LB).
  - intros [a1 b1] [a2 b2]. unfold lex_pair, lex. simpl.
    rewrite (cmp_antisym cmpA LA a1 a2), (cmp_antisym cmpB LB b1 b2).
    destruct (cmpA a1 a2); reflexivity.
  - intros [a1 b1] [a2 b2] [a3 b3]. unfold lex_pair, lex. simpl.
    destruct (cmpA a1 a2) eqn:E12; try discriminate.
    + apply (cmp_eq_iff cmpA LA) in E12. subst a2.
      destruct (cmpA a1 a3) eqn:E13; try discriminate; auto.
      apply (cmp_lt_trans cmpB LB).
    + intros _. destruct (cmpA a2 a3) eqn:E23; try discriminate.
      * apply (cmp_eq_iff cmpA LA) in E23. subst a3. now rewrite E12.
      * now rewrite (cmp_lt_trans cmpA LA a1 a2 a3 E12 E23).
Qed.

Lemma Z_compare_laws : order_laws Z.compare.
Proof.
  split.
  - apply Z.compare_eq_iff.
  - intros x y. apply Z.compare_antisym.
  - intros x y z. rewrite !Z.compare_lt_iff. lia.
Qed.

Lemma string_compare_laws : order_laws String.compare.
Proof.
  split.
  - apply OrderedTypeEx.String_as_OT.cmp_eq.
  - intros x y. apply OrderedTypeEx.String_as_OT.cmp_antisym.
  - intros x y z H1 H2.
    apply OrderedTypeEx.String_as_OT.cmp_lt in H1, H2.
    apply OrderedTypeEx.String_as_OT.cmp_lt.
    eapply OrderedTypeEx.String_as_OT.lt_trans; eassumption.
Qed.

Lemma key_compare_laws : order_laws key_compare.
Proof.
  unfold key_compare.
  repeat apply lex_pair_laws;
    (exact Z_compare_laws || exact string_compare_laws).
Qed.

Lemma sort_key_compare_key (r1 r2 : job) :
  sort_key_compare r1 r2 = key_compare (sort_key r1) (sort_key r2).
Proof. reflexivity. Qed.

Lemma sort_key_leb_key (r1 r2 : job) :
  sort_key_leb r1 r2 = leb_of key_compare (sort_key r1) (sort_key r2).
Proof. reflexivity. Qed.

Lemma string_leb_of (s t : string) : String.leb s t = leb_of String.compare s t.
Proof. reflexivity. Qed.

Lemma Z_leb_of (a b : Z) : (a <=? b) = leb_of Z.compare a b.
Proof. reflexivity. Qed.

(** * Facts on the frame operations *)

Section SortFacts.

Context {A : Type} (leb : A -> A -> bool).

Let le (x y : A) : Prop := leb x y = true.

Lemma insert_perm (x : A) (l : list A) : Permutation (x :: l) (Pd.insert leb x l).
Proof.
  induction l as [|y r IH]; simpl; [apply Permutation_refl|].
  destruct (leb x y); [apply Permutation_refl|].
  eapply perm_trans; [apply perm_swap | apply perm_skip, IH].
Qed.

Lemma sort_perm (l : list A) : Permutation l (Pd.sort leb l).
Proof.
  induction l as [|x r IH]; simpl; [constructor|].
  eapply perm_trans; [apply perm_skip, IH | apply insert_perm].
Qed.

Lemma sort_in (x : A) (l : list A) : In x (Pd.sort leb l) <-> In x l.
Proof.
  split; apply Permutation_in; [apply Permutation_sym|]; apply sort_perm.
Qed.

Lemma sort_length (l : list A) : List.length (Pd.sort leb l) = List.length l.
Proof. symmetry. apply Permutation_length, sort_perm. Qed.

Hypothesis leb_total : forall x y, leb x y = false -> leb y x = true.
Hypothesis leb_trans : forall x y z, le x y -> le y z -> le x z.

Lemma insert_sorted (x : A) (l : list A) :
  StronglySorted le l -> StronglySorted le (Pd.insert leb x l).
Proof.
  induction 1 as [|y r Hr IH Hy]; simpl.
  - constructor; constructor.
  - destruct (leb x y) eqn:E.
    + constructor; [constructor; assumption|].
      constructor; [exact E|].
      rewrite Forall_forall in *. intros z Hz. eapply leb_trans; [exact E | auto].
    + constructor; [exact IH|].
      rewrite Forall_forall in *. intros z Hz.
      apply (Permutation_in _ (Permutation_sym (insert_perm x r))) in Hz.
      destruct Hz as [<- | Hz]; [now apply leb_total | auto].
Qed.

Lemma sort_sorted (l : list A) : StronglySorted le (Pd.sort leb l).
Proof.
  induction l as [|x r IH]; simpl; [constructor | now apply insert_sorted].
Qed.

Lemma insert_below (x : A) (l : list A) :
  Forall (le x) l -> Pd.insert leb x l = x :: l.
Proof.
  destruct l as [|y r]; [reflexivity|].
  intros H. inversion H as [|? ? Hy _]; subst. simpl.
  unfold le in Hy. now rewrite Hy.
Qed.

Lemma sort_sorted_id (l : list A) : StronglySorted le l -> Pd.sort leb l = l.
Proof.
  induction 1 as [|x r Hr IH Hx]; simpl; [reflexivity|].
  rewrite IH. now apply insert_below.
Qed.

End SortFacts.

Section StableFacts.

Context {A : Type} (leb : A -> A -> bool) (p : A -> bool).

(** The rows selected by [p] are never strictly one above the other. *)
Hypothesis tied : forall x y, p x = true -> p y = true -> leb x y = true.

Lemma insert_filter (x : A) (l : list A) :
  filter p (Pd.insert leb x l) = filter p (x :: l).
Proof.
  induction l as [|y r IH]; [reflexivity|].
  cbn [Pd.insert]. destruct (leb x y) eqn:E; [reflexivity|].
  cbn [filter] in *. rewrite IH.
  destruct (p x) eqn:Px; [|reflexivity].
  destruct (p y) eqn:Py; [|reflexivity].
  rewrite (tied x y Px Py) in E. discriminate.
Qed.

Lemma sort_stable (l : list A) : filter p (Pd.sort leb l) = filter p l.
Proof.
  induction l as [|x r IH]; [reflexivity|].
  cbn [Pd.sort]. rewrite insert_filter. cbn [filter]. now rewrite IH.
Qed.

End StableFacts.

Section SelectFacts.

Context {A : Type}.

Lemma select_all (df : list A) :
  Pd.select df (repeat true (List.length df)) = df.
Proof. induction df as [|x r IH]; simpl; [reflexivity | now rewrite IH]. Qed.

Lemma select_subseq (df : list A) :
  forall mask, Subseq (Pd.select df mask) df.
Proof.
  induction df as [|x r IH]; intros mask.
  - destruct mask; constructor.
  - destruct mask as [|b mask]; simpl.
    + apply Subseq_skip. specialize (IH []). now destruct r.
    + destruct b; [apply Subseq_keep | apply Subseq_skip]; apply IH.
Qed.

Lemma select_filter (df : list A) :
  forall mask, List.length mask = List.length df ->
  Pd.select df mask = map fst (filter snd (combine df mask)).
Proof.
  induction df as [|x r IH]; intros [|b mask] H; try discriminate; [reflexivity|].
  simpl. injection H as H. rewrite (IH mask H). now destruct b.
Qed.

Lemma Subseq_refl (l : list A) : Subseq l l.
Proof. induction l; constructor; assumption. Qed.

Lemma Subseq_nil_l (l : list A) : Subseq [] l.
Proof. induction l; constructor; assumption. Qed.

Lemma Subseq_in (l1 l2 : list A) : Subseq l1 l2 -> forall x, In x l1 -> In x l2.
Proof.
  induction 1 as [|y l1 l2 _ IH|y l1 l2 _ IH]; intros x Hx; simpl in *; auto.
  destruct Hx; auto.
Qed.

Lemma Subseq_length (l1 l2 : list A) :
  Subseq l1 l2 -> (List.length l1 <= List.length l2)%nat.
Proof. induction 1; simpl; lia. Qed.

End SelectFacts.

(** * Loops *)

Section ForEach.

Context {A S : Type} (body : S -> A -> result S).

(** A property of the state kept by every iteration that returns holds
    when the loop returns. *)
Lemma for_each_invariant (P : S -> Prop) (xs : list A) :
  (forall s x s', In x xs -> P s -> body s x = Ok s' -> P s') ->
  forall s s', P s -> for_each xs body s = Ok s' -> P s'.
Proof.
  induction xs as [|x rest IH]; intros Hstep s s' Hs Hrun; simpl in Hrun.
  - now injection Hrun as <-.
  - destruct (body s x) as [s1|e] eqn:E; simpl in Hrun; [|discriminate].
    apply (IH (fun s0 y s0' Hy => Hstep s0 y s0' (or_intror Hy)) s1 s');
      [|exact Hrun].
    apply (Hstep s x s1); [now left | exact Hs | exact E].
Qed.

Lemma for_each_cons (x : A) (rest : list A) (s : S) :
  for_each (x :: rest) body s = (s' <- body s x ;; for_each rest body s').
Proof. reflexivity. Qed.

Lemma for_each_app (xs ys : list A) (s : S) :
  for_each (xs ++ ys) body s = (s' <- for_each xs body s ;; for_each ys body s').
Proof.
  revert s. induction xs as [|x rest IH]; intros s; simpl; [reflexivity|].
  destruct (body s x); simpl; [apply IH | reflexivity].
Qed.

End ForEach.

(** * Inclusion filter *)

Lemma getitem_rows {A : Type} (df : list A) (mask : list bool) (selected : Pd.frame A) :
  Pd.getitem df mask = Ok selected ->
  Pd.rows_of selected = Pd.select df mask /\
  (mask <> [] -> List.length mask = List.length df /\
                 selected = Pd.Frame (Pd.select df mask)).
Proof.
  unfold Pd.getitem. destruct mask as [|b mask].
  - intros H. injection H as <-. split; [now destruct df | congruence].
  - destruct (List.length (b :: mask) =? List.length df)%nat eqn:E; [|discriminate].
    intros H. injection H as <-. apply Nat.eqb_eq in E.
    split; [reflexivity | intros _; split; [exact E | reflexivity]].
Qed.

Lemma all_true_repeat (mask : list bool) :
  Forall (eq true) mask -> mask = repeat true (List.length mask).
Proof. induction 1 as [|b r <- _ IH]; simpl; [reflexivity | now rewrite <- IH]. Qed.

(** What the loop of [post] adds to the mask. *)
Lemma post_body_mask (rq : request) (st st' : list bool * adjustments_dict * invoice_nos_dict)
    (p : string * string) :
  post_body rq st p = Ok st' ->
  exists flags,
    include_formset rq (fst p) = Valid flags /\ non_empty flags <> [] /\
    fst (fst st') = (fst (fst st) ++ non_empty flags)%list.
Proof.
  destruct p as [acct_no invoice_no]. destruct st as [[mask adjs] nos].
  unfold post_body, validate_field, validate_form, tolist. simpl fst.
  destruct (include_formset rq acct_no) as [|flags]; simpl; [discriminate|].
  destruct (non_empty flags) as [|f fs] eqn:E; simpl; [discriminate|].
  intros H. injection H as <-. exists flags. rewrite E. simpl.
  repeat split; congruence.
Qed.

Lemma post_loop_mask (rq : request) (ps : list (string * string)) :
  forall st st',
  for_each ps (post_body rq) st = Ok st' ->
  (forall a flags, include_formset rq a = Valid flags ->
                   Forall (eq true) (non_empty flags)) ->
  Forall (eq true) (fst (fst st)) ->
  Forall (eq true) (fst (fst st')) /\
  (ps <> [] -> fst (fst st') <> []).
Proof.
  induction ps as [|p rest IH]; intros st st' Hrun Hflags Hst.
  - simpl in Hrun. injection Hrun as <-. split; [exact Hst | congruence].
  - rewrite for_each_cons in Hrun.
    destruct (post_body rq st p) as [st1|e] eqn:E; simpl in Hrun; [|discriminate].
    destruct (post_body_mask rq st st1 p E) as (flags & Hv & Hne & Hm).
    assert (H1 : Forall (eq true) (fst (fst st1))).
    { rewrite Hm. apply Forall_app. split; [exact Hst | now apply (Hflags (fst p))]. }
    destruct (IH st1 st' Hrun Hflags H1) as [Hall Hgrow].
    split; [exact Hall|]. intros _.
    destruct rest as [|q rest'].
    + simpl in Hrun. injection Hrun as <-. rewrite Hm.
      destruct (fst (fst st)); [exact Hne | discriminate].
    + apply Hgrow. discriminate.
Qed.

Lemma drop_duplicates_from_nonempty {A : Type} (eqb : A -> A -> bool) (x : A) (l : list A) :
  Pd.drop_duplicates eqb (x :: l) <> [].
Proof. unfold Pd.drop_duplicates. simpl. discriminate. Qed.

(** C8. The inclusion filter [billing_data[include_job_mask]] of [post]:
    with every flag true it returns the rows of the data set unchanged, in
    the same order (and the frame itself when it has a row); for any flag
    vector the rows it returns are the rows of the data set whose flag is
    true, in their original relative order. The same holds for the frame
    that [post] hands to the generating method: its rows are rows of the
    category in the snapshot, in snapshot order, and all of them when every
    submitted flag is true. *)
Theorem inclusion_filter_preserves_order (billing_data : list job) :
  (exists selected,
     Pd.getitem billing_data (repeat true (List.length billing_data)) = Ok selected /\
     Pd.rows_of selected = billing_data /\
     (billing_data <> [] -> selected = Pd.Frame billing_data)) /\
  (forall mask selected,
     Pd.getitem billing_data mask = Ok selected ->
     Subseq (Pd.rows_of selected) billing_data /\
     (mask <> [] ->
      Pd.rows_of selected = map fst (filter snd (combine billing_data mask)))) /\
  (forall rq w savepath_clean_data selected adjustments invoice_nos,
     hdf_store w = Some billing_data ->
     post_arguments rq w
       = Ok (Some (savepath_clean_data, selected, adjustments, invoice_nos)) ->
     let category := filter (fun r => cat r =? cat_id rq) billing_data in
     Subseq (Pd.rows_of selected) category /\
     ((forall a flags, include_formset rq a = Valid flags ->
                       Forall (eq true) (non_empty flags)) ->
      Pd.rows_of selected = category)).
Proof.
  split; [|split].
  - destruct billing_data as [|x r] eqn:E.
    + exists Pd.NoColumns. repeat split. congruence.
    + rewrite <- E. exists (Pd.Frame billing_data).
      assert (Hg : Pd.getitem billing_data (repeat true (List.length billing_data))
                   = Ok (Pd.Frame billing_data)).
      { unfold Pd.getitem. rewrite repeat_length, Nat.eqb_refl, select_all.
        rewrite E. reflexivity. }
      repeat split; auto.
  - intros mask selected H. apply getitem_rows in H as [Hr Hm].
    rewrite Hr. split; [apply select_subseq|].
    intros Hne. destruct (Hm Hne) as [Hl _]. now apply select_filter.
  - intros rq w sp selected adjs nos Hstore Hargs category.
    unfold post_arguments in Hargs.
    destruct (tolist (validate_field (inv_formset rq))) as [invoice_no_list|e] eqn:Einv;
      simpl in Hargs; [|discriminate].
    destruct (savepath_form rq) as [|sp']; [discriminate|].
    unfold get_cached_data in Hargs. rewrite Hstore in Hargs. simpl in Hargs.
    fold category in Hargs.
    destruct (for_each _ (post_body rq) ([], [], [])) as [[[mask adjs'] nos']|e] eqn:Eloop;
      simpl in Hargs; [|discriminate].
    destruct (Pd.getitem category mask) as [sel|e] eqn:Eget; simpl in Hargs; [|discriminate].
    injection Hargs as -> -> -> ->.
    destruct (getitem_rows _ _ _ Eget) as [Hr Hm]. rewrite Hr.
    split; [apply select_subseq|]. intros Hflags.
    destruct (post_loop_mask rq _ _ _ Eloop Hflags (Forall_nil _)) as [Hall Hgrow].
    simpl in Hall, Hgrow.
    destruct category as [|x r] eqn:Ecat; [now destruct mask|].
    assert (Hne : mask <> []).
    { apply Hgrow. unfold validate_field, validate_form, tolist in Einv.
      destruct (inv_formset rq) as [|cd]; [discriminate|].
      destruct (non_empty cd) as [|n ns]; [discriminate|].
      injection Einv as <-. simpl map.
      pose proof (drop_duplicates_from_nonempty String.eqb (acct x) (map acct r)) as Hd.
      destruct (Pd.drop_duplicates String.eqb (acct x :: map acct r)); [congruence|].
      discriminate. }
    destruct (Hm Hne) as [Hlen _].
    rewrite (all_true_repeat mask Hall), Hlen. apply select_all.
Qed.

Lemma inclusion_filter_preserves_order_witness :
  Subseq [derive (job_row "1001" 1 "01/05/2020" "Doe, Jane" 100, reference_row "1001")]
         (map derive (merge two_jobs [reference_row "1001"])).
Proof.
  exact (proj1 (proj1 (proj2 (inclusion_filter_preserves_order
                                (map derive (merge two_jobs [reference_row "1001"]))))
                 [true; false]
                 (Pd.Frame [derive (job_row "1001" 1 "01/05/2020" "Doe, Jane" 100,
                                    reference_row "1001")])
                 eq_refl)).
Defined.

(** * Facts on [drop_duplicates] and [groupby] *)

Section GroupFacts.

Context {A K : Type} (eqb : K -> K -> bool) (cmp : K -> K -> comparison).
Context (laws : order_laws cmp).
Context (eqb_eq : forall x y, eqb x y = true <-> x = y).
Context (key : A -> K).

Let leb := leb_of cmp.
Let key_sorted := StronglySorted (fun x y : A => leb (key x) (key y) = true).

Lemma existsb_eqb_in (x : K) (seen : list K) :
  existsb (eqb x) seen = true <-> In x seen.
Proof.
  rewrite existsb_exists. split.
  - intros (y & Hy & E). apply eqb_eq in E. now subst.
  - intros H. exists x. split; [exact H | now apply eqb_eq].
Qed.

Lemma drop_duplicates_from_in (l : list K) :
  forall seen x,
  In x (Pd.drop_duplicates_from eqb seen l) <-> In x l /\ ~ In x seen.
Proof.
  induction l as [|y r IH]; intros seen x; simpl; [tauto|].
  destruct (existsb (eqb y) seen) eqn:E.
  - rewrite IH. apply existsb_eqb_in in E. split; [tauto|].
    intros [[<- | H] Hn]; tauto.
  - assert (Hy : ~ In y seen).
    { intros H. apply existsb_eqb_in in H. congruence. }
    simpl. rewrite IH. simpl. split.
    + intros [<- | [H Hn]]; [tauto|]. split; [tauto|]. intros Hs. apply Hn. now right.
    + intros [[<- | H] Hn]; [now left|].
      destruct (eqb y x) eqn:Eyx.
      * apply eqb_eq in Eyx. now left.
      * right. split; [exact H|]. intros [<- | Hs]; [|tauto].
        assert (eqb y y = true) by now apply eqb_eq. congruence.
Qed.

Lemma drop_duplicates_from_nodup (l : list K) :
  forall seen, NoDup (Pd.drop_duplicates_from eqb seen l).
Proof.
  induction l as [|y r IH]; intros seen; simpl; [constructor|].
  destruct (existsb (eqb y) seen); [apply IH|].
  constructor; [|apply IH].
  rewrite drop_duplicates_from_in. simpl. tauto.
Qed.

Lemma drop_duplicates_in (l : list K) (x : K) :
  In x (Pd.drop_duplicates eqb l) <-> In x l.
Proof. unfold Pd.drop_duplicates. rewrite drop_duplicates_from_in. simpl. tauto. Qed.

Lemma drop_duplicates_nodup (l : list K) : NoDup (Pd.drop_duplicates eqb l).
Proof. apply drop_duplicates_from_nodup. Qed.

Lemma groupby_eq (df : list A) :
  Pd.groupby eqb leb key df
  = map (fun k => (k, filter (fun r => eqb (key r) k) df)) (group_keys eqb leb key df).
Proof. reflexivity. Qed.

Lemma group_keys_in (df : list A) (k : K) :
  In k (group_keys eqb leb key df) <-> exists x, In x df /\ key x = k.
Proof.
  unfold group_keys. rewrite sort_in, drop_duplicates_in, in_map_iff.
  split; intros (x & H1 & H2); exists x; tauto.
Qed.

Lemma strictly_sorted (ks : list K) :
  NoDup ks -> StronglySorted (fun x y => leb x y = true) ks ->
  StronglySorted (fun x y => cmp x y = Lt) ks.
Proof.
  induction 1 as [|k r Hk Hr IH]; intros Hs; [constructor|].
  inversion Hs as [|? ? Hs' Hall]; subst. constructor; [auto|].
  rewrite Forall_forall in *. intros y Hy. specialize (Hall y Hy).
  unfold leb, leb_of in Hall. destruct (cmp k y) eqn:E; try discriminate; [|reflexivity].
  apply (cmp_eq_iff cmp laws) in E. subst. contradiction.
Qed.

Lemma group_keys_sorted (df : list A) :
  StronglySorted (fun x y => cmp x y = Lt) (group_keys eqb leb key df).
Proof.
  apply strictly_sorted.
  - eapply Permutation_NoDup; [apply sort_perm | apply drop_duplicates_nodup].
  - apply sort_sorted.
    + apply (leb_of_total cmp laws).
    + apply (leb_of_trans cmp laws).
Qed.

Lemma groupby_in (df : list A) (k : K) (g : list A) :
  In (k, g) (Pd.groupby eqb leb key df) ->
  g = filter (fun r => eqb (key r) k) df /\ exists x, In x g /\ key x = k.
Proof.
  rewrite groupby_eq, in_map_iff. intros (k' & E & Hin).
  injection E as -> <-. split; [reflexivity|].
  apply group_keys_in in Hin as (x & Hx & Hk). exists x. split; [|exact Hk].
  apply filter_In. split; [exact Hx | now apply eqb_eq].
Qed.

Lemma filter_sorted (R : A -> A -> Prop) (p : A -> bool) (l : list A) :
  StronglySorted R l -> StronglySorted R (filter p l).
Proof.
  induction 1 as [|x r Hr IH Hx]; simpl; [constructor|].
  destruct (p x); [|exact IH]. constructor; [exact IH|].
  rewrite Forall_forall in *. intros y Hy. apply Hx.
  now apply filter_In in Hy.
Qed.

Lemma filter_none (p : A -> bool) (l : list A) :
  (forall x, In x l -> p x = false) -> filter p l = [].
Proof.
  induction l as [|x r IH]; intros H; simpl; [reflexivity|].
  rewrite (H x (or_introl eq_refl)). apply IH. intros y Hy. apply H. now right.
Qed.

Lemma filter_every (p : A -> bool) (l : list A) :
  (forall x, In x l -> p x = true) -> filter p l = l.
Proof.
  induction l as [|x r IH]; intros H; simpl; [reflexivity|].
  rewrite (H x (or_introl eq_refl)). f_equal. apply IH. intros y Hy. apply H. now right.
Qed.

(** In a frame sorted by key, the rows of the least key come first. *)
Lemma split_low (k : K) (df : list A) :
  key_sorted df ->
  (forall x, In x df -> leb k (key x) = true) ->
  df = (filter (fun r => eqb (key r) k) df
        ++ filter (fun r => negb (eqb (key r) k)) df)%list.
Proof.
  induction 1 as [|x r Hr IH Hx]; intros Hlow; [reflexivity|].
  cbn [filter]. destruct (eqb (key x) k) eqn:E; cbn [negb].
  - cbn [app]. f_equal. apply IH. intros y Hy. apply Hlow. now right.
  - assert (Hnone : forall y, In y r -> eqb (key y) k = false).
    { intros y Hy. destruct (eqb (key y) k) eqn:Ey; [|reflexivity].
      apply eqb_eq in Ey. rewrite Forall_forall in Hx. specialize (Hx y Hy).
      rewrite Ey in Hx.
      assert (key x = k).
      { apply (leb_of_antisym cmp laws); [exact Hx|].
        apply Hlow. now left. }
      apply eqb_eq in H. congruence. }
    rewrite (filter_none _ r Hnone). cbn [app]. f_equal.
    symmetry. apply filter_every. intros y Hy. now rewrite (Hnone y Hy).
Qed.

Lemma concat_filters (ks : list K) :
  StronglySorted (fun x y => cmp x y = Lt) ks ->
  forall df, key_sorted df ->
  (forall x, In x df -> In (key x) ks) ->
  List.concat (map (fun k => filter (fun r => eqb (key r) k) df) ks) = df.
Proof.
  induction 1 as [|k ks' Hks IH Hk]; intros df Hdf Hin.
  - destruct df as [|x r]; [reflexivity|]. destruct (Hin x (or_introl eq_refl)).
  - cbn [map List.concat]. rewrite Forall_forall in Hk.
    assert (Hlow : forall x, In x df -> leb k (key x) = true).
    { intros x Hx. destruct (Hin x Hx) as [<- | Hk'].
      - apply (leb_of_refl cmp laws).
      - unfold leb, leb_of. now rewrite (Hk _ Hk'). }
    etransitivity; [|symmetry; exact (split_low k df Hdf Hlow)].
    f_equal.
    rewrite <- (IH (filter (fun r => negb (eqb (key r) k)) df)).
    + f_equal. apply map_ext_in. intros k' Hk'.
      assert (Hne : eqb k' k = false).
      { destruct (eqb k' k) eqn:E; [|reflexivity]. apply eqb_eq in E. subst k'.
        specialize (Hk k Hk'). rewrite (cmp_refl cmp laws) in Hk. discriminate. }
      clear -Hne eqb_eq. induction df as [|x r IHr]; [reflexivity|].
      cbn [filter]. destruct (eqb (key x) k) eqn:E; cbn [negb filter].
      * apply eqb_eq in E. rewrite E.
        assert (eqb k k' = false).
        { destruct (eqb k k') eqn:E'; [|reflexivity]. apply eqb_eq in E'. subst k'.
        assert (eqb k k = true) by now apply eqb_eq. congruence. }
        rewrite H. exact IHr.
      * destruct (eqb (key x) k'); [f_equal|]; exact IHr.
    + now apply filter_sorted.
    + intros x Hx. apply filter_In in Hx as [Hx Hne].
      destruct (Hin x Hx) as [E | H]; [|exact H].
      assert (Hk' : eqb (key x) k = true) by (apply eqb_eq; congruence).
      rewrite Hk' in Hne. discriminate.
Qed.

(** Grouping a frame sorted by the key and reading the groups in turn
    gives the frame back. *)
Lemma concat_groupby (df : list A) :
  key_sorted df -> List.concat (map snd (Pd.groupby eqb leb key df)) = df.
Proof.
  intros Hdf. rewrite groupby_eq, map_map. cbn [snd].
  apply concat_filters; [apply group_keys_sorted | exact Hdf |].
  intros x Hx. apply group_keys_in. now exists x.
Qed.

End GroupFacts.

(** * The order of the merged frame *)

Lemma sort_key_leb_total (x y : job) :
  sort_key_leb x y = false -> sort_key_leb y x = true.
Proof. rewrite !sort_key_leb_key. apply (leb_of_total _ key_compare_laws). Qed.

Lemma sort_key_leb_trans (x y z : job) : key_le x y -> key_le y z -> key_le x z.
Proof.
  unfold key_le. rewrite !sort_key_leb_key. apply (leb_of_trans _ key_compare_laws).
Qed.

Lemma same_key_eq (r1 r2 : job) : same_key r1 r2 = true <-> sort_key r1 = sort_key r2.
Proof.
  unfold same_key. rewrite sort_key_compare_key.
  rewrite <- (cmp_eq_iff _ key_compare_laws).
  destruct (key_compare (sort_key r1) (sort_key r2)); split; congruence.
Qed.

Lemma merged_frame_sorted (v : list vistar_row) (m : list macola_row) :
  StronglySorted key_le (merged_frame v m).
Proof.
  unfold merged_frame, sort_values.
  apply sort_sorted; [exact sort_key_leb_total | exact sort_key_leb_trans].
Qed.

Lemma merged_frame_perm (v : list vistar_row) (m : list macola_row) :
  Permutation (map derive (merge v m)) (merged_frame v m).
Proof. apply sort_perm. Qed.

Lemma merged_frame_stable (v : list vistar_row) (m : list macola_row) (r : job) :
  filter (same_key r) (merged_frame v m) = filter (same_key r) (map derive (merge v m)).
Proof.
  apply sort_stable. intros x y Hx Hy.
  apply same_key_eq in Hx, Hy. rewrite sort_key_leb_key, <- Hx, Hy.
  apply (leb_of_refl _ key_compare_laws).
Qed.

(** The order of the sort keys, spelled out. *)
Lemma key_le_spec (r1 r2 : job) :
  key_le r1 r2 <->
  cat r1 < cat r2 \/
  (cat r1 = cat r2 /\
   (provider r1 < provider r2 \/
    (provider r1 = provider r2 /\
     (str_lt (acct r1) (acct r2) \/
      (acct r1 = acct r2 /\
       (str_lt (ship_date r1) (ship_date r2) \/
        (ship_date r1 = ship_date r2 /\
         String.leb (patient_name r1) (patient_name r2) = true))))))).
Proof.
  unfold key_le, sort_key_leb, sort_key_compare, lex, str_lt, String.leb.
  destruct (Z.compare_spec (cat r1) (cat r2)) as [Ec|Ec|Ec];
    [|split; [intros _; now left | reflexivity]
     |split; [discriminate | intros [H | [H _]]; lia]].
  destruct (Z.compare_spec (provider r1) (provider r2)) as [Ep|Ep|Ep];
    [|split; [intros _; right; split; [exact Ec | now left] | reflexivity]
     |split; [discriminate | intros [H | [_ [H | [H _]]]]; lia]].
  pose proof (cmp_eq_iff _ string_compare_laws (acct r1) (acct r2)) as Ha.
  pose proof (cmp_eq_iff _ string_compare_laws (ship_date r1) (ship_date r2)) as Hs.
  destruct (String.compare (acct r1) (acct r2)) eqn:Ea.
  - destruct (String.compare (ship_date r1) (ship_date r2)) eqn:Es.
    + split.
      * intros H. right. split; [exact Ec|]. right. split; [exact Ep|].
        right. split; [now apply Ha|]. right. split; [now apply Hs | exact H].
      * intros [H | [_ [H | [_ [H | [_ [H | [_ H]]]]]]]];
          try lia; try discriminate; exact H.
    + split; [|reflexivity].
      intros _. right. split; [exact Ec|]. right. split; [exact Ep|].
      right. split; [now apply Ha|]. now left.
    + split; [discriminate|].
      intros [H | [_ [H | [_ [H | [_ [H | [H _]]]]]]]];
        try lia; try discriminate. apply Hs in H. discriminate.
  - split; [|reflexivity].
    intros _. right. split; [exact Ec|]. right. split; [exact Ep|]. now left.
  - split; [discriminate|].
    intros [H | [_ [H | [_ [H | [H _]]]]]]; try lia; try discriminate.
    apply Ha in H. discriminate.
Qed.

Lemma key_le_cat (r1 r2 : job) :
  key_le r1 r2 -> leb_of Z.compare (cat r1) (cat r2) = true.
Proof.
  rewrite key_le_spec, <- Z_leb_of, Z.leb_le. intros [H | [H _]]; lia.
Qed.

Lemma key_le_provider (r1 r2 : job) :
  key_le r1 r2 -> cat r1 = cat r2 ->
  leb_of Z.compare (provider r1) (provider r2) = true.
Proof.
  rewrite key_le_spec, <- Z_leb_of, Z.leb_le.
  intros [H | [_ [H | [H _]]]] E; lia.
Qed.

Lemma key_le_acct (r1 r2 : job) :
  key_le r1 r2 -> cat r1 = cat r2 -> provider r1 = provider r2 ->
  leb_of String.compare (acct r1) (acct r2) = true.
Proof.
  rewrite key_le_spec. unfold str_lt, leb_of.
  intros [H | [_ [H | [_ [H | [H _]]]]]] E1 E2; try lia.
  - now rewrite H.
  - apply (cmp_eq_iff _ string_compare_laws) in H. now rewrite H.
Qed.

Lemma sorted_weaken {A : Type} (R R' : A -> A -> Prop) (l : list A) :
  (forall x y, In x l -> In y l -> R x y -> R' x y) ->
  StronglySorted R l -> StronglySorted R' l.
Proof.
  intros H Hs. induction Hs as [|x r Hr IH Hx]; [constructor|].
  constructor.
  - apply IH. intros a b Ha Hb. apply H; now right.
  - rewrite Forall_forall in *. intros y Hy. apply H; [now left | now right | auto].
Qed.

(** * The loops of [get_billing_data] *)

Lemma attached_totals_of (df : list job) : attached (Some (totals_of df)) df.
Proof. exists (totals_of df). repeat split. Qed.

Lemma set_totals_attached {A : Type} `{ModelInstance A} (o o' : A) (df : list job) :
  (forall (x : A) (t : Totals), totals (with_totals x t) = Some t) ->
  set_totals (Some o) df = Some o' -> attached (totals o') df.
Proof.
  intros Hlaw E. simpl in E. injection E as <-. rewrite Hlaw.
  apply attached_totals_of.
Qed.

Lemma acct_body_spec (accts : list MacolaAcct) (forms : list string)
    (p : option provider_obj) (st st' : cat_loop) (g : string * list job) :
  acct_body accts forms p st g = Ok st' ->
  exists a,
    appended st' = (appended st ++ map (fun j => (j, a, p)) (snd g))%list /\
    attached (totals a) (snd g) /\
    invoice_no_form a = nth_error forms (invoice_no_idx st) /\
    nth_error forms (invoice_no_idx st) <> None /\
    invoice_no_idx st' = S (invoice_no_idx st).
Proof.
  destruct g as [acct_no acct_df]. unfold acct_body, item.
  destruct (nth_error forms (invoice_no_idx st)) as [form|] eqn:Ef; simpl; [|discriminate].
  destruct (get_acct accts acct_no) as [a0|]; simpl; [|discriminate].
  intros E. injection E as <-. simpl.
  eexists. split; [reflexivity|]. simpl.
  split; [apply attached_totals_of|]. repeat split. discriminate.
Qed.

Lemma acct_loop_spec (accts : list MacolaAcct) (forms : list string)
    (p : option provider_obj) (groups : list (string * list job)) :
  forall st st',
  for_each groups (acct_body accts forms p) st = Ok st' ->
  exists entries,
    appended st' = (appended st ++ entries)%list /\
    map job_of entries = List.concat (map snd groups) /\
    invoice_no_idx st' = (invoice_no_idx st + List.length groups)%nat /\
    Forall (fun e => provider_of e = p /\
              exists ag, In ag groups /\ In (job_of e) (snd ag) /\
                attached (totals (acct_of e)) (snd ag) /\
                exists i, invoice_no_form (acct_of e) = Some i) entries.
Proof.
  induction groups as [|g rest IH]; intros st st' Hrun.
  - simpl in Hrun. injection Hrun as <-. exists []. rewrite List.app_nil_r.
    repeat split; [simpl; lia | constructor].
  - rewrite for_each_cons in Hrun.
    destruct (acct_body accts forms p st g) as [st1|e] eqn:E; simpl in Hrun; [|discriminate].
    destruct (acct_body_spec _ _ _ _ _ _ E) as (a & Happ & Hatt & Hform & Hsome & Hidx).
    destruct (IH st1 st' Hrun) as (entries & Happ' & Hjobs & Hidx' & Hall).
    exists (map (fun j => (j, a, p)) (snd g) ++ entries)%list.
    split; [now rewrite Happ', Happ, List.app_assoc|]. split.
    { rewrite map_app, map_map, Hjobs. cbn [map List.concat]. f_equal.
      unfold job_of. simpl. apply map_id. }
    split; [rewrite Hidx', Hidx; simpl; lia|].
    apply Forall_app. split.
    + rewrite Forall_forall. intros e0 He0. apply in_map_iff in He0 as (j & <- & Hj).
      split; [reflexivity|]. exists g. split; [now left|].
      split; [exact Hj|]. split; [exact Hatt|].
      unfold acct_of. simpl. rewrite Hform.
      destruct (nth_error forms (invoice_no_idx st)) as [i|]; [now exists i | congruence].
    + eapply Forall_impl; [|exact Hall]. intros e0 (Hp & ag & Hag & Hrest).
      split; [exact Hp|]. exists ag. split; [now right | exact Hrest].
Qed.

Lemma provider_law (x : provider_obj) (t : Totals) : totals (with_totals x t) = Some t.
Proof. reflexivity. Qed.

Lemma provider_loop_spec (provs : list BillToProvider) (accts : list MacolaAcct)
    (forms : list string) (pgroups : list (Z * list job)) :
  forall st st',
  for_each pgroups (provider_body provs accts forms) st = Ok st' ->
  exists entries,
    appended st' = (appended st ++ entries)%list /\
    map job_of entries
      = List.concat (map (fun g => acct_groups_rows (snd g)) pgroups) /\
    Forall (fun e =>
      exists pg, In pg pgroups /\
        (forall p, provider_of e = Some p -> attached (totals p) (snd pg)) /\
        exists ag, In ag (groupby_acct (snd pg)) /\
          In (job_of e) (snd ag) /\
          attached (totals (acct_of e)) (snd ag) /\
          exists i, invoice_no_form (acct_of e) = Some i) entries.
Proof.
  induction pgroups as [|g rest IH]; intros st st' Hrun.
  - simpl in Hrun. injection Hrun as <-. exists []. rewrite List.app_nil_r.
    repeat split. constructor.
  - rewrite for_each_cons in Hrun.
    destruct (provider_body provs accts forms st g) as [st1|e] eqn:E;
      simpl in Hrun; [|discriminate].
    destruct g as [provider_id provider_df]. unfold provider_body in E.
    destruct (acct_loop_spec _ _ _ _ _ _ E) as (es & Happ & Hjobs & _ & Hall).
    destruct (IH st1 st' Hrun) as (entries & Happ' & Hjobs' & Hall').
    exists (es ++ entries)%list.
    split; [now rewrite Happ', Happ, List.app_assoc|]. split.
    { rewrite map_app, Hjobs, Hjobs'. reflexivity. }
    apply Forall_app. split.
    + eapply Forall_impl; [|exact Hall]. intros e0 (Hp & Hrest).
      exists (provider_id, provider_df). split; [now left|]. split; [|exact Hrest].
      intros p0 Hp0. rewrite Hp in Hp0. simpl.
      destruct (get_provider provs provider_id) as [po|] eqn:Eg; simpl in Hp0;
        [|discriminate].
      injection Hp0 as <-. apply attached_totals_of.
    + eapply Forall_impl; [|exact Hall']. intros e0 (pg & Hpg & Hrest).
      exists pg. split; [now right | exact Hrest].
Qed.

Lemma cat_body_spec (w : world) (clean_data : list (Z * string))
    (billing_data billing_data' : list job_dict) (g : Z * list job) :
  cat_body w clean_data billing_data g = Ok billing_data' ->
  exists rows,
    billing_data' = (billing_data ++ rows)%list /\
    map jd_job rows = provider_groups_rows (snd g) /\
    Forall (fun d =>
      attached (totals (jd_cat d)) (snd g) /\
      include_form d = true /\
      entry_ok (snd g) (jd_job d, jd_acct d, jd_provider d)) rows.
Proof.
  destruct g as [inv_cat_id inv_cat_df]. unfold cat_body.
  destruct (get_category (InvoiceCategory_objects w) inv_cat_id) as [c0|];
    simpl; [|discriminate].
  destruct (Dict.get Z.eqb clean_data _) as [invoice_start|]; simpl; [|discriminate].
  destruct (allocate invoice_start _) as [invoice_no_range|]; simpl; [|discriminate].
  destruct (for_each (groupby_provider inv_cat_df) _ _) as [st|] eqn:E; simpl;
    [|discriminate].
  intros H. injection H as <-.
  destruct (provider_loop_spec _ _ _ _ _ _ E) as (entries & Happ & Hjobs & Hall).
  simpl in Happ. subst entries. eexists. split; [reflexivity|]. split.
  - rewrite map_map. unfold provider_groups_rows. cbn [snd].
    rewrite <- Hjobs. apply map_ext. now intros [[j a] p].
  - rewrite Forall_forall in *. intros d Hd.
    apply in_map_iff in Hd as ([[j a] p] & <- & He). simpl.
    split; [apply attached_totals_of|]. split; [reflexivity|].
    exact (Hall _ He).
Qed.

Lemma cat_loop_spec (w : world) (clean_data : list (Z * string))
    (cgroups : list (Z * list job)) :
  forall billing_data billing_data',
  for_each cgroups (cat_body w clean_data) billing_data = Ok billing_data' ->
  exists rows,
    billing_data' = (billing_data ++ rows)%list /\
    map jd_job rows
      = List.concat (map (fun g => provider_groups_rows (snd g)) cgroups) /\
    Forall (fun d =>
      exists cg, In cg cgroups /\
        attached (totals (jd_cat d)) (snd cg) /\
        include_form d = true /\
        entry_ok (snd cg) (jd_job d, jd_acct d, jd_provider d)) rows.
Proof.
  induction cgroups as [|g rest IH]; intros bd bd' Hrun.
  - simpl in Hrun. injection Hrun as <-. exists []. rewrite List.app_nil_r.
    repeat split. constructor.
  - rewrite for_each_cons in Hrun.
    destruct (cat_body w clean_data bd g) as [bd1|e] eqn:E; simpl in Hrun; [|discriminate].
    destruct (cat_body_spec _ _ _ _ _ E) as (rows & -> & Hjobs & Hall).
    destruct (IH _ _ Hrun) as (rows' & -> & Hjobs' & Hall').
    exists (rows ++ rows')%list.
    split; [now rewrite List.app_assoc|]. split.
    { rewrite map_app, Hjobs, Hjobs'. reflexivity. }
    apply Forall_app. split.
    + eapply Forall_impl; [|exact Hall]. intros d Hd. exists g. split; [now left | exact Hd].
    + eapply Forall_impl; [|exact Hall']. intros d (cg & Hcg & Hrest).
      exists cg. split; [now right | exact Hrest].
Qed.

(** * The groups of the three [groupby] *)

Lemma string_eqb_eq (x y : string) : (x =? y)%string = true <-> x = y.
Proof. apply String.eqb_eq. Qed.

Lemma groupby_cat_in (df : list job) (k : Z) (g : list job) :
  In (k, g) (groupby_cat df) ->
  g = filter (fun r => cat r =? k) df /\ exists x, In x g /\ cat x = k.
Proof. apply (groupby_in Z.eqb Z.compare Z.eqb_eq cat). Qed.

Lemma groupby_provider_in (df : list job) (k : Z) (g : list job) :
  In (k, g) (groupby_provider df) ->
  g = filter (fun r => provider r =? k) df /\ exists x, In x g /\ provider x = k.
Proof. apply (groupby_in Z.eqb Z.compare Z.eqb_eq provider). Qed.

Lemma groupby_acct_in (df : list job) (k : string) (g : list job) :
  In (k, g) (groupby_acct df) ->
  g = filter (fun r => (acct r =? k)%string) df /\ exists x, In x g /\ acct x = k.
Proof.
  apply (groupby_in String.eqb String.compare string_eqb_eq acct).
Qed.

Lemma acct_groups_rows_id (df : list job) :
  StronglySorted key_le df ->
  (forall x y, In x df -> In y df -> cat x = cat y /\ provider x = provider y) ->
  acct_groups_rows df = df.
Proof.
  intros Hs Hsame. unfold acct_groups_rows, groupby_acct.
  apply (concat_groupby String.eqb String.compare string_compare_laws string_eqb_eq acct).
  eapply sorted_weaken; [|exact Hs].
  intros x y Hx Hy Hle. destruct (Hsame x y Hx Hy). now apply key_le_acct.
Qed.

Lemma provider_groups_rows_id (df : list job) :
  StronglySorted key_le df ->
  (forall x y, In x df -> In y df -> cat x = cat y) ->
  provider_groups_rows df = df.
Proof.
  intros Hs Hsame. unfold provider_groups_rows.
  rewrite (map_ext_in _ snd).
  - unfold groupby_provider.
    apply (concat_groupby Z.eqb Z.compare Z_compare_laws Z.eqb_eq provider).
    eapply sorted_weaken; [|exact Hs].
    intros x y Hx Hy Hle. apply key_le_provider; auto.
  - intros [k g] Hg. cbn [snd]. apply groupby_provider_in in Hg as [-> _].
    apply acct_groups_rows_id; [now apply filter_sorted|].
    intros x y Hx Hy. apply filter_In in Hx as [Hx Ex], Hy as [Hy Ey].
    split; [now apply Hsame | lia].
Qed.

Lemma cat_groups_rows_id (df : list job) :
  StronglySorted key_le df -> cat_groups_rows df = df.
Proof.
  intros Hs. unfold cat_groups_rows.
  rewrite (map_ext_in _ snd).
  - unfold groupby_cat.
    apply (concat_groupby Z.eqb Z.compare Z_compare_laws Z.eqb_eq cat).
    eapply sorted_weaken; [|exact Hs].
    intros x y _ _. apply key_le_cat.
  - intros [k g] Hg. cbn [snd]. apply groupby_cat_in in Hg as [-> _].
    apply provider_groups_rows_id; [now apply filter_sorted|].
    intros x y Hx Hy. apply filter_In in Hx as [Hx Ex], Hy as [Hy Ey]. lia.
Qed.

(** The groups an appended row belongs to are the rows of the frame with
    its category, its provider and its account. *)
Lemma entry_groups (merged : list job) (cg : Z * list job)
    (e : job * acct_obj * option provider_obj) :
  In cg (groupby_cat merged) -> entry_ok (snd cg) e ->
  snd cg = cat_rows (job_of e) merged /\
  In (job_of e) (acct_rows (job_of e) merged) /\
  (forall p, provider_of e = Some p ->
             attached (totals p) (provider_rows (job_of e) merged)) /\
  attached (totals (acct_of e)) (acct_rows (job_of e) merged) /\
  exists i, invoice_no_form (acct_of e) = Some i.
Proof.
  destruct cg as [ck cdf]. intros Hcg (pg & Hpg & Hp & ag & Hag & Hj & Ha & Hi).
  destruct pg as [pk pdf]. destruct ag as [ak adf]. cbn [snd] in *.
  apply groupby_cat_in in Hcg as [-> _].
  apply groupby_provider_in in Hpg as [-> _].
  apply groupby_acct_in in Hag as [-> _].
  pose proof Hj as Hj'.
  apply filter_In in Hj' as [Hj' Eacct]. apply filter_In in Hj' as [Hj' Eprov].
  apply filter_In in Hj' as [_ Ecat].
  apply String.eqb_eq in Eacct. apply Z.eqb_eq in Eprov, Ecat.
  unfold acct_rows, provider_rows, cat_rows. rewrite Eacct, Eprov, Ecat.
  repeat split; auto.
Qed.

(** * Aggregation: the theorems *)

Lemma get_billing_data_spec (v : list vistar_row) (m : list macola_row)
    (cd : list (Z * string)) (from_cache : bool) (w w' : world)
    (billing_data : list job_dict) :
  get_billing_data v m cd from_cache w = (Ok billing_data, w') ->
  exists merged,
    hdf_store w' = Some merged /\
    (from_cache = false -> merged = merged_frame v m) /\
    (from_cache = true -> w' = w) /\
    for_each (groupby_cat merged) (cat_body w cd) [] = Ok billing_data.
Proof.
  unfold get_billing_data. destruct from_cache.
  - unfold get_cached_data. destruct (hdf_store w) as [df|] eqn:E; [|discriminate].
    intros H. injection H as H <-. exists df. repeat split; auto. discriminate.
  - intros H. injection H as H <-. exists (merged_frame v m).
    repeat split; auto. discriminate.
Qed.

Lemma for_each_ext {A S : Type} (f g : S -> A -> result S) (xs : list A) :
  (forall s x, f s x = g s x) -> forall s, for_each xs f s = for_each xs g s.
Proof.
  intros H. induction xs as [|x r IH]; intros s; simpl; [reflexivity|].
  rewrite H. destruct (g s x); simpl; auto.
Qed.

Lemma cat_body_tables (w1 w2 : world) (cd : list (Z * string)) :
  InvoiceCategory_objects w1 = InvoiceCategory_objects w2 ->
  BillToProvider_objects w1 = BillToProvider_objects w2 ->
  MacolaAcct_objects w1 = MacolaAcct_objects w2 ->
  forall bd g, cat_body w1 cd bd g = cat_body w2 cd bd g.
Proof. intros H1 H2 H3 bd g. unfold cat_body. now rewrite H1, H2, H3. Qed.

(** C3. Every instance to which a run attaches totals carries
    [total = sales + tax], with [sales] and [tax] the sums of the columns
    over the job rows of that instance: [set_totals] does so for a category,
    a provider and an account, whatever the frame, filtered or not; and for
    every element of the [billing_data] that [get_billing_data] returns, the
    totals of its category are those of the rows of that category in the
    snapshot, the totals of its provider (when it has one) those of the rows
    of that provider in the category, and the totals of its account those of
    the rows of that account under the provider. *)
Theorem attached_totals_consistent :
  (forall (c : category_obj) (p : provider_obj) (a : acct_obj) (data_df : list job),
     (exists c', set_totals (Some c) data_df = Some c' /\ attached (totals c') data_df) /\
     (exists p', set_totals (Some p) data_df = Some p' /\ attached (totals p') data_df) /\
     (exists a', set_totals (Some a) data_df = Some a' /\ attached (totals a') data_df)) /\
  (forall (o : option Totals) (data_df : list job) (t : Totals),
     attached o data_df -> o = Some t ->
     obj_total t = (obj_sales t + obj_tax t)%Q /\
     obj_sales t = Pd.sum (map sales data_df) /\
     obj_tax t = Pd.sum (map tax data_df)) /\
  (forall v m clean_data from_cache w billing_data w',
     get_billing_data v m clean_data from_cache w = (Ok billing_data, w') ->
     exists merged,
       hdf_store w' = Some merged /\
       forall d, In d billing_data ->
         In (jd_job d) (acct_rows (jd_job d) merged) /\
         attached (totals (jd_cat d)) (cat_rows (jd_job d) merged) /\
         (forall p, jd_provider d = Some p ->
                    attached (totals p) (provider_rows (jd_job d) merged)) /\
         attached (totals (jd_acct d)) (acct_rows (jd_job d) merged)).
Proof.
  split; [|split].
  - intros c p a df. repeat split; eexists; (split; [reflexivity|]);
      apply attached_totals_of.
  - intros o df t (t' & E & Hs & Ht & Htot) Eo. rewrite Eo in E.
    injection E as <-. auto.
  - intros v m cd fc w bd w' Hrun.
    destruct (get_billing_data_spec _ _ _ _ _ _ _ Hrun) as (merged & Hstore & _ & _ & Hloop).
    exists merged. split; [exact Hstore|].
    destruct (cat_loop_spec _ _ _ _ _ Hloop) as (rows & Hbd & _ & Hall).
    simpl in Hbd. subst rows. rewrite Forall_forall in Hall.
    intros d Hd. destruct (Hall d Hd) as (cg & Hcg & Hcat & _ & Hentry).
    destruct (entry_groups merged cg _ Hcg Hentry) as (Ecg & Hj & Hp & Ha & _).
    unfold job_of, acct_of, provider_of in *. cbn [fst snd] in *.
    rewrite Ecg in Hcat. auto.
Qed.


(** C10. The join of the jobs to the reference accounts is an inner join on
    the account number: the joined rows are the pairs of a job and a
    reference row with the same account number; a job whose account number is
    in no reference row is dropped, and the run goes on as if the job had not
    been queried (same result, same snapshot, no exception of its own). On
    the joined rows a missing tax rate is 0 and a missing provider is 0
    before [tax = sales * tax_rate] and [total = (1 + tax_rate) * sales] are
    derived. *)
Theorem inner_join_and_fill
    (vistar_billing_df : list vistar_row) (macola_df : list macola_row) :
  (forall j a,
     In (j, a) (merge vistar_billing_df macola_df) <->
     In j vistar_billing_df /\ In a macola_df /\ m_acct a = v_acct j) /\
  (forall r,
     In r (merged_frame vistar_billing_df macola_df) <->
     exists j a, In j vistar_billing_df /\ In a macola_df /\ m_acct a = v_acct j /\
                 r = derive (j, a)) /\
  (forall before j after,
     vistar_billing_df = (before ++ j :: after)%list ->
     (forall a, In a macola_df -> m_acct a <> v_acct j) ->
     merge vistar_billing_df macola_df = merge (before ++ after) macola_df /\
     forall clean_data from_cache w,
       get_billing_data vistar_billing_df macola_df clean_data from_cache w
       = get_billing_data (before ++ after) macola_df clean_data from_cache w) /\
  (forall j a,
     let r := derive (j, a) in
     acct r = v_acct j /\ sales r = v_sales j /\
     tax_rate r = Pd.fillna 0%Q (m_tax_rate a) /\
     provider r = Pd.fillna 0 (m_provider a) /\
     tax r = (sales r * tax_rate r)%Q /\
     total r = ((1 + tax_rate r) * sales r)%Q /\
     (m_tax_rate a = None ->
      tax_rate r = 0%Q /\ (tax r == 0)%Q /\ (total r == sales r)%Q) /\
     (m_provider a = None -> provider r = 0)).
Proof.
  assert (Hmerge : forall v j a,
            In (j, a) (merge v macola_df) <->
            In j v /\ In a macola_df /\ m_acct a = v_acct j).
  { intros v j a. unfold merge. rewrite in_flat_map. split.
    - intros (j' & Hj' & Hin). apply in_map_iff in Hin as (a' & E & Ha').
      injection E as -> ->. apply filter_In in Ha' as [Ha' Ea].
      apply String.eqb_eq in Ea. auto.
    - intros (Hj & Ha & E). exists j. split; [exact Hj|].
      apply in_map, filter_In. split; [exact Ha | now apply String.eqb_eq]. }
  split; [apply Hmerge|]. split; [|split].
  - intros r. unfold merged_frame, sort_values. rewrite sort_in, in_map_iff. split.
    + intros ([j a] & <- & Hin). apply Hmerge in Hin as (Hj & Ha & E).
      exists j, a. auto.
    + intros (j & a & Hj & Ha & E & ->). exists (j, a). split; [reflexivity|].
      apply Hmerge. auto.
  - intros before j after -> Hnone.
    assert (E : merge (before ++ j :: after) macola_df
                = merge (before ++ after) macola_df).
    { unfold merge. rewrite !flat_map_app. f_equal. cbn [flat_map].
      rewrite (filter_none _ macola_df); [reflexivity|].
      intros a Ha. apply String.eqb_neq. now apply Hnone. }
    split; [exact E|]. intros cd fc w.
    unfold get_billing_data, merged_frame. now rewrite E.
  - intros j a r. unfold r, derive. cbn.
    repeat split.
    all: try (intros Hp; rewrite Hp; reflexivity).
    all: match goal with H : _ = None |- _ => rewrite H; cbn end;
      try reflexivity; ring.
Qed.

Lemma attached_totals_consistent_witness :
  exists merged,
    hdf_store (snd two_jobs_run) = Some merged /\ List.length merged = 2%nat.
Proof.
  eassert (Hrun : two_jobs_run = (Ok _, _)) by (vm_compute; reflexivity).
  destruct (proj2 (proj2 attached_totals_consistent) _ _ _ _ _ _ _ Hrun)
    as (merged & Hstore & _).
  exists merged. split; [rewrite Hrun; exact Hstore|].
  simpl in Hstore. injection Hstore as <-. reflexivity.
Defined.


Lemma inner_join_and_fill_witness :
  merge (job_row "9999" 3 "01/07/2020" "Poe, Pat" 75 :: two_jobs) [reference_row "1001"]
  = merge two_jobs [reference_row "1001"].
Proof.
  refine (proj1 (proj1 (proj2 (proj2 (inner_join_and_fill
            (job_row "9999" 3 "01/07/2020" "Poe, Pat" 75 :: two_jobs)
            [reference_row "1001"])))
            [] (job_row "9999" 3 "01/07/2020" "Poe, Pat" 75) two_jobs eq_refl _)).
  intros a [<- | []]. discriminate.
Defined.

(** * Scenarios of the specification *)





(** * The generating actions *)

Lemma groupby_nil {A K : Type} (eqb leb : K -> K -> bool) (key : A -> K) (df : list A) :
  Pd.groupby eqb leb key df = [] -> df = [].
Proof.
  unfold Pd.groupby. intros H. apply map_eq_nil in H.
  apply (f_equal (@List.length K)) in H. rewrite sort_length in H.
  destruct df as [|x r]; [reflexivity|]. simpl in H. discriminate.
Qed.

Lemma post_loop_valid (rq : request) (ps : list (string * string)) :
  forall st st',
  for_each ps (post_body rq) st = Ok st' ->
  Forall (fun p => exists flags,
            include_formset rq (fst p) = Valid flags /\ non_empty flags <> []) ps.
Proof.
  induction ps as [|p rest IH]; intros st st' Hrun; [constructor|].
  rewrite for_each_cons in Hrun.
  destruct (post_body rq st p) as [st1|e] eqn:E; simpl in Hrun; [|discriminate].
  destruct (post_body_mask rq st st1 p E) as (flags & Hv & Hne & _).
  constructor; [now exists flags | exact (IH st1 st' Hrun)].
Qed.

Lemma invoices_spec (w w' : world) (c : option category_obj) (sp : savepath)
    (billing_data : Pd.frame job) (adjustments : adjustments_dict)
    (invoice_nos : invoice_nos_dict) (r : result response) :
  invoices w c sp billing_data adjustments invoice_nos = (r, w') ->
  (exists e, r = Raise e /\ w' = w) \/
  (exists cobj new_start,
     c = Some cobj /\ get_ici_account w <> None /\
     billing_data = Pd.Frame [] /\
     next_invoice_start invoice_nos = Ok new_start /\
     r = Ok (Invoices_pdf (description (ic cobj)) (invoice_date sp) []) /\
     w' = save {| ic_id := ic_id (ic cobj); number := number (ic cobj);
                  description := description (ic cobj);
                  invoice_start := new_start |} w).
Proof.
  unfold invoices. destruct c as [cobj|]; simpl.
  2:{ intros H. injection H as <- <-. left. eauto. }
  destruct (get_ici_account w) as [ici|] eqn:Eici; simpl.
  2:{ intros H. injection H as <- <-. left. eauto. }
  destruct billing_data as [df|]; simpl.
  2:{ intros H. injection H as <- <-. left. eauto. }
  destruct (groupby_provider df) as [|g gs] eqn:Eg; simpl.
  2:{ intros H. injection H as <- <-. left. eauto. }
  apply groupby_nil in Eg. subst df.
  destruct (next_invoice_start invoice_nos) as [new_start|e] eqn:En; simpl.
  2:{ intros H. injection H as <- <-. left. eauto. }
  intros H. injection H as <- <-. right. exists cobj, new_start.
  repeat split. discriminate.
Qed.

(** The period form and the fetch of the billing data write the snapshot
    only. *)
Lemma form_valid_keeps_categories (v : list vistar_row) (m : list macola_row)
    (cd : list (Z * string)) (w : world) :
  InvoiceCategory_objects (snd (form_valid v m cd w)) = InvoiceCategory_objects w /\
  saved (snd (form_valid v m cd w)) = saved w.
Proof.
  unfold form_valid. destruct (find _ (MacolaAcct_objects w)); [|split; reflexivity].
  unfold get_billing_data. simpl. split; reflexivity.
Qed.

(** The invoices action on a selection that holds a row: line 530 raises in
    the first iteration of the loop (or an attribute of a missing category
    or lab account does before), and nothing is written. *)
Lemma invoices_raises_on_rows (w : world) (c : option category_obj) (sp : savepath)
    (df : list job) (adjustments : adjustments_dict) (invoice_nos : invoice_nos_dict) :
  df <> [] ->
  invoices w c sp (Pd.Frame df) adjustments invoice_nos = (Raise AttributeError, w).
Proof.
  intros Hdf. unfold invoices. destruct c as [cobj|]; [|reflexivity]. simpl.
  destruct (get_ici_account w); [|reflexivity]. simpl.
  destruct (groupby_provider df) eqn:Eg; [|reflexivity].
  apply groupby_nil in Eg. contradiction.
Qed.

(** C4 (amended). The persisted [invoice_start] is written only by the
    invoices action, never by the register, summary or credit action, and
    not when [post] raises or answers with the invalid path form. When the
    invoices action returns its document, the numbering formset, the path
    form and every inclusion formset read for the accounts of the category
    had validated, and the world differs from the one before by exactly one
    [save()], of the category of the request with [invoice_start] set to
    the value computed from the submitted invoice numbers: with [d] the
    greatest run of digits in them, [d[:-4]] followed by [int(d[-4:]) + 1]
    padded with zeros to four characters. The validity of the adjustment
    formsets is not part of this: an invalid one is read as no
    adjustment. *)
Theorem invoice_start_written_once (rq : request) (w w' : world) (r : result response) :
  post rq w = (r, w') ->
  (misc_submit rq <> submit_invoices -> w' = w) /\
  (forall e, r = Raise e -> w' = w) /\
  (r = Ok Form_invalid -> w' = w) /\
  (misc_submit rq = submit_invoices ->
   forall document, r = Ok document -> document <> Form_invalid ->
   exists invoice_no_list savepath_clean_data adjustments invoice_nos cached c new_start,
     tolist (validate_field (inv_formset rq)) = Ok invoice_no_list /\
     savepath_form rq = Valid savepath_clean_data /\
     hdf_store w = Some cached /\
     Forall (fun p => exists flags, include_formset rq (fst p) = Valid flags)
            (combine (Pd.drop_duplicates String.eqb
                        (map acct (filter (fun j => cat j =? cat_id rq) cached)))
                     invoice_no_list) /\
     (exists selected,
        post_arguments rq w
        = Ok (Some (savepath_clean_data, selected, adjustments, invoice_nos))) /\
     get_category (InvoiceCategory_objects w) (cat_id rq) = Some c /\
     next_invoice_start invoice_nos = Ok new_start /\
     let category := {| ic_id := ic_id (ic c); number := number (ic c);
                        description := description (ic c);
                        invoice_start := new_start |} in
     w' = save category w /\
     saved w' = category :: saved w /\
     hdf_store w' = hdf_store w).
Proof.
  unfold post. intros Hpost.
  destruct (post_arguments rq w) as [[[[[sp sel] adjs] nos]|]|e] eqn:Eargs.
  - destruct (misc_submit rq) eqn:Esub.
    + injection Hpost as <- <-. repeat split; congruence.
    + apply invoices_spec in Hpost as [(e & -> & ->) | Hok].
      * repeat split; congruence.
      * destruct Hok as (cobj & new_start & Hc & _ & -> & Hnext & -> & ->).
        split; [congruence|]. split; [discriminate|]. split; [discriminate|].
        intros _ document Hdoc _.
        pose proof Eargs as Eargs'. unfold post_arguments in Eargs'.
        destruct (tolist (validate_field (inv_formset rq))) as [invoice_no_list|e] eqn:Einv;
          simpl in Eargs'; [|discriminate].
        destruct (savepath_form rq) as [|sp'] eqn:Esp; [discriminate|].
        unfold get_cached_data in Eargs'.
        destruct (hdf_store w) as [cached|] eqn:Estore; simpl in Eargs'; [|discriminate].
        destruct (for_each _ (post_body rq) ([], [], [])) as [[[mask adjs'] nos']|e] eqn:Eloop;
          simpl in Eargs'; [|discriminate].
        destruct (Pd.getitem _ mask) as [sel|e] eqn:Eget; simpl in Eargs'; [|discriminate].
        injection Eargs' as -> -> -> ->.
        exists invoice_no_list, sp, adjs, nos, cached, cobj, new_start.
        split; [reflexivity|]. split; [reflexivity|]. split; [reflexivity|].
        split.
        { eapply Forall_impl; [|exact (post_loop_valid _ _ _ _ Eloop)].
          intros p (flags & Hv & _). now exists flags. }
        split; [now exists (Pd.Frame [])|]. split; [exact Hc|]. split; [exact Hnext|].
        cbv zeta. repeat split. simpl. now rewrite Estore.
    + injection Hpost as <- <-. repeat split; congruence.
    + injection Hpost as <- <-. repeat split; congruence.
  - injection Hpost as <- <-. repeat split; congruence.
  - injection Hpost as <- <-. repeat split; congruence.
Qed.

Lemma invoice_start_written_once_witness :
  exists w',
    post (retail_request submit_invoices false no_adjustment) (snd three_accts_run)
      = (Ok (Invoices_pdf "Retail" "January 2020" []), w') /\
    map invoice_start (saved w') = ["015004"].
Proof.
  set (rq := retail_request submit_invoices false no_adjustment).
  set (w := snd three_accts_run).
  destruct (post rq w) as [r w'] eqn:Hpost.
  assert (Hr : r = Ok (Invoices_pdf "Retail" "January 2020" [])).
  { apply (f_equal fst) in Hpost. vm_compute in Hpost. now symmetry. }
  destruct (invoice_start_written_once rq w w' r Hpost) as (_ & _ & _ & Hinv).
  destruct (Hinv eq_refl _ Hr ltac:(discriminate))
    as (l & sp & adjs & nos & cached & c & new_start & _ & _ & _ & _ & [sel Hargs] & Hc & Hnext & Hw & Hsaved & _).
  exists w'. split; [now rewrite Hr|].
  rewrite Hsaved. cbn [map invoice_start].
  vm_compute in Hargs. injection Hargs as _ _ _ <-.
  vm_compute in Hnext. injection Hnext as <-. reflexivity.
Defined.

(** C4 as stated fails: the invoices action commits although the adjustment
    formset of account "1001" is invalid. *)
Lemma commit_despite_invalid_adjustment :
  adj_formset (retail_request submit_invoices false invalid_adjustment) "1001" = Invalid /\
  exists response w',
    post (retail_request submit_invoices false invalid_adjustment) (snd three_accts_run)
    = (Ok response, w') /\
    InvoiceCategory_objects (snd three_accts_run) = [retail] /\
    invoice_start retail = "RT015001" /\
    map invoice_start (InvoiceCategory_objects w') = ["015004"] /\
    List.length (saved w') = S (List.length (saved (snd three_accts_run))).
Proof.
  split; [reflexivity|]. do 2 eexists.
  split; [vm_compute; reflexivity|]. repeat split.
Qed.

(** * Adjustments *)

Lemma fold_left_Qplus_shift (xs : list Q) :
  forall a, (fold_left Qplus xs a == a + fold_left Qplus xs 0)%Q.
Proof.
  induction xs as [|x r IH]; intros a; simpl; [ring|].
  rewrite (IH (a + x)%Q), (IH (0 + x)%Q). ring.
Qed.

Lemma sum_cons (x : Q) (xs : list Q) : (Pd.sum (x :: xs) == x + Pd.sum xs)%Q.
Proof. unfold Pd.sum. simpl. rewrite fold_left_Qplus_shift. ring. Qed.

Lemma sum_normalize (adjs : list adjustment) :
  (Forall (fun a => kind a = Credit) adjs ->
   Pd.sum (map amount (map normalize adjs)) == - Pd.sum (map amount adjs))%Q /\
  (Forall (fun a => kind a = Debit) adjs ->
   Pd.sum (map amount (map normalize adjs)) == Pd.sum (map amount adjs))%Q.
Proof.
  split; induction 1 as [|a r Ha _ IH]; try reflexivity;
    cbn [map]; rewrite !sum_cons, IH; unfold normalize; cbn [amount];
    rewrite Ha; cbn [kind_sign]; ring.
Qed.

Lemma dict_get_set {V : Type} (d : list (string * V)) (k0 k : string) (v0 v : V) :
  Dict.get String.eqb (Dict.set String.eqb d k0 v0) k = Ok v ->
  (k = k0 /\ v = v0) \/ Dict.get String.eqb d k = Ok v.
Proof.
  induction d as [|[k' v'] r IH]; simpl.
  - destruct (String.eqb_spec k0 k) as [->|]; [|discriminate].
    intros H. injection H as <-. now left.
  - destruct (String.eqb_spec k' k0) as [->|Hne]; simpl.
    + destruct (String.eqb_spec k0 k) as [->|]; [|now right].
      intros H. injection H as <-. now left.
    + destruct (String.eqb_spec k' k) as [->|]; [now right | exact IH].
Qed.

(** The mapping of adjustments that [post] builds holds, for an account,
    what [validate_form] made of its adjustment formset. *)
Lemma post_adjustments (rq : request) (w : world) (sp : savepath)
    (selected : Pd.frame job) (adjustments : adjustments_dict)
    (invoice_nos : invoice_nos_dict) :
  post_arguments rq w = Ok (Some (sp, selected, adjustments, invoice_nos)) ->
  forall acct_no adj_df,
    Dict.get String.eqb adjustments acct_no = Ok adj_df ->
    adj_df = frame_or_none (validate_adjustments (adj_formset rq acct_no)).
Proof.
  unfold post_arguments. intros Hargs.
  destruct (tolist (validate_field (inv_formset rq))) as [l|]; simpl in Hargs; [|discriminate].
  destruct (savepath_form rq) as [|sp']; [discriminate|].
  destruct (get_cached_data w) as [cached|]; simpl in Hargs; [|discriminate].
  destruct (for_each _ (post_body rq) ([], [], [])) as [[[mask adjs'] nos']|e] eqn:Eloop;
    simpl in Hargs; [|discriminate].
  destruct (Pd.getitem _ mask) as [sel|]; simpl in Hargs; [|discriminate].
  injection Hargs as _ _ <- _.
  revert Eloop.
  apply (for_each_invariant (post_body rq)
           (fun st => forall acct_no adj_df,
              Dict.get String.eqb (snd (fst st)) acct_no = Ok adj_df ->
              adj_df = frame_or_none (validate_adjustments (adj_formset rq acct_no)))
           _ ).
  - intros [[m a] n] [acct_no invoice_no] st' _ Hst Hbody. unfold post_body in Hbody.
    destruct (tolist (validate_field (include_formset rq acct_no))); simpl in Hbody;
      [|discriminate].
    injection Hbody as <-. simpl in *. intros k v Hget.
    apply dict_get_set in Hget as [[-> ->] | Hget]; [reflexivity | now apply Hst].
  - simpl. discriminate.
Qed.

(** C5. Normalization multiplies each submitted amount by -1 when its kind
    is Credit and by +1 when it is Debit. In the register, the row of an
    included account shows as adjusted total the job total of the account
    (its sales plus its tax) plus the sum of its normalized amounts: when
    the submitted adjustments are all Credits that is the job total minus
    the sum of their magnitudes, and when they are all Debits the job total
    plus that sum. *)
Theorem adjustment_sign_law (rq : request) (w : world) (sp : savepath)
    (selected : Pd.frame job) (adjustments : adjustments_dict)
    (invoice_nos : invoice_nos_dict)
    (table_data table_data' : list (list cell)) (prov_adjs prov_adjs' : list Q)
    (acct_no : string) (acct_df : list job) (clean_data : list (option adjustment)) :
  post_arguments rq w = Ok (Some (sp, selected, adjustments, invoice_nos)) ->
  adj_formset rq acct_no = Valid clean_data ->
  existsb (String.eqb acct_no) (included_accts_of invoice_nos) = true ->
  register_acct_body (MacolaAcct_objects w) adjustments invoice_nos
      (included_accts_of invoice_nos) (table_data, prov_adjs) (acct_no, acct_df)
    = Ok (table_data', prov_adjs') ->
  let submitted := non_empty clean_data in
  let magnitudes := Pd.sum (map amount submitted) in
  let job_total := (Pd.sum (map sales acct_df) + Pd.sum (map tax acct_df))%Q in
  (forall a, amount (normalize a)
             = (amount a * match kind a with Credit => -1 | Debit => 1 end)%Q) /\
  exists invoice_no acct_des acct_adjs adjusted,
    table_data' = (table_data ++
                   [[Text invoice_no; Text acct_des;
                     Currency_or_blank (Pd.sum (map sales acct_df));
                     Currency_or_blank (Pd.sum (map tax acct_df));
                     Currency_or_blank acct_adjs;
                     Currency_or_blank adjusted]])%list /\
    prov_adjs' = (prov_adjs ++ [acct_adjs])%list /\
    (adjusted == job_total + acct_adjs)%Q /\
    (Forall (fun a => kind a = Credit) submitted ->
     (acct_adjs == - magnitudes)%Q /\ (adjusted == job_total - magnitudes)%Q) /\
    (Forall (fun a => kind a = Debit) submitted ->
     (acct_adjs == magnitudes)%Q /\ (adjusted == job_total + magnitudes)%Q).
Proof.
  intros Hargs Hform Hincl Hbody submitted magnitudes job_total.
  split; [intros a; destruct (kind a) eqn:E; unfold normalize; cbn; now rewrite E|].
  unfold register_acct_body in Hbody.
  destruct (Dict.get String.eqb adjustments acct_no) as [adj_df|] eqn:Eadj;
    simpl in Hbody; [|discriminate].
  rewrite Hincl in Hbody. simpl in Hbody.
  destruct (get_acct (MacolaAcct_objects w) acct_no) as [a0|]; simpl in Hbody;
    [|discriminate].
  destruct (Dict.get String.eqb invoice_nos acct_no) as [invoice_no|]; simpl in Hbody;
    [|discriminate].
  injection Hbody as <- <-.
  pose proof (post_adjustments _ _ _ _ _ _ Hargs _ _ Eadj) as Hdf.
  rewrite Hform in Hdf.
  assert (Hsum : acct_adjs_of adj_df = Pd.sum (map amount (map normalize submitted))).
  { subst adj_df. unfold validate_adjustments, validate_form, submitted.
    destruct (non_empty clean_data); reflexivity. }
  do 4 eexists. split; [reflexivity|]. split; [reflexivity|].
  unfold Dec. split; [reflexivity|].
  rewrite Hsum. destruct (sum_normalize submitted) as [Hc Hd].
  split; intros Hk.
  - rewrite (Hc Hk). split; [reflexivity | unfold job_total, magnitudes; ring].
  - rewrite (Hd Hk). split; reflexivity.
Qed.

Lemma adjustment_sign_law_witness :
  exists adjusted : Q, (adjusted == 162.375 - 25)%Q.
Proof.
  eassert (Hargs : post_arguments two_credits_request (snd two_jobs_run)
                   = Ok (Some (_, _, _, _))) by (vm_compute; reflexivity).
  match type of Hargs with
  | _ = Ok (Some (_, _, ?adjustments, ?invoice_nos)) =>
      eassert (Hbody : register_acct_body (MacolaAcct_objects (snd two_jobs_run))
                         adjustments invoice_nos (included_accts_of invoice_nos)
                         ([], []) ("1001", merged_frame two_jobs [reference_row "1001"])
                       = Ok (_, _)) by (vm_compute; reflexivity)
  end.
  pose proof (adjustment_sign_law two_credits_request _ _ _ _ _ _ _ _ _ "1001" _
                [Some credit_20; Some credit_5; None]
                Hargs eq_refl eq_refl Hbody) as law.
  cbv zeta in law.
  destruct law as (_ & invoice_no & acct_des & acct_adjs & adjusted & _ & _ & _ & Hcredit & _).
  exists adjusted. destruct Hcredit as [_ H].
  - repeat constructor.
  - eapply Qeq_trans; [exact H|]. vm_compute. reflexivity.
Defined.

(** * The literal key of [summary] and [credit] *)

Lemma dict_get_absent {V : Type} (d : list (string * V)) (k : string) :
  ~ In k (map fst d) -> Dict.get String.eqb d k = Raise KeyError.
Proof.
  induction d as [|[k' v] r IH]; simpl; [reflexivity|].
  intros H. destruct (String.eqb_spec k' k) as [->|Hne]; [tauto | apply IH; tauto].
Qed.

(** C6 on the code: as soon as one job is selected, and unless an account
    is numbered "acct_no", [summary] produces no worksheet: it raises
    [KeyError] at the first account (or [DoesNotExist] before, when the
    provider of the first group is not in the table); [credit] raises
    [KeyError] too (or [IndexError] when [_credit] holds no word). *)
Theorem summary_credit_literal_key (w : world) (sp : savepath) (df : list job)
    (adjustments : adjustments_dict) (invoice_nos : invoice_nos_dict)
    (credit_value : string) :
  (df <> [] -> ~ In "acct_no" (map fst invoice_nos) ->
   summary w sp (Pd.Frame df) adjustments invoice_nos = Raise KeyError \/
   summary w sp (Pd.Frame df) adjustments invoice_nos = Raise DoesNotExist) /\
  (~ In "acct_no" (map fst adjustments) ->
   credit w credit_value adjustments invoice_nos = Raise KeyError \/
   credit w credit_value adjustments invoice_nos = Raise IndexError).
Proof.
  split.
  - intros Hdf Habsent.
    remember (summary w sp (Pd.Frame df) adjustments invoice_nos) as res eqn:Eres.
    unfold summary in Eres. simpl in Eres.
    destruct (groupby_provider df) as [|[pid pdf] rest] eqn:Eg.
    { apply groupby_nil in Eg. contradiction. }
    rewrite for_each_cons in Eres. unfold summary_provider_body at 1 in Eres.
    unfold objects_get at 1 in Eres.
    destruct (find (fun m => bp_id m =? pid) (BillToProvider_objects w)) as [p|];
      cbn [bind] in Eres; [|now right].
    left.
    assert (Hin : In (pid, pdf) (groupby_provider df)) by (rewrite Eg; now left).
    apply groupby_provider_in in Hin as [_ (x & Hx & _)].
    destruct (groupby_acct pdf) as [|[ak adf] arest] eqn:Ea.
    { apply groupby_nil in Ea. subst pdf. destruct Hx. }
    rewrite for_each_cons in Eres. unfold summary_acct_body at 1 in Eres.
    rewrite (dict_get_absent invoice_nos "acct_no" Habsent) in Eres. exact Eres.
  - intros Habsent.
    remember (credit w credit_value adjustments invoice_nos) as res eqn:Eres.
    unfold credit in Eres.
    destruct (Py.last_word credit_value) as [acct_no|e] eqn:El; cbn [bind] in Eres.
    + left. now rewrite (dict_get_absent adjustments "acct_no" Habsent) in Eres.
    + right. unfold Py.last_word in El.
      destruct (Py.drop_while _ _); [now injection El as <- | discriminate].
Qed.


(** * Further properties of the numbering *)

(** ** Commit of the numbering: when it is defined and what it stores *)

Lemma flush_digits (cur : list ascii) :
  forallb Py.is_digit cur = true ->
  Forall (fun d => d <> EmptyString /\ all_digits d = true) (Py.flush cur).
Proof.
  intros Hcur. destruct cur as [|c cur]; [constructor|].
  unfold Py.flush. constructor; [|constructor]. split.
  - intros H. apply (f_equal list_ascii_of_string) in H.
    rewrite list_ascii_of_string_of_list_ascii in H. simpl in H.
    destruct (rev cur); discriminate H.
  - unfold all_digits. rewrite list_ascii_of_string_of_list_ascii.
    rewrite forallb_forall in *. intros x Hx. apply Hcur. now apply in_rev.
Qed.

Lemma findall_digits_from_runs (l : list ascii) :
  forall cur, forallb Py.is_digit cur = true ->
  Forall (fun d => d <> EmptyString /\ all_digits d = true) (Py.findall_digits_from l cur).
Proof.
  induction l as [|c l IH]; intros cur Hcur; simpl.
  - now apply flush_digits.
  - destruct (Py.is_digit c) eqn:Hc.
    + apply IH. simpl. now rewrite Hc.
    + apply Forall_app. split; [now apply flush_digits | now apply IH].
Qed.

Lemma findall_digits_runs (s : string) :
  Forall (fun d => d <> EmptyString /\ all_digits d = true) (Py.findall_digits s).
Proof. now apply findall_digits_from_runs. Qed.

Lemma findall_digits_from_none (l : list ascii) :
  forall cur,
  Py.findall_digits_from l cur = [] <->
  cur = [] /\ forallb (fun c => negb (Py.is_digit c)) l = true.
Proof.
  induction l as [|c l IH]; intros cur; simpl.
  - destruct cur; simpl; split; try tauto; try discriminate.
    intros [H _]; discriminate H.
  - destruct (Py.is_digit c) eqn:Hc; simpl.
    + rewrite IH. split; [intros [H _]; discriminate H | intros [_ H]; discriminate H].
    + split.
      * intros H. apply app_eq_nil in H. destruct H as [H1 H2].
        apply IH in H2. destruct cur; [tauto | discriminate H1].
      * intros [-> H]. simpl. apply IH. tauto.
Qed.

Lemma findall_digits_none (s : string) :
  Py.findall_digits s = [] <-> no_digit s = true.
Proof.
  unfold Py.findall_digits, no_digit. rewrite findall_digits_from_none. tauto.
Qed.

Lemma fold_max_in (r : list string) :
  forall x, let m := fold_left (fun m y => if String.ltb m y then y else m) r x in
  m = x \/ In m r.
Proof.
  induction r as [|y r IH]; intros x; simpl; [now left|].
  destruct (String.ltb x y).
  - destruct (IH y) as [H | H]; [right; left; now symmetry | right; now right].
  - destruct (IH x) as [H | H]; [now left | right; now right].
Qed.

Lemma max_in (xs : list string) (m : string) : Py.max xs = Ok m -> In m xs.
Proof.
  destruct xs as [|x r]; simpl; [discriminate|].
  intros H. injection H as <-. destruct (fold_max_in r x) as [H | H]; [now left | now right].
Qed.

Lemma max_defined (xs : list string) : xs <> [] -> exists m, Py.max xs = Ok m.
Proof. destruct xs; [congruence | intros _; eexists; reflexivity]. Qed.

Lemma substring_length (s : string) :
  forall n m, String.length (substring n m s) = Nat.min m (String.length s - n).
Proof.
  induction s as [|c s IH]; intros n m; simpl.
  - destruct n, m; reflexivity.
  - destruct n; simpl.
    + destruct m; simpl; [reflexivity|]. now rewrite IH, Nat.sub_0_r.
    + apply IH.
Qed.

Lemma substring_digits (s : string) :
  forall n m, all_digits s = true -> all_digits (substring n m s) = true.
Proof.
  unfold all_digits.
  induction s as [|c s IH]; intros n m H; simpl in *.
  - destruct n, m; reflexivity.
  - apply andb_prop in H. destruct H as [Hc Hs]. destruct n.
    + destruct m; simpl; [reflexivity|]. rewrite Hc. now apply IH.
    + now apply IH.
Qed.

Lemma length_zero_empty (s : string) : String.length s = 0%nat -> s = EmptyString.
Proof. destruct s; [reflexivity | discriminate]. Qed.

Lemma slice_from_m4_digits (s : string) :
  s <> EmptyString -> all_digits s = true ->
  Py.slice_from_m4 s <> EmptyString /\ all_digits (Py.slice_from_m4 s) = true /\
  ((4 <= String.length s)%nat -> String.length (Py.slice_from_m4 s) = 4%nat).
Proof.
  intros Hs Hd. unfold Py.slice_from_m4.
  assert (Hlen : String.length (substring (String.length s - 4) 4 s)
                 = Nat.min 4 (String.length s)).
  { rewrite substring_length. lia. }
  repeat split.
  - intros H. rewrite H in Hlen. simpl in Hlen.
    destruct s; [congruence | simpl in Hlen; lia].
  - now apply substring_digits.
  - intros. rewrite Hlen. lia.
Qed.

Lemma next_invoice_start_value (invoice_nos : list (string * string)) (new_start : string) :
  next_invoice_start invoice_nos = Ok new_start ->
  exists last sequence,
    In last (flat_map Py.findall_digits (map snd invoice_nos)) /\
    last <> EmptyString /\ all_digits last = true /\
    Py.int (Py.slice_from_m4 last) = Ok sequence /\ 0 <= sequence /\
    new_start = Py.fmt (Py.slice_to_m4 last) (sequence + 1).
Proof.
  unfold next_invoice_start. intros H.
  destruct (Py.max _) as [last|e] eqn:Hmax; [|discriminate H]. simpl in H.
  pose proof (max_in _ _ Hmax) as Hin.
  assert (Hrun : last <> EmptyString /\ all_digits last = true).
  { apply in_flat_map in Hin. destruct Hin as [s [_ Hs]].
    pose proof (findall_digits_runs s) as HF. rewrite Forall_forall in HF. now apply HF. }
  destruct Hrun as [Hne Hd].
  destruct (slice_from_m4_digits last Hne Hd) as [Hne' [Hd' _]].
  rewrite (int_digits _ Hne' Hd') in H. simpl in H. injection H as <-.
  exists last, (Z.of_N (horner (list_ascii_of_string (Py.slice_from_m4 last)) 0)).
  repeat split; auto. now apply int_digits. lia.
Qed.

(** The commit step returns a value exactly when some submitted invoice
    number holds a digit; otherwise [max] of the empty sequence raises
    [ValueError]. *)
Theorem next_invoice_start_defined (invoice_nos : list (string * string)) :
  (existsb (fun kv => negb (no_digit (snd kv))) invoice_nos = true ->
   exists new_start, next_invoice_start invoice_nos = Ok new_start) /\
  (existsb (fun kv => negb (no_digit (snd kv))) invoice_nos = false ->
   next_invoice_start invoice_nos = Raise ValueError).
Proof.
  split; intros H.
  - apply existsb_exists in H. destruct H as [[k v] [Hin Hv]]. simpl in Hv.
    assert (Hne : flat_map Py.findall_digits (map snd invoice_nos) <> []).
    { intros Hnil.
      assert (Hv' : Py.findall_digits v = []).
      { destruct (Py.findall_digits v) as [|d ds] eqn:Hf; [reflexivity|]. exfalso.
        assert (Hd : In d (flat_map Py.findall_digits (map snd invoice_nos))).
        { apply in_flat_map. exists v. split.
          - apply in_map_iff. now exists (k, v).
          - rewrite Hf. now left. }
        rewrite Hnil in Hd. destruct Hd. }
      apply findall_digits_none in Hv'. rewrite Hv' in Hv. discriminate Hv. }
    destruct (max_defined _ Hne) as [last Hmax].
    pose proof (max_in _ _ Hmax) as Hin'.
    apply in_flat_map in Hin'. destruct Hin' as [s [_ Hs]].
    pose proof (findall_digits_runs s) as HF. rewrite Forall_forall in HF.
    destruct (HF _ Hs) as [Hl Hd].
    destruct (slice_from_m4_digits last Hl Hd) as [Hne' [Hd' _]].
    unfold next_invoice_start. rewrite Hmax. simpl.
    rewrite (int_digits _ Hne' Hd'). simpl. eexists. reflexivity.
  - assert (Hnil : flat_map Py.findall_digits (map snd invoice_nos) = []).
    { induction invoice_nos as [|[k v] r IH]; [reflexivity|]. simpl in *.
      apply orb_false_elim in H. destruct H as [Hv Hr].
      apply negb_false_iff in Hv. apply findall_digits_none in Hv.
      rewrite Hv. simpl. now apply IH. }
    unfold next_invoice_start. now rewrite Hnil.
Qed.

Lemma length_fmt_ge (prefix : string) (v : Z) : (4 <= String.length (Py.fmt prefix v))%nat.
Proof. unfold Py.fmt. rewrite length_append, pad4_length. lia. Qed.

Lemma allocate_length (invoice_start : string) (n : nat) (codes : list string) :
  allocate invoice_start n = Ok codes -> List.length codes = n.
Proof.
  unfold allocate. destruct (Py.int _); simpl; [|discriminate].
  intros H. injection H as <-. now rewrite length_map, range_length.
Qed.

(** What the commit step stores is a run of at least four digits, so the
    allocator of the next period reads its sequence without error,
    whatever the number of accounts. *)
Theorem committed_start_feeds_allocator (invoice_nos : list (string * string))
    (new_start : string) (n_accts : nat) :
  next_invoice_start invoice_nos = Ok new_start ->
  all_digits new_start = true /\
  (4 <= String.length new_start)%nat /\
  exists codes, allocate new_start n_accts = Ok codes /\ List.length codes = n_accts.
Proof.
  intros H. destruct (next_invoice_start_value _ _ H)
    as [last [sequence [_ [Hne [Hd [_ [Hpos ->]]]]]]].
  assert (Hp : all_digits (Py.slice_to_m4 last) = true) by now apply substring_digits.
  destruct (fmt_all_digits (Py.slice_to_m4 last) (sequence + 1) Hp ltac:(lia)) as [Hne' Hd'].
  pose proof (length_fmt_ge (Py.slice_to_m4 last) (sequence + 1)) as Hlen.
  repeat split; auto.
  destruct (slice_from_m4_digits _ Hne' Hd') as [Hne2 [Hd2 _]].
  unfold allocate. rewrite (int_digits _ Hne2 Hd2). simpl.
  eexists. split; [reflexivity|]. now rewrite length_map, range_length.
Qed.

Lemma committed_start_feeds_allocator_witness :
  all_digits "015004" = true /\ (4 <= String.length "015004")%nat /\
  exists codes, allocate "015004" 2 = Ok codes /\ List.length codes = 2%nat.
Proof.
  apply (committed_start_feeds_allocator
           [("1001", "RT015001"); ("1002", "RT015002"); ("1003", "RT015003")]).
  reflexivity.
Defined.

Lemma map_seq_offset (a : Z) (n m : nat) :
  forall k,
  map (fun i => a + Z.of_nat i) (seq (n + k) m)
  = map (fun i => a + Z.of_nat n + Z.of_nat i) (seq k m).
Proof.
  induction m as [|m IH]; intros k; simpl; [reflexivity|].
  f_equal; [lia|]. rewrite <- IH. f_equal. f_equal. lia.
Qed.

Lemma range_app (a : Z) (n m : nat) :
  Py.range a (a + Z.of_nat (n + m))
  = (Py.range a (a + Z.of_nat n)
     ++ Py.range (a + Z.of_nat n) (a + Z.of_nat n + Z.of_nat m))%list.
Proof.
  unfold Py.range.
  replace (Z.to_nat (a + Z.of_nat (n + m) - a)) with (n + m)%nat by lia.
  replace (Z.to_nat (a + Z.of_nat n - a)) with n by lia.
  replace (Z.to_nat (a + Z.of_nat n + Z.of_nat m - (a + Z.of_nat n))) with m by lia.
  rewrite seq_app, map_app. f_equal. simpl.
  rewrite <- (map_seq_offset a n m 0). f_equal. f_equal. lia.
Qed.

(** Two periods in a row: with a code of eight digits and a first run that
    stays within 9999, the commit stores the code that follows the last one
    handed out, and the codes of the next run continue the first run: a
    single allocation over both runs yields the same codes. *)
Theorem allocation_continues_after_commit (prefix suffix : string)
    (accts : list string) (start : Z) (n_next : nat) :
  String.length prefix = 4%nat -> String.length suffix = 4%nat ->
  all_digits prefix = true -> all_digits suffix = true ->
  accts <> [] ->
  Py.int suffix = Ok start ->
  start + Z.of_nat (List.length accts) <= 9999 ->
  exists codes new_start later,
    allocate (prefix ++ suffix) (List.length accts) = Ok codes /\
    next_invoice_start (combine accts codes) = Ok new_start /\
    allocate new_start n_next = Ok later /\
    allocate (prefix ++ suffix) (List.length accts + n_next) = Ok (codes ++ later)%list.
Proof.
  intros Hp Hs Hdp Hds Hne Hint0 Hle.
  destruct (next_start_after_allocate prefix suffix accts Hp Hs Hdp Hds Hne)
    as [start' [codes [Hint [Halloc Hnext]]]].
  rewrite Hint0 in Hint. injection Hint as <-. rename Hint0 into Hint.
  destruct (four_digits_bound suffix Hs Hds) as [Hsne _].
  pose proof (int_digits suffix Hsne Hds) as Hint'.
  rewrite Hint in Hint'. injection Hint' as Hstart.
  set (n := List.length accts) in *.
  assert (Hpos : 0 <= start) by lia.
  exists codes, (Py.fmt prefix (start + Z.of_nat n)),
         (map (Py.fmt prefix)
              (Py.range (start + Z.of_nat n) (start + Z.of_nat n + Z.of_nat n_next))).
  split; [exact Halloc|]. split; [apply Hnext; lia|].
  assert (Hlen4 : String.length (Py.pad4 (Py.str (start + Z.of_nat n))) = 4%nat).
  { rewrite pad4_length.
    assert (String.length (Py.str (start + Z.of_nat n)) <= 4)%nat
      by (apply str_length_le4; lia).
    lia. }
  split.
  - change (Py.fmt prefix (start + Z.of_nat n))
      with (prefix ++ Py.pad4 (Py.str (start + Z.of_nat n))).
    unfold allocate.
    rewrite (slice_from_m4_append _ _ Hlen4), (slice_to_m4_append _ _ Hlen4).
    rewrite int_pad4_str by lia. reflexivity.
  - unfold allocate in *.
    rewrite (slice_from_m4_append _ _ Hs), (slice_to_m4_append _ _ Hs) in *.
    rewrite Hint in *. simpl in *. injection Halloc as <-.
    rewrite range_app, map_app. reflexivity.
Qed.

Lemma allocation_continues_after_commit_witness :
  exists codes new_start later,
    allocate ("2015" ++ "5001") (List.length ["1001"; "1002"; "1003"]) = Ok codes /\
    next_invoice_start (combine ["1001"; "1002"; "1003"] codes) = Ok new_start /\
    allocate new_start 2 = Ok later /\
    allocate ("2015" ++ "5001") (List.length ["1001"; "1002"; "1003"] + 2)
    = Ok (codes ++ later)%list.
Proof.
  apply (allocation_continues_after_commit "2015" "5001" ["1001"; "1002"; "1003"] 5001 2);
    try reflexivity; [discriminate | simpl; lia].
Defined.

(** * Further properties of [post] *)

Lemma for_each_ok_each {A S : Type} (body : S -> A -> result S) (xs : list A) :
  forall s s', for_each xs body s = Ok s' ->
  Forall (fun x => exists s1 s2, body s1 x = Ok s2) xs.
Proof.
  induction xs as [|x xs IH]; intros s s' H; [constructor|].
  rewrite for_each_cons in H. destruct (body s x) as [s1|e] eqn:Hb; [|discriminate H].
  simpl in H. constructor; [now exists s, s1 | now apply (IH s1 s')].
Qed.

Lemma groupby_covers {A K : Type} (eqb leb : K -> K -> bool) (key : A -> K)
    (df : list A) (x : A) :
  (forall a b, eqb a b = true <-> a = b) ->
  In x df ->
  In (key x, filter (fun r => eqb (key r) (key x)) df) (Pd.groupby eqb leb key df) /\
  In x (filter (fun r => eqb (key r) (key x)) df).
Proof.
  intros eqb_eq Hx. split.
  - unfold Pd.groupby. apply in_map_iff. exists (key x). split; [reflexivity|].
    apply sort_in. apply drop_duplicates_in; [assumption|]. now apply in_map.
  - apply filter_In. split; [assumption|]. now apply eqb_eq.
Qed.

Lemma dict_get_in {V : Type} (d : list (string * V)) (k : string) (v : V) :
  Dict.get String.eqb d k = Ok v -> In (k, v) d.
Proof.
  induction d as [|[k' v'] d IH]; simpl; [discriminate|].
  destruct (String.eqb_spec k' k) as [-> | Hne].
  - intros H. injection H as <-. now left.
  - intros H. right. now apply IH.
Qed.


(** ** Order of the checks of [post] *)

(** The numbering formset is read first: when it is invalid or all its
    forms are empty, [post] raises instead of answering with the form. An
    invalid path form comes next and is answered with [form_invalid]; the
    snapshot is only read after both. Nothing is written in any of these
    cases. *)
Theorem post_checks_in_order (rq : request) (w : world) :
  (inv_formset rq = Invalid -> post rq w = (Raise AttributeError, w)) /\
  (forall clean_data, inv_formset rq = Valid clean_data ->
     (non_empty clean_data = [] -> post rq w = (Raise AttributeError, w)) /\
     (non_empty clean_data <> [] ->
        (savepath_form rq = Invalid -> post rq w = (Ok Form_invalid, w)) /\
        (forall savepath_clean_data,
           savepath_form rq = Valid savepath_clean_data -> hdf_store w = None ->
           post rq w = (Raise KeyError, w)))).
Proof.
  unfold post, post_arguments, validate_field, validate_form, tolist, get_cached_data.
  split; [intros ->; reflexivity|].
  intros cd ->. split; [intros ->; reflexivity|].
  intros Hne. destruct (non_empty cd) as [|x r]; [congruence|]. simpl.
  split; [intros ->; reflexivity|].
  intros sp -> ->. reflexivity.
Qed.

Lemma dict_set_fresh {V : Type} (d : list (string * V)) (k : string) (v : V) :
  ~ In k (map fst d) -> Dict.set String.eqb d k v = (d ++ [(k, v)])%list.
Proof.
  induction d as [|[k' v'] d IH]; simpl; intros Hk; [reflexivity|].
  destruct (String.eqb_spec k' k) as [-> | Hne]; [tauto|].
  f_equal. apply IH. tauto.
Qed.

Lemma post_loop_appends (rq : request) (ps : list (string * string)) :
  forall mask adjs nos mask' adjs' nos',
  for_each ps (post_body rq) (mask, adjs, nos) = Ok (mask', adjs', nos') ->
  NoDup (map fst nos ++ map fst ps) -> map fst adjs = map fst nos ->
  nos' = (nos ++ ps)%list /\
  adjs' = (adjs ++ map (fun p => adjustments_entry rq (fst p)) ps)%list /\
  mask' = (mask ++ flat_map (fun p => include_flags rq (fst p)) ps)%list.
Proof.
  induction ps as [|[a i] ps IH]; intros mask adjs nos mask' adjs' nos' H Hnd Hkeys.
  - simpl in H. injection H as <- <- <-. now rewrite !List.app_nil_r.
  - rewrite for_each_cons in H. unfold post_body at 1 in H.
    unfold include_flags at 1.
    destruct (include_formset rq a) as [|flags] eqn:Hinc; simpl in H; [discriminate H|].
    unfold validate_field, validate_form in H.
    destruct (non_empty flags) as [|f fs] eqn:Hfl; simpl in H; [discriminate H|].
    assert (Hfresh : ~ In a (map fst nos)).
    { simpl in Hnd. apply NoDup_remove_2 in Hnd. intros Hin. apply Hnd.
      apply in_or_app. now left. }
    rewrite !dict_set_fresh in H by (try rewrite Hkeys; exact Hfresh).
    apply IH in H.
    + destruct H as [-> [-> ->]]. simpl. rewrite <- !List.app_assoc. simpl.
      rewrite Hinc, Hfl. repeat split.
    + rewrite map_app. simpl. rewrite <- List.app_assoc. exact Hnd.
    + rewrite !map_app. simpl. now rewrite Hkeys.
Qed.

Lemma map_fst_combine {A B : Type} (xs : list A) :
  forall ys : list B, map fst (combine xs ys) = firstn (List.length ys) xs.
Proof.
  induction xs as [|x xs IH]; intros [|y ys]; simpl; try reflexivity.
  now rewrite IH.
Qed.

Lemma in_firstn {A : Type} (x : A) (l : list A) :
  forall n, In x (firstn n l) -> In x l.
Proof.
  induction l as [|y l IH]; intros [|n]; simpl; try tauto.
  intros [H | H]; [now left | right; now apply (IH n)].
Qed.

Lemma NoDup_firstn {A : Type} (n : nat) (l : list A) : NoDup l -> NoDup (firstn n l).
Proof.
  revert n. induction l as [|x l IH]; intros [|n] H; simpl; try constructor.
  - inversion H as [|? ? Hx Hl]; subst. intros Hin. apply Hx.
    now apply (in_firstn x l n).
  - inversion H; subst. now apply IH.
Qed.

Lemma post_arguments_spec (rq : request) (w : world)
    (savepath_clean_data : savepath) (selected : Pd.frame job)
    (adjustments : adjustments_dict) (invoice_nos : invoice_nos_dict) :
  post_arguments rq w = Ok (Some (savepath_clean_data, selected, adjustments, invoice_nos)) ->
  exists cached invoice_no_list,
    hdf_store w = Some cached /\
    tolist (validate_field (inv_formset rq)) = Ok invoice_no_list /\
    let billing_data := filter (fun r => cat r =? cat_id rq) cached in
    let accts := Pd.drop_duplicates String.eqb (map acct billing_data) in
    invoice_nos = combine accts invoice_no_list /\
    adjustments = map (adjustments_entry rq) (firstn (List.length invoice_no_list) accts) /\
    Pd.getitem billing_data
      (flat_map (include_flags rq) (firstn (List.length invoice_no_list) accts))
    = Ok selected.
Proof.
  unfold post_arguments. intros H.
  destruct (tolist (validate_field (inv_formset rq))) as [invoice_no_list|e] eqn:Hl;
    [|discriminate H].
  simpl in H. destruct (savepath_form rq) as [|sp]; [discriminate H|].
  unfold get_cached_data in H.
  destruct (hdf_store w) as [cached|] eqn:Hstore; [|discriminate H]. simpl in H.
  exists cached, invoice_no_list. split; [reflexivity|]. split; [reflexivity|].
  cbv zeta.
  set (billing_data := filter (fun r => cat r =? cat_id rq) cached) in *.
  set (accts := Pd.drop_duplicates String.eqb (map acct billing_data)) in *.
  destruct (for_each (combine accts invoice_no_list) (post_body rq) ([], [], []))
    as [[[mask adjs] nos]|e] eqn:Hloop; [|discriminate H].
  simpl in H.
  destruct (Pd.getitem billing_data mask) as [sel|e] eqn:Hsel; [|discriminate H].
  simpl in H. injection H as <- <- <- <-.
  apply post_loop_appends in Hloop; [|rewrite map_fst_combine; simpl | reflexivity].
  - destruct Hloop as [-> [-> ->]]. simpl in *.
    repeat split.
    + rewrite <- map_fst_combine. now rewrite map_map.
    + rewrite <- map_fst_combine. rewrite <- Hsel. f_equal.
      rewrite !flat_map_concat_map, map_map. reflexivity.
  - apply NoDup_firstn. apply drop_duplicates_nodup. apply string_eqb_eq.
Qed.




(** * The invoice register *)

Section RegisterFacts.

Local Open Scope Q_scope.


Lemma sigma_app (xs ys : list Q) : sigma (xs ++ ys) == sigma xs + sigma ys.
Proof.
  induction xs as [|x xs IH]; simpl; [ring|]. rewrite IH. ring.
Qed.

Lemma sum_sigma (xs : list Q) : Pd.sum xs == sigma xs.
Proof.
  induction xs as [|x xs IH]; [reflexivity|].
  rewrite sum_cons, IH. reflexivity.
Qed.

Lemma py_sum_sigma (xs : list Q) : py_sum xs == sigma xs.
Proof. exact (sum_sigma xs). Qed.

Lemma sigma_ext {A : Type} (f g : A -> Q) (l : list A) :
  (forall x, In x l -> f x == g x) -> sigma (map f l) == sigma (map g l).
Proof.
  induction l as [|x l IH]; intros H; simpl; [reflexivity|].
  rewrite (H x) by now left. rewrite IH; [reflexivity|].
  intros y Hy. apply H. now right.
Qed.

Lemma sigma_plus {A : Type} (f g : A -> Q) (l : list A) :
  sigma (map (fun x => f x + g x) l) == sigma (map f l) + sigma (map g l).
Proof.
  induction l as [|x l IH]; simpl; [ring|]. rewrite IH. ring.
Qed.

Lemma sigma_zero {A : Type} (l : list A) : sigma (map (fun _ => 0) l) == 0.
Proof. induction l as [|x l IH]; simpl; [reflexivity|]. rewrite IH. ring. Qed.

Section Partition.

Context {A K : Type} (eqb : K -> K -> bool).
Hypothesis eqb_eq : forall x y, eqb x y = true <-> x = y.

Lemma sigma_indicator (c : Q) (k0 : K) (ks : list K) :
  NoDup ks -> In k0 ks ->
  sigma (map (fun k => if eqb k0 k then c else 0) ks) == c.
Proof.
  induction ks as [|k ks IH]; intros Hnd Hin; [destruct Hin|].
  inversion Hnd as [|? ? Hk Hks]; subst. simpl.
  destruct (eqb k0 k) eqn:E.
  - apply eqb_eq in E. subst k.
    rewrite (sigma_ext _ (fun _ => 0)), sigma_zero; [ring|].
    intros x Hx. destruct (eqb k0 x) eqn:E'; [|reflexivity].
    apply eqb_eq in E'. subst x. contradiction.
  - destruct Hin as [-> | Hin].
    + assert (eqb k0 k0 = true) by now apply eqb_eq. congruence.
    + rewrite IH by assumption. ring.
Qed.

(** A sum over a frame is the sum over its groups. *)
Lemma sigma_partition (key : A -> K) (f : A -> Q) (ks : list K) (l : list A) :
  NoDup ks -> (forall x, In x l -> In (key x) ks) ->
  sigma (map f l)
  == sigma (map (fun k => sigma (map f (filter (fun r => eqb (key r) k) l))) ks).
Proof.
  intros Hnd. induction l as [|x l IH]; intros Hin.
  - simpl. now rewrite sigma_zero.
  - simpl map at 1. simpl sigma at 1.
    rewrite IH by (intros y Hy; apply Hin; now right).
    rewrite <- (sigma_indicator (f x) (key x) ks Hnd) at 1 by (apply Hin; now left).
    rewrite <- sigma_plus. apply sigma_ext. intros k _. simpl.
    destruct (eqb (key x) k); simpl; ring.
Qed.

Lemma sigma_groupby (leb : K -> K -> bool) (key : A -> K) (f : A -> Q) (l : list A) :
  sigma (map f l)
  == sigma (map (fun g => sigma (map f (snd g))) (Pd.groupby eqb leb key l)).
Proof.
  unfold Pd.groupby. rewrite map_map. simpl.
  apply sigma_partition.
  - apply (Permutation_NoDup (sort_perm leb _)).
    now apply drop_duplicates_nodup.
  - intros x Hx. apply sort_in. apply drop_duplicates_in; [assumption|].
    now apply in_map.
Qed.

End Partition.

Lemma sigma_cons (x : Q) (xs : list Q) : sigma (x :: xs) = x + sigma xs.
Proof. reflexivity. Qed.

Lemma accounts_sum_app (i : nat) (l1 l2 : list (list cell)) :
  accounts_sum i (l1 ++ l2) == accounts_sum i l1 + accounts_sum i l2.
Proof. unfold accounts_sum. now rewrite filter_app, map_app, sigma_app. Qed.

Lemma included_truthy (invoice_nos : invoice_nos_dict) (a v : string) :
  NoDup (map fst invoice_nos) ->
  existsb (String.eqb a) (included_accts_of invoice_nos) = true ->
  Dict.get String.eqb invoice_nos a = Ok v -> Py.truthy v = true.
Proof.
  unfold included_accts_of.
  induction invoice_nos as [|[k v0] r IH]; simpl; intros Hnd Hin Hget; [discriminate|].
  inversion Hnd as [|? ? Hk Hr]; subst.
  destruct (String.eqb_spec k a) as [-> | Hne].
  - injection Hget as <-. destruct (Py.truthy v0) eqn:Ht; [reflexivity|]. exfalso.
    apply existsb_exists in Hin. destruct Hin as [x [Hx Hax]].
    apply String.eqb_eq in Hax. subst x. apply Hk.
    apply in_map_iff in Hx. destruct Hx as [[k' v'] [Hk' Hx]]. simpl in Hk'. subst k'.
    apply filter_In in Hx. apply in_map_iff. exists (a, v'). tauto.
  - apply IH; auto. destruct (Py.truthy v0); [|exact Hin]. simpl in Hin.
    destruct (String.eqb_spec a k); [congruence | exact Hin].
Qed.

Lemma truthy_commas (s : string) : Py.truthy (Py.commas_to_newlines s) = Py.truthy s.
Proof. destruct s; reflexivity. Qed.

Lemma register_acct_body_line (all_accounts : list MacolaAcct)
    (adjustments : adjustments_dict) (invoice_nos : invoice_nos_dict)
    (table table' : list (list cell)) (pa pa' : list Q) (a : string) (adf : list job) :
  NoDup (map fst invoice_nos) ->
  register_acct_body all_accounts adjustments invoice_nos (included_accts_of invoice_nos)
                     (table, pa) (a, adf) = Ok (table', pa') ->
  (existsb (String.eqb a) (included_accts_of invoice_nos) = false /\
   table' = table /\ pa' = pa) \/
  (existsb (String.eqb a) (included_accts_of invoice_nos) = true /\
   exists line adj,
     table' = (table ++ [line])%list /\ pa' = (pa ++ [adj])%list /\
     account_line line = true /\
     column 2 line = Pd.sum (map sales adf) /\
     column 3 line = Pd.sum (map tax adf) /\
     column 4 line = adj /\
     column 5 line = (Pd.sum (map sales adf) + Pd.sum (map tax adf)) + adj).
Proof.
  intros Hnd H. unfold register_acct_body in H.
  destruct (Dict.get String.eqb adjustments a) as [adj_df|e]; [|discriminate H].
  simpl in H.
  destruct (existsb (String.eqb a) (included_accts_of invoice_nos)) eqn:Hinc; simpl in H.
  - right. split; [reflexivity|].
    destruct (get_acct all_accounts a) as [o|]; [|discriminate H]. simpl in H.
    destruct (Dict.get String.eqb invoice_nos a) as [invoice_no|e] eqn:Hget;
      [|discriminate H].
    simpl in H. injection H as <- <-.
    eexists. eexists. split; [reflexivity|]. split; [reflexivity|].
    split; [|repeat split].
    simpl. rewrite truthy_commas. now apply (included_truthy invoice_nos a).
  - left. injection H as <- <-. repeat split.
Qed.

Lemma included_amount_group (inc : list string) (f : job -> Q) (a : string)
    (adf : list job) :
  (forall r, In r adf -> acct r = a) ->
  sigma (map (included_amount inc f) adf)
  == if existsb (String.eqb a) inc then sigma (map f adf) else 0.
Proof.
  intros Hrows. destruct (existsb (String.eqb a) inc) eqn:E.
  - apply sigma_ext. intros r Hr. unfold included_amount, isin.
    rewrite (Hrows r Hr), E. reflexivity.
  - rewrite (sigma_ext _ (fun _ => 0)); [apply sigma_zero|].
    intros r Hr. unfold included_amount, isin. rewrite (Hrows r Hr), E. reflexivity.
Qed.

Lemma register_acct_loop (all_accounts : list MacolaAcct)
    (adjustments : adjustments_dict) (invoice_nos : invoice_nos_dict)
    (gs : list (string * list job)) :
  NoDup (map fst invoice_nos) ->
  Forall (fun g => forall r, In r (snd g) -> acct r = fst g) gs ->
  forall table pa table' pa',
  for_each gs (register_acct_body all_accounts adjustments invoice_nos
                                  (included_accts_of invoice_nos)) (table, pa)
  = Ok (table', pa') ->
  exists lines adjs,
    table' = (table ++ lines)%list /\ pa' = (pa ++ adjs)%list /\
    filter account_line lines = lines /\
    accounts_sum 2 lines
    == sigma (map (fun g => sigma (map (included_amount (included_accts_of invoice_nos) sales)
                                      (snd g))) gs) /\
    accounts_sum 3 lines
    == sigma (map (fun g => sigma (map (included_amount (included_accts_of invoice_nos) tax)
                                      (snd g))) gs) /\
    accounts_sum 4 lines == sigma adjs /\
    accounts_sum 5 lines
    == accounts_sum 2 lines + accounts_sum 3 lines + accounts_sum 4 lines.
Proof.
  intros Hnd HF. induction HF as [|[a adf] gs Hg HF IH]; intros table pa table' pa' H.
  - simpl in H. injection H as <- <-. exists [], [].
    rewrite !List.app_nil_r. unfold accounts_sum. simpl. repeat split; try reflexivity; try ring.
  - rewrite for_each_cons in H.
    destruct (register_acct_body _ _ _ _ (table, pa) (a, adf)) as [[t1 p1]|e] eqn:Hb;
      [|discriminate H].
    simpl in H. apply IH in H. destruct H as [lines [adjs [-> [-> [Hf [H2 [H3 [H4 H5]]]]]]]].
    simpl in Hg.
    apply register_acct_body_line in Hb; [|assumption].
    pose proof (included_amount_group (included_accts_of invoice_nos) sales a adf Hg) as G2.
    pose proof (included_amount_group (included_accts_of invoice_nos) tax a adf Hg) as G3.
    destruct Hb as [[Hinc [-> ->]] | [Hinc [line [adj [-> [-> [Hl [C2 [C3 [C4 C5]]]]]]]]]];
      rewrite Hinc in G2, G3.
    + exists lines, adjs. rewrite !map_cons, !sigma_cons. cbn [snd].
      repeat split; auto.
      * rewrite H2, G2. ring.
      * rewrite H3, G3. ring.
    + exists (line :: lines), (adj :: adjs). rewrite <- !List.app_assoc.
      rewrite !map_cons, !sigma_cons. cbn [snd app].
      assert (Hs : forall i, accounts_sum i (line :: lines)
                             == column i line + accounts_sum i lines).
      { intros i. unfold accounts_sum. simpl filter. rewrite Hl. reflexivity. }
      repeat split; auto.
      * simpl filter. now rewrite Hl, Hf.
      * rewrite Hs, H2, G2, C2, sum_sigma. reflexivity.
      * rewrite Hs, H3, G3, C3, sum_sigma. reflexivity.
      * rewrite Hs, H4, C4. reflexivity.
      * rewrite !Hs, H5, C5, C2, C3, C4. ring.
Qed.

Lemma sigma_included (inc : list string) (f : job -> Q) (l : list job) :
  sigma (map (included_amount inc f) l) == sigma (map f (filter (isin inc) l)).
Proof.
  induction l as [|r l IH]; [reflexivity|]. simpl. unfold included_amount at 1.
  destruct (isin inc r); simpl; rewrite IH; ring.
Qed.

Lemma groupby_acct_rows (df : list job) :
  Forall (fun g => forall r, In r (snd g) -> acct r = fst g) (groupby_acct df).
Proof.
  apply Forall_forall. intros [a adf] Hg r Hr. simpl in *.
  unfold groupby_acct, Pd.groupby in Hg. apply in_map_iff in Hg.
  destruct Hg as [k [Hk _]]. injection Hk as <- <-.
  apply filter_In in Hr. destruct Hr as [_ Hr]. now apply String.eqb_eq in Hr.
Qed.

Lemma register_provider_body_lines (w : world)
    (adjustments : adjustments_dict) (invoice_nos : invoice_nos_dict)
    (table table' : list (list cell)) (ta ta' : list Q) (g : Z * list job) :
  NoDup (map fst invoice_nos) ->
  register_provider_body w adjustments invoice_nos (included_accts_of invoice_nos)
                         (table, ta) g = Ok (table', ta') ->
  exists lines adj,
    table' = (table ++ lines)%list /\ ta' = (ta ++ [adj])%list /\
    accounts_sum 2 lines
    == sigma (map (included_amount (included_accts_of invoice_nos) sales) (snd g)) /\
    accounts_sum 3 lines
    == sigma (map (included_amount (included_accts_of invoice_nos) tax) (snd g)) /\
    accounts_sum 4 lines == adj /\
    accounts_sum 5 lines
    == accounts_sum 2 lines + accounts_sum 3 lines + accounts_sum 4 lines.
Proof.
  intros Hnd H. destruct g as [pid pdf]. unfold register_provider_body in H.
  destruct (for_each (groupby_acct pdf) _ (table, [])) as [[t1 pa]|e] eqn:Hloop;
    [|discriminate H].
  simpl in H.
  apply register_acct_loop in Hloop; [|assumption|apply groupby_acct_rows].
  destruct Hloop as [lines [adjs [-> [-> [Hf [H2 [H3 [H4 H5]]]]]]]]. simpl in H.
  assert (G : forall f, sigma (map (fun g => sigma (map (included_amount
                           (included_accts_of invoice_nos) f) (snd g))) (groupby_acct pdf))
                        == sigma (map (included_amount (included_accts_of invoice_nos) f) pdf)).
  { intros f. symmetry. apply (sigma_groupby String.eqb string_eqb_eq). }
  rewrite G in H2, H3.
  pose proof (py_sum_sigma adjs) as Hpy.
  set (prov_adj_sum := py_sum adjs) in *.
  destruct (set_totals (get_provider (BillToProvider_objects w) pid) pdf) as [p|].
  - destruct (Py.truthy (bp_short_name (bp p))); [|discriminate H]. simpl in H.
    injection H as <- <-.
    eexists. exists prov_adj_sum. rewrite <- List.app_assoc.
    split; [reflexivity|]. split; [reflexivity|].
    assert (Hs : forall i line, account_line line = false ->
                 accounts_sum i (lines ++ [line]) == accounts_sum i lines).
    { intros i line Hl. rewrite accounts_sum_app. unfold accounts_sum at 2.
      simpl. rewrite Hl. simpl. ring. }
    rewrite !Hs by reflexivity.
    rewrite H5, H2, H3, H4, Hpy. repeat split; ring.
  - injection H as <- <-. exists lines, prov_adj_sum.
    repeat split; auto. now rewrite H4, Hpy.
Qed.

Lemma register_provider_loop (w : world)
    (adjustments : adjustments_dict) (invoice_nos : invoice_nos_dict)
    (pgs : list (Z * list job)) :
  NoDup (map fst invoice_nos) ->
  forall table ta table' ta',
  for_each pgs (register_provider_body w adjustments invoice_nos
                                       (included_accts_of invoice_nos)) (table, ta)
  = Ok (table', ta') ->
  exists lines adjs,
    table' = (table ++ lines)%list /\ ta' = (ta ++ adjs)%list /\
    accounts_sum 2 lines
    == sigma (map (fun g => sigma (map (included_amount (included_accts_of invoice_nos) sales)
                                      (snd g))) pgs) /\
    accounts_sum 3 lines
    == sigma (map (fun g => sigma (map (included_amount (included_accts_of invoice_nos) tax)
                                      (snd g))) pgs) /\
    accounts_sum 4 lines == sigma adjs /\
    accounts_sum 5 lines
    == accounts_sum 2 lines + accounts_sum 3 lines + accounts_sum 4 lines.
Proof.
  intros Hnd. induction pgs as [|g pgs IH]; intros table ta table' ta' H.
  - simpl in H. injection H as <- <-. exists [], [].
    rewrite !List.app_nil_r. unfold accounts_sum. simpl.
    repeat split; try reflexivity; try ring.
  - rewrite for_each_cons in H.
    destruct (register_provider_body _ _ _ _ (table, ta) g) as [[t1 a1]|e] eqn:Hb;
      [|discriminate H].
    simpl in H. apply IH in H.
    destruct H as [lines [adjs [-> [-> [H2 [H3 [H4 H5]]]]]]].
    apply register_provider_body_lines in Hb; [|assumption].
    destruct Hb as [lines0 [adj [-> [-> [G2 [G3 [G4 G5]]]]]]].
    exists (lines0 ++ lines)%list, (adj :: adjs). rewrite <- !List.app_assoc.
    rewrite !map_cons, !sigma_cons, !accounts_sum_app. cbn [app].
    repeat split; auto.
    + now rewrite G2, H2.
    + now rewrite G3, H3.
    + now rewrite G4, H4.
    + rewrite G5, H5. ring.
Qed.

(** The sums of the columns of a register over its account lines. *)
Lemma register_table_adds_up (w : world) (category_o : option category_obj)
    (savepath_clean_data : savepath) (df : list job)
    (adjustments : adjustments_dict) (invoice_nos : invoice_nos_dict)
    (cat_des month_yr : string) (table_data : list (list cell)) :
  NoDup (map fst invoice_nos) ->
  register w category_o savepath_clean_data (Pd.Frame df) adjustments invoice_nos
  = Ok (Register_pdf cat_des month_yr table_data) ->
  exists lines totals_line,
    table_data = (register_header :: lines ++ [totals_line])%list /\
    account_line totals_line = false /\
    accounts_sum 2 lines == column 2 totals_line /\
    accounts_sum 3 lines == column 3 totals_line /\
    accounts_sum 4 lines == column 4 totals_line /\
    accounts_sum 5 lines == column 5 totals_line /\
    column 5 totals_line
    == column 2 totals_line + column 3 totals_line + column 4 totals_line /\
    column 2 totals_line
    = Pd.sum (map sales (filter (isin (included_accts_of invoice_nos)) df)) /\
    column 3 totals_line
    = Pd.sum (map tax (filter (isin (included_accts_of invoice_nos)) df)).
Proof.
  intros Hnd H. unfold register in H. simpl in H.
  destruct (for_each (groupby_provider df) _ ([register_header], []))
    as [[table ta]|e] eqn:Hloop; [|discriminate H].
  simpl in H. destruct category_o as [c|]; [|discriminate H]. simpl in H.
  injection H as <- <- <-.
  apply register_provider_loop in Hloop; [|assumption].
  destruct Hloop as [lines [adjs [-> [-> [H2 [H3 [H4 H5]]]]]]].
  assert (G : forall f, sigma (map (fun g => sigma (map (included_amount
                           (included_accts_of invoice_nos) f) (snd g))) (groupby_provider df))
                        == Pd.sum (map f (filter (isin (included_accts_of invoice_nos)) df))).
  { intros f. rewrite sum_sigma, <- sigma_included. symmetry.
    apply (sigma_groupby Z.eqb Z.eqb_eq). }
  rewrite G in H2, H3.
  eexists lines, _. split; [reflexivity|].
  unfold column. simpl. unfold Dec. rewrite py_sum_sigma.
  repeat split; auto; try ring.
  rewrite H5, H2, H3, H4. ring.
Qed.


End RegisterFacts.


(** * The loops of [get_billing_data] over providers and accounts *)

Lemma acct_loop_indexed (accts : list MacolaAcct) (forms : list string)
    (p : option provider_obj) (gs : list (string * list job)) :
  forall st st',
  for_each gs (acct_body accts forms p) st = Ok st' ->
  invoice_no_idx st' = (invoice_no_idx st + List.length gs)%nat /\
  (List.length gs = 0 \/
   invoice_no_idx st + List.length gs <= List.length forms)%nat /\
  needed st' = (needed st + match p with
                            | Some _ => 0
                            | None => List.length (filter (lacks_macola accts) (map fst gs))
                            end)%nat /\
  Forall (fun g => get_acct accts (fst g) <> None) gs /\
  exists entries,
    appended st' = (appended st ++ entries)%list /\
    Forall (fun e => exists i g,
              nth_error gs i = Some g /\ In (job_of e) (snd g) /\
              provider_of e = p /\
              invoice_no_form (acct_of e) = nth_error forms (invoice_no_idx st + i))
           entries.
Proof.
  induction gs as [|[a adf] gs IH]; intros st st' H.
  - simpl in H. injection H as <-. simpl. rewrite !Nat.add_0_r.
    repeat split; try lia; [destruct p; simpl; lia | constructor |].
    exists []. now rewrite List.app_nil_r.
  - rewrite for_each_cons in H.
    destruct (acct_body accts forms p st (a, adf)) as [st1|e] eqn:Hb; [|discriminate H].
    simpl in H. apply IH in H. destruct H as [Hidx [Hle [Hneed [Hall [entries [Happ HF]]]]]].
    unfold acct_body in Hb. unfold item in Hb.
    destruct (nth_error forms (invoice_no_idx st)) as [form|] eqn:Hform; [|discriminate Hb].
    simpl in Hb.
    destruct (get_acct accts a) as [o|] eqn:Hacct; [|discriminate Hb].
    simpl in Hb. injection Hb as <-. cbn [invoice_no_idx needed appended] in *.
    assert (Hlt : (invoice_no_idx st < List.length forms)%nat).
    { apply nth_error_Some. congruence. }
    repeat split; try (simpl List.length; lia).
    + rewrite Hneed. destruct p; [simpl; lia|]. simpl. unfold lacks_macola at 2.
      rewrite Hacct. destruct (Py.truthy (macola_No (ma o))); simpl; lia.
    + constructor; [simpl; congruence | exact Hall].
    + eexists. rewrite Happ, <- List.app_assoc. split; [reflexivity|].
      apply Forall_app. split.
      * apply Forall_forall. intros e He. apply in_map_iff in He.
        destruct He as [j [<- Hj]]. exists 0%nat, (a, adf). simpl.
        rewrite Nat.add_0_r. repeat split; auto.
      * eapply Forall_impl; [|exact HF]. intros e [i [g [Hg [Hj [Hp Hf]]]]].
        exists (S i), g. simpl. repeat split; auto.
        rewrite Hf. f_equal. lia.
Qed.

Lemma acct_loop_returns (accts : list MacolaAcct) (forms : list string)
    (p : option provider_obj) (gs : list (string * list job)) :
  forall st,
  Forall (fun g => get_acct accts (fst g) <> None) gs ->
  (invoice_no_idx st + List.length gs <= List.length forms)%nat ->
  exists st', for_each gs (acct_body accts forms p) st = Ok st'.
Proof.
  induction gs as [|[a adf] gs IH]; intros st Hall Hle.
  - eexists. reflexivity.
  - inversion Hall as [|? ? Ha Hrest]; subst. simpl in Ha, Hle.
    rewrite for_each_cons. unfold acct_body at 1. unfold item.
    destruct (nth_error forms (invoice_no_idx st)) as [form|] eqn:Hform.
    + simpl. destruct (get_acct accts a) as [o|]; [|congruence]. simpl.
      apply IH; [assumption | simpl; lia].
    + apply nth_error_None in Hform. lia.
Qed.

Lemma provider_loop_indexed (provs : list BillToProvider) (accts : list MacolaAcct)
    (forms : list string) (pgs : list (Z * list job)) :
  forall st st',
  for_each pgs (provider_body provs accts forms) st = Ok st' ->
  invoice_no_idx st' = (invoice_no_idx st + List.length (visited_groups pgs))%nat /\
  (List.length (visited_groups pgs) = 0 \/
   invoice_no_idx st + List.length (visited_groups pgs) <= List.length forms)%nat /\
  needed st'
  = (needed st
     + List.length (filter (fun g => no_provider provs (fst g)
                                     && lacks_macola accts (fst (snd g)))
                           (visited_groups pgs)))%nat /\
  Forall (fun g => get_acct accts (fst (snd g)) <> None) (visited_groups pgs) /\
  exists entries,
    appended st' = (appended st ++ entries)%list /\
    Forall (fun e => exists i g,
              nth_error (visited_groups pgs) i = Some g /\
              In (job_of e) (snd (snd g)) /\
              (provider_of e = None <-> no_provider provs (fst g) = true) /\
              invoice_no_form (acct_of e) = nth_error forms (invoice_no_idx st + i))
           entries.
Proof.
  induction pgs as [|[pid pdf] pgs IH]; intros st st' H.
  - simpl in H. injection H as <-. simpl. rewrite !Nat.add_0_r.
    repeat split; try lia; [constructor|].
    exists []. now rewrite List.app_nil_r.
  - rewrite for_each_cons in H.
    destruct (provider_body provs accts forms st (pid, pdf)) as [st1|e] eqn:Hb;
      [|discriminate H].
    simpl in H. apply IH in H.
    destruct H as [Hidx [Hle [Hneed [Hall [entries [Happ HF]]]]]].
    unfold provider_body in Hb. apply acct_loop_indexed in Hb.
    destruct Hb as [Hidx1 [Hle1 [Hneed1 [Hall1 [entries1 [Happ1 HF1]]]]]].
    unfold visited_groups. simpl flat_map. fold (visited_groups pgs).
    rewrite !length_app, !length_map, filter_app, length_app.
    assert (Hnp : set_totals (get_provider provs pid) pdf = None
                  <-> no_provider provs pid = true).
    { unfold no_provider, set_totals. destruct (get_provider provs pid); simpl;
        split; congruence. }
    repeat split; try lia.
    + rewrite Hneed, Hneed1. rewrite <- Nat.add_assoc. f_equal. f_equal.
      remember (groupby_acct pdf) as gs. clear - Hnp.
      destruct (set_totals (get_provider provs pid) pdf) as [p|].
      * assert (Hf : no_provider provs pid = false).
        { destruct (no_provider provs pid); [|reflexivity].
          destruct Hnp as [_ Hnp]. discriminate (Hnp eq_refl). }
        induction gs as [|g gs IHg]; simpl; [reflexivity|]. now rewrite Hf.
      * assert (Ht : no_provider provs pid = true) by now apply Hnp.
        induction gs as [|g gs IHg]; simpl; [reflexivity|]. rewrite Ht. simpl.
        destruct (lacks_macola accts (fst g)); simpl; now rewrite IHg.
    + apply Forall_app. split; [|exact Hall].
      apply Forall_forall. intros g Hg. apply in_map_iff in Hg.
      destruct Hg as [ag [<- Hag]]. simpl. rewrite Forall_forall in Hall1. now apply Hall1.
    + exists (entries1 ++ entries)%list. rewrite Happ, Happ1, <- List.app_assoc.
      split; [reflexivity|]. apply Forall_app. split.
      * eapply Forall_impl; [|exact HF1]. intros e [i [g [Hg [Hj [Hp Hf]]]]].
        exists i, (pid, g). simpl. repeat split; auto.
        -- rewrite nth_error_app1; [now apply map_nth_error|].
           rewrite length_map. apply nth_error_Some. congruence.
        -- rewrite Hp. apply Hnp.
        -- rewrite Hp. apply Hnp.
      * eapply Forall_impl; [|exact HF]. intros e [i [g [Hg [Hj [Hp Hf]]]]].
        exists (List.length (groupby_acct pdf) + i)%nat, g. repeat split; auto.
        -- rewrite nth_error_app2; rewrite length_map; [|lia].
           rewrite <- Hg. f_equal. lia.
        -- apply Hp.
        -- apply Hp.
        -- rewrite Hf, Hidx1. f_equal. lia.
Qed.

Lemma provider_loop_returns (provs : list BillToProvider) (accts : list MacolaAcct)
    (forms : list string) (pgs : list (Z * list job)) :
  forall st,
  Forall (fun g => get_acct accts (fst (snd g)) <> None) (visited_groups pgs) ->
  (invoice_no_idx st + List.length (visited_groups pgs) <= List.length forms)%nat ->
  exists st', for_each pgs (provider_body provs accts forms) st = Ok st'.
Proof.
  induction pgs as [|[pid pdf] pgs IH]; intros st Hall Hle.
  - eexists. reflexivity.
  - unfold visited_groups in Hall, Hle. simpl in Hall, Hle.
    fold (visited_groups pgs) in Hall, Hle.
    apply Forall_app in Hall. destruct Hall as [Hall1 Hall].
    rewrite length_app, length_map in Hle.
    rewrite for_each_cons. unfold provider_body at 1.
    destruct (acct_loop_returns accts forms
                (set_totals (get_provider provs pid) pdf) (groupby_acct pdf) st)
      as [st1 Hst1].
    + apply Forall_forall. intros g Hg. rewrite Forall_forall in Hall1.
      apply (Hall1 (pid, g)). now apply in_map.
    + lia.
    + rewrite Hst1. simpl. apply IH; [assumption|].
      apply acct_loop_indexed in Hst1. lia.
Qed.

Lemma visited_groups_in (cdf : list job) (pid : Z) (a : string) (adf : list job) :
  In (pid, (a, adf)) (visited_groups (groupby_provider cdf)) ->
  adf <> [] /\
  forall r, In r adf -> acct r = a /\ provider r = pid /\ In r cdf.
Proof.
  unfold visited_groups. intros H. apply in_flat_map in H.
  destruct H as [[pid' pdf] [Hpg Hag]]. simpl in Hag.
  apply in_map_iff in Hag. destruct Hag as [[a' adf'] [Heq Hag]].
  injection Heq as -> -> ->.
  apply groupby_provider_in in Hpg. destruct Hpg as [-> _].
  apply groupby_acct_in in Hag. destruct Hag as [-> [x [Hx _]]].
  split; [intros Hnil; rewrite Hnil in Hx; destruct Hx|].
  intros r Hr. apply filter_In in Hr. destruct Hr as [Hr Ha].
  apply filter_In in Hr. destruct Hr as [Hr Hp].
  apply String.eqb_eq in Ha. apply Z.eqb_eq in Hp. auto.
Qed.

Lemma visited_groups_cover (cdf : list job) (r : job) :
  In r cdf ->
  exists adf,
    In (provider r, (acct r, adf)) (visited_groups (groupby_provider cdf)) /\ In r adf.
Proof.
  intros Hr.
  destruct (groupby_covers Z.eqb Z.leb provider cdf r Z.eqb_eq Hr) as [Hpg Hrp].
  destruct (groupby_covers String.eqb String.leb acct _ r string_eqb_eq Hrp) as [Hag Hra].
  eexists. split; [|exact Hra].
  unfold visited_groups. apply in_flat_map. eexists. split; [exact Hpg|].
  simpl. apply in_map_iff. eexists. split; [reflexivity|]. exact Hag.
Qed.

Lemma visited_rows (pgs : list (Z * list job)) :
  List.concat (map (fun g => snd (snd g)) (visited_groups pgs))
  = List.concat (map (fun g => acct_groups_rows (snd g)) pgs).
Proof.
  unfold visited_groups. induction pgs as [|pg pgs IH]; [reflexivity|].
  simpl. rewrite map_app, concat_app, IH. f_equal.
  rewrite map_map. reflexivity.
Qed.

Lemma visited_accts_incl (cdf : list job) (a : string) :
  In a (visited_accts (groupby_provider cdf)) <-> In a (map acct cdf).
Proof.
  unfold visited_accts. split; intros H.
  - apply in_map_iff in H. destruct H as [[pid [a' adf]] [Ha Hg]]. simpl in Ha. subst a'.
    apply visited_groups_in in Hg. destruct Hg as [Hne Hrows].
    destruct adf as [|r adf]; [congruence|].
    destruct (Hrows r (or_introl eq_refl)) as [Hr [_ Hin]].
    apply in_map_iff. now exists r.
  - apply in_map_iff in H. destruct H as [r [<- Hr]].
    destruct (visited_groups_cover cdf r Hr) as [adf [Hg _]].
    apply in_map_iff. now exists (provider r, (acct r, adf)).
Qed.

Section FlatMap.

Context {A B : Type} (f : A -> list B).

Lemma NoDup_flat_map (xs : list A) :
  (forall x, In x xs -> NoDup (f x)) ->
  (forall x1 x2 b, In x1 xs -> In x2 xs -> In b (f x1) -> In b (f x2) -> x1 = x2) ->
  NoDup xs -> NoDup (flat_map f xs).
Proof.
  induction xs as [|x xs IH]; intros Hf Hshare Hnd; simpl; [constructor|].
  inversion Hnd as [|? ? Hx Hxs]; subst.
  apply NoDup_app.
  - apply Hf. now left.
  - apply IH; auto.
    + intros y Hy. apply Hf. now right.
    + intros x1 x2 b H1 H2. apply Hshare; now right.
  - intros b Hb Hb'. apply in_flat_map in Hb'. destruct Hb' as [y [Hy Hby]].
    assert (x = y) by (apply (Hshare x y b); auto; [now left | now right]).
    subst y. contradiction.
Qed.

Lemma flat_map_shared (xs : list A) :
  NoDup (flat_map f xs) ->
  forall x1 x2 b, In x1 xs -> In x2 xs -> In b (f x1) -> In b (f x2) -> x1 = x2.
Proof.
  induction xs as [|x xs IH]; intros Hnd x1 x2 b H1 H2 Hb1 Hb2; [destruct H1|].
  simpl in Hnd.
  assert (Hdisj : forall y, In y xs -> In b (f x) -> In b (f y) -> False).
  { intros y Hy Hbx Hby. clear IH. induction (f x) as [|c l IHl]; [destruct Hbx|].
    simpl in Hnd. inversion Hnd as [|? ? Hc Hl]; subst.
    destruct Hbx as [-> | Hbx]; [|now apply IHl].
    apply Hc. apply in_or_app. right. apply in_flat_map. now exists y. }
  destruct H1 as [<- | H1], H2 as [<- | H2]; auto.
  - exfalso. now apply (Hdisj x2).
  - exfalso. now apply (Hdisj x1).
  - apply (IH (NoDup_app_remove_l _ _ Hnd) x1 x2 b); auto.
Qed.

End FlatMap.

Lemma group_keys_nodup {A K : Type} (eqb leb : K -> K -> bool) (key : A -> K)
    (df : list A) :
  (forall a b, eqb a b = true <-> a = b) ->
  NoDup (map fst (Pd.groupby eqb leb key df)).
Proof.
  intros eqb_eq. unfold Pd.groupby. rewrite map_map. simpl. rewrite map_id.
  apply (Permutation_NoDup (sort_perm leb _)). now apply drop_duplicates_nodup.
Qed.

Lemma visited_accts_flat_map (pgs : list (Z * list job)) :
  visited_accts pgs = flat_map (fun pg => map fst (groupby_acct (snd pg))) pgs.
Proof.
  unfold visited_accts, visited_groups.
  induction pgs as [|pg pgs IH]; [reflexivity|].
  simpl. rewrite map_app, IH, map_map. reflexivity.
Qed.

Lemma visited_accts_nodup_iff (cdf : list job) :
  NoDup (visited_accts (groupby_provider cdf)) <-> one_provider_per_acct cdf.
Proof.
  rewrite visited_accts_flat_map. split.
  - intros Hnd r1 r2 H1 H2 Ha.
    destruct (groupby_covers Z.eqb Z.leb provider cdf r1 Z.eqb_eq H1) as [Hpg1 Hrp1].
    destruct (groupby_covers Z.eqb Z.leb provider cdf r2 Z.eqb_eq H2) as [Hpg2 Hrp2].
    destruct (groupby_covers String.eqb String.leb acct _ r1 string_eqb_eq Hrp1) as [Hag1 _].
    destruct (groupby_covers String.eqb String.leb acct _ r2 string_eqb_eq Hrp2) as [Hag2 _].
    pose proof (flat_map_shared _ _ Hnd _ _ (acct r1) Hpg1 Hpg2) as Heq.
    simpl in Heq.
    assert (E : (provider r1, filter (fun r => provider r =? provider r1) cdf)
                = (provider r2, filter (fun r => provider r =? provider r2) cdf)).
    { apply Heq.
      - apply in_map_iff. eexists. split; [|exact Hag1]. reflexivity.
      - rewrite Ha. apply in_map_iff. eexists. split; [|exact Hag2]. reflexivity. }
    now injection E.
  - intros Hone. apply NoDup_flat_map.
    + intros pg _. apply group_keys_nodup. apply string_eqb_eq.
    + intros [p1 d1] [p2 d2] a Hp1 Hp2 Ha1 Ha2. simpl in *.
      apply in_map_iff in Ha1. destruct Ha1 as [[a1 adf1] [E1 Hag1]].
      apply in_map_iff in Ha2. destruct Ha2 as [[a2 adf2] [E2 Hag2]].
      simpl in E1, E2. subst a1 a2.
      apply groupby_provider_in in Hp1. destruct Hp1 as [-> _].
      apply groupby_provider_in in Hp2. destruct Hp2 as [-> _].
      apply groupby_acct_in in Hag1. destruct Hag1 as [-> [x1 [Hx1 Hk1]]].
      apply groupby_acct_in in Hag2. destruct Hag2 as [-> [x2 [Hx2 Hk2]]].
      apply filter_In in Hx1. destruct Hx1 as [Hx1 _].
      apply filter_In in Hx1. destruct Hx1 as [Hx1 Hq1].
      apply filter_In in Hx2. destruct Hx2 as [Hx2 _].
      apply filter_In in Hx2. destruct Hx2 as [Hx2 Hq2].
      apply Z.eqb_eq in Hq1, Hq2.
      assert (p1 = p2) by (rewrite <- Hq1, <- Hq2; apply Hone; congruence).
      now rewrite H.
    + apply (NoDup_map_inv fst). apply group_keys_nodup. apply Z.eqb_eq.
Qed.

Section Blocks.

Context {A K : Type} (eqb : K -> K -> bool) (key : A -> K).
Hypothesis eqb_eq : forall x y, eqb x y = true <-> x = y.

Lemma drop_duplicates_from_seen (l1 l2 seen : list K) :
  (forall x, In x l1 -> In x seen) ->
  Pd.drop_duplicates_from eqb seen (l1 ++ l2) = Pd.drop_duplicates_from eqb seen l2.
Proof.
  induction l1 as [|x l1 IH]; intros H; [reflexivity|]. simpl.
  assert (Hx : existsb (eqb x) seen = true).
  { apply existsb_exists. exists x. split; [apply H; now left | now apply eqb_eq]. }
  rewrite Hx. apply IH. intros y Hy. apply H. now right.
Qed.

(** A frame made of blocks of rows, one block per key: its distinct keys
    are the keys of the blocks, in order. *)
Lemma drop_duplicates_blocks (blocks : list (K * list A)) :
  (forall b, In b blocks -> snd b <> [] /\ forall r, In r (snd b) -> key r = fst b) ->
  NoDup (map fst blocks) ->
  forall seen, (forall k, In k (map fst blocks) -> ~ In k seen) ->
  Pd.drop_duplicates_from eqb seen (map key (List.concat (map snd blocks)))
  = map fst blocks.
Proof.
  induction blocks as [|[k rows] blocks IH]; intros Hb Hnd seen Hseen; [reflexivity|].
  simpl in *. inversion Hnd as [|? ? Hk Hnd']; subst.
  destruct (Hb (k, rows) (or_introl eq_refl)) as [Hne Hrows]. simpl in *.
  destruct rows as [|r rows]; [congruence|].
  simpl. rewrite (Hrows r (or_introl eq_refl)).
  assert (Hfresh : existsb (eqb k) seen = false).
  { destruct (existsb (eqb k) seen) eqn:E; [|reflexivity].
    apply existsb_exists in E. destruct E as [x [Hx E]]. apply eqb_eq in E. subst x.
    exfalso. apply (Hseen k); auto. }
  rewrite Hfresh. f_equal. rewrite map_app, drop_duplicates_from_seen.
  - apply IH; auto.
    intros k' Hk' [<- | Hin]; [contradiction | apply (Hseen k'); auto].
  - intros x Hx. apply in_map_iff in Hx. destruct Hx as [r' [<- Hr']].
    left. symmetry. apply Hrows. now right.
Qed.

End Blocks.

Lemma visited_accts_distinct (cdf : list job) :
  category_frame cdf ->
  NoDup (visited_accts (groupby_provider cdf)) ->
  visited_accts (groupby_provider cdf) = Pd.drop_duplicates String.eqb (map acct cdf).
Proof.
  intros [Hsorted Hcat] Hnd.
  pose proof (provider_groups_rows_id cdf Hsorted Hcat) as Hrows.
  unfold provider_groups_rows in Hrows. rewrite <- visited_rows in Hrows.
  unfold visited_accts in *.
  set (G := visited_groups (groupby_provider cdf)) in *.
  rewrite <- Hrows at 1.
  replace (map (fun g => fst (snd g)) G) with (map fst (map snd G)) in *
    by now rewrite map_map.
  replace (map (fun g => snd (snd g)) G) with (map snd (map snd G))
    by now rewrite map_map.
  symmetry. apply (drop_duplicates_blocks String.eqb acct string_eqb_eq); auto.
  intros [a adf] Hb. apply in_map_iff in Hb. destruct Hb as [[pid [a' adf']] [E Hg]].
  simpl in E. injection E as -> ->. simpl.
  apply visited_groups_in in Hg. destruct Hg as [Hne Hr]. split; [assumption|].
  intros r Hin. now apply Hr.
Qed.

Lemma category_frame_filter (merged : list job) (k : Z) :
  StronglySorted key_le merged -> category_frame (filter (fun r => cat r =? k) merged).
Proof.
  intros Hs. split; [now apply filter_sorted|].
  intros x y Hx Hy. apply filter_In in Hx, Hy.
  destruct Hx as [_ Hx], Hy as [_ Hy]. apply Z.eqb_eq in Hx, Hy. congruence.
Qed.

Lemma visited_accts_length (cdf : list job) :
  (List.length (Pd.drop_duplicates String.eqb (map acct cdf))
   <= List.length (visited_accts (groupby_provider cdf)))%nat.
Proof.
  apply NoDup_incl_length.
  - apply drop_duplicates_nodup. apply string_eqb_eq.
  - intros a Ha. apply (proj2 (visited_accts_incl cdf a)).
    now apply (proj1 (drop_duplicates_in String.eqb string_eqb_eq _ _)) in Ha.
Qed.

(** The loops over the providers and accounts of a category return exactly
    when every account has a row in the table and no account has rows under
    two providers. *)
Lemma category_loops_return (provs : list BillToProvider) (accts : list MacolaAcct)
    (forms : list string) (cdf : list job) :
  List.length forms = List.length (Pd.drop_duplicates String.eqb (map acct cdf)) ->
  (exists st, for_each (groupby_provider cdf) (provider_body provs accts forms)
                       {| invoice_no_idx := 0; needed := 0; appended := [] |} = Ok st)
  <-> ((forall r, In r cdf -> get_acct accts (acct r) <> None) /\
       one_provider_per_acct cdf).
Proof.
  intros Hlen. split.
  - intros [st H]. apply provider_loop_indexed in H.
    destruct H as [_ [Hle [_ [Hall _]]]]. simpl in Hle. split.
    + intros r Hr. destruct (visited_groups_cover cdf r Hr) as [adf [Hg _]].
      rewrite Forall_forall in Hall. apply (Hall _ Hg).
    + apply visited_accts_nodup_iff.
      apply (@NoDup_incl_NoDup _ (Pd.drop_duplicates String.eqb (map acct cdf))).
      * apply drop_duplicates_nodup. apply string_eqb_eq.
      * unfold visited_accts. rewrite length_map. destruct Hle as [Hz | Hle]; lia.
      * intros a Ha. apply (proj2 (visited_accts_incl cdf a)).
        now apply (proj1 (drop_duplicates_in String.eqb string_eqb_eq _ _)) in Ha.
  - intros [Hall Hone]. apply provider_loop_returns.
    + apply Forall_forall. intros [pid [a adf]] Hg. simpl.
      apply visited_groups_in in Hg. destruct Hg as [Hne Hrows].
      destruct adf as [|r adf]; [congruence|].
      destruct (Hrows r (or_introl eq_refl)) as [<- [_ Hin]]. now apply Hall.
    + simpl. rewrite Hlen.
      replace (List.length (visited_groups (groupby_provider cdf)))
        with (List.length (visited_accts (groupby_provider cdf)))
        by (unfold visited_accts; now rewrite length_map).
      apply NoDup_incl_length.
      * now apply visited_accts_nodup_iff.
      * intros a Ha. apply (proj2 (drop_duplicates_in String.eqb string_eqb_eq _ _)).
        now apply (proj1 (visited_accts_incl cdf a)).
Qed.

Lemma filter_map_length {A B : Type} (f : A -> B) (q : A -> bool) (p : B -> bool)
    (l : list A) :
  (forall x, In x l -> q x = p (f x)) ->
  List.length (filter q l) = List.length (filter p (map f l)).
Proof.
  induction l as [|x l IH]; intros H; [reflexivity|]. simpl.
  rewrite (H x (or_introl eq_refl)).
  destruct (p (f x)); simpl; rewrite IH; auto; intros y Hy; apply H; now right.
Qed.

Lemma needs_macola_visited (provs : list BillToProvider) (accts : list MacolaAcct)
    (cdf : list job) :
  one_provider_per_acct cdf ->
  List.length (filter (fun g => no_provider provs (fst g) && lacks_macola accts (fst (snd g)))
                      (visited_groups (groupby_provider cdf)))
  = List.length (filter (needs_macola provs accts cdf)
                        (visited_accts (groupby_provider cdf))).
Proof.
  intros Hone. unfold visited_accts. apply filter_map_length.
  intros [pid [a adf]] Hg. simpl. unfold needs_macola.
  rewrite andb_comm. f_equal.
  apply visited_groups_in in Hg. destruct Hg as [Hne Hrows].
  destruct adf as [|r0 adf]; [congruence|].
  destruct (Hrows r0 (or_introl eq_refl)) as [Ha [Hp Hin]].
  destruct (existsb _ cdf) eqn:E.
  - apply existsb_exists in E. destruct E as [r [Hr E]].
    apply andb_prop in E. destruct E as [E1 E2]. apply String.eqb_eq in E1.
    rewrite <- Hp, (Hone r0 r Hin Hr) by congruence. exact E2.
  - destruct (no_provider provs pid) eqn:Enp; [|reflexivity].
    assert (Hex : existsb (fun r => (acct r =? a)%string && no_provider provs (provider r))
                          cdf = true).
    { apply existsb_exists. exists r0. split; [assumption|].
      rewrite Ha, Hp, Enp, String.eqb_refl. reflexivity. }
    congruence.
Qed.

Lemma allocate_returns_iff (invoice_start : string) (n : nat) :
  (exists codes, allocate invoice_start n = Ok codes)
  <-> exists sequence, Py.int (Py.slice_from_m4 invoice_start) = Ok sequence.
Proof.
  unfold allocate. destruct (Py.int _) as [sequence|e]; simpl; split.
  - intros _. now exists sequence.
  - intros _. eexists. reflexivity.
  - intros [codes H]. discriminate H.
  - intros [sequence H]. discriminate H.
Qed.

Lemma cat_body_returns_iff (w : world) (cd : list (Z * string))
    (bd : list job_dict) (cid : Z) (cdf : list job) :
  (exists bd', cat_body w cd bd (cid, cdf) = Ok bd') <->
  ((exists c start sequence,
      get_category (InvoiceCategory_objects w) cid = Some c /\
      Dict.get Z.eqb cd (number (ic c)) = Ok start /\
      Py.int (Py.slice_from_m4 start) = Ok sequence) /\
   (forall r, In r cdf -> get_acct (MacolaAcct_objects w) (acct r) <> None) /\
   one_provider_per_acct cdf).
Proof.
  unfold cat_body.
  destruct (get_category (InvoiceCategory_objects w) cid) as [c|]; simpl.
  2:{ split; [intros [bd' H]; discriminate H | intros [[c [s [q [H _]]]] _]; discriminate H]. }
  destruct (Dict.get Z.eqb cd (number (ic c))) as [start|e] eqn:Hget; simpl.
  2:{ split; [intros [bd' H]; discriminate H|].
      intros [[c' [s [q [H [H' _]]]]] _]. injection H as <-. congruence. }
  destruct (allocate start _) as [codes|e] eqn:Halloc; simpl.
  2:{ split; [intros [bd' H]; discriminate H|].
      intros [[c' [s [q [H [H' H'']]]]] _]. injection H as <-.
      rewrite Hget in H'. injection H' as <-.
      destruct (proj2 (allocate_returns_iff start
                  (List.length (Pd.drop_duplicates String.eqb (map acct cdf))))
                  (ex_intro _ q H'')) as [codes Hc].
      congruence. }
  pose proof (allocate_length _ _ _ Halloc) as Hlen.
  pose proof (category_loops_return (BillToProvider_objects w) (MacolaAcct_objects w)
                codes cdf Hlen) as Hloops.
  split.
  - intros [bd' H].
    destruct (for_each (groupby_provider cdf) _ _) as [st|e] eqn:Hst; [|discriminate H].
    split; [|apply Hloops; now exists st].
    destruct (proj1 (allocate_returns_iff start _) (ex_intro _ codes Halloc)) as [q Hq].
    now exists c, start, q.
  - intros [_ Hrest]. apply Hloops in Hrest. destruct Hrest as [st Hst].
    rewrite Hst. simpl. eexists. reflexivity.
Qed.

Lemma cat_body_numbered (w : world) (cd : list (Z * string))
    (bd bd' : list job_dict) (cid : Z) (cdf : list job) :
  category_frame cdf ->
  cat_body w cd bd (cid, cdf) = Ok bd' ->
  exists c start codes rows,
    get_category (InvoiceCategory_objects w) cid = Some c /\
    Dict.get Z.eqb cd (number (ic c)) = Ok start /\
    allocate start (List.length (Pd.drop_duplicates String.eqb (map acct cdf))) = Ok codes /\
    bd' = (bd ++ rows)%list /\
    Forall (numbered w cdf codes) rows.
Proof.
  intros Hframe H.
  assert (Hret : exists bd', cat_body w cd bd (cid, cdf) = Ok bd') by now exists bd'.
  apply cat_body_returns_iff in Hret. destruct Hret as [_ [_ Hone]].
  unfold cat_body in H.
  destruct (get_category (InvoiceCategory_objects w) cid) as [c|]; [|discriminate H].
  simpl in H.
  destruct (Dict.get Z.eqb cd (number (ic c))) as [start|e] eqn:Hget; [|discriminate H].
  simpl in H.
  destruct (allocate start _) as [codes|e] eqn:Halloc; [|discriminate H]. simpl in H.
  destruct (for_each (groupby_provider cdf) _ _) as [st|e] eqn:Hst; [|discriminate H].
  simpl in H. injection H as <-.
  exists c, start, codes. eexists.
  split; [reflexivity|]. split; [exact Hget|]. split; [exact Halloc|].
  split; [reflexivity|].
  apply provider_loop_indexed in Hst.
  destruct Hst as [_ [_ [Hneed [_ [entries [Happ HF]]]]]]. simpl in Happ, Hneed.
  rewrite Happ. apply Forall_forall. intros d Hd.
  apply in_map_iff in Hd. destruct Hd as [[[j a] p] [<- He]].
  rewrite Forall_forall in HF. destruct (HF _ He) as [i [[pid [a0 adf]] [Hg [Hj [Hp Hf]]]]].
  simpl in Hj, Hp, Hf. unfold job_of, acct_of, provider_of in *. simpl in *.
  pose proof (nth_error_In _ _ Hg) as Hgin.
  apply visited_groups_in in Hgin. destruct Hgin as [_ Hrows].
  destruct (Hrows j Hj) as [Ha [Hpj Hin]].
  assert (Hnd : NoDup (visited_accts (groupby_provider cdf)))
    by now apply visited_accts_nodup_iff.
  pose proof (visited_accts_distinct cdf Hframe Hnd) as Hacc.
  unfold numbered. simpl. repeat split; auto.
  - rewrite Hneed, needs_macola_visited by assumption. now rewrite Hacc.
  - rewrite Hpj. apply Hp.
  - rewrite Hpj. apply Hp.
  - assert (Hi : nth_error (visited_accts (groupby_provider cdf)) i = Some (acct j)).
    { unfold visited_accts. rewrite (map_nth_error _ _ _ Hg). simpl. now rewrite Ha. }
    rewrite Hacc in Hi.
    assert (Hlt : (i < List.length codes)%nat).
    { rewrite (allocate_length _ _ _ Halloc). apply nth_error_Some. congruence. }
    destruct (nth_error codes i) as [code|] eqn:Hcode.
    + exists i, code. auto.
    + apply nth_error_None in Hcode. lia.
Qed.

Lemma for_each_returns {A S : Type} (body : S -> A -> result S) (xs : list A) :
  (forall x, In x xs -> forall s, exists s', body s x = Ok s') ->
  forall s, exists s', for_each xs body s = Ok s'.
Proof.
  induction xs as [|x xs IH]; intros H s; [eexists; reflexivity|].
  rewrite for_each_cons. destruct (H x (or_introl eq_refl) s) as [s1 Hs1].
  rewrite Hs1. simpl. apply IH. intros y Hy. apply H. now right.
Qed.

Lemma get_acct_found (accts : list MacolaAcct) (k : string) :
  get_acct accts k <> None <-> exists a, In a accts /\ account_No a = k.
Proof.
  unfold get_acct, get_object. split.
  - destruct (find _ accts) as [a|] eqn:Hf; [|simpl; congruence].
    intros _. apply find_some in Hf. exists a. split; [tauto|].
    now apply String.eqb_eq.
  - intros [a [Hin Ha]]. destruct (find _ accts) as [a'|] eqn:Hf; [simpl; congruence|].
    exfalso. apply (find_none _ _ Hf) in Hin. simpl in Hin.
    rewrite Ha, String.eqb_refl in Hin. discriminate Hin.
Qed.

Lemma groupby_cat_frame (merged : list job) (cid : Z) (cdf : list job) :
  In (cid, cdf) (groupby_cat merged) ->
  cdf = filter (fun r => cat r =? cid) merged /\
  exists x, In x cdf /\ cat x = cid /\ cdf = cat_rows x merged.
Proof.
  intros H. apply groupby_cat_in in H. destruct H as [-> [x [Hx Hc]]].
  split; [reflexivity|]. exists x. repeat split; auto.
  unfold cat_rows. now rewrite Hc.
Qed.


Lemma billing_data_numbered (v : list vistar_row) (m : list macola_row)
    (clean_data : list (Z * string)) (w w' : world) (billing_data : list job_dict) :
  get_billing_data v m clean_data false w = (Ok billing_data, w') ->
  forall d, In d billing_data ->
    let cdf := cat_rows (jd_job d) (merged_frame v m) in
    exists c start codes,
      get_category (InvoiceCategory_objects w) (cat (jd_job d)) = Some c /\
      Dict.get Z.eqb clean_data (number (ic c)) = Ok start /\
      allocate start (List.length (Pd.drop_duplicates String.eqb (map acct cdf)))
      = Ok codes /\
      numbered w cdf codes d.
Proof.
  unfold get_billing_data. simpl. intros H. injection H as H _.
  set (merged := merged_frame v m) in *.
  apply (for_each_invariant (cat_body w clean_data)
           (fun bd => forall d, In d bd ->
              let cdf := cat_rows (jd_job d) merged in
              exists c start codes,
                get_category (InvoiceCategory_objects w) (cat (jd_job d)) = Some c /\
                Dict.get Z.eqb clean_data (number (ic c)) = Ok start /\
                allocate start (List.length (Pd.drop_duplicates String.eqb (map acct cdf)))
                = Ok codes /\
                numbered w cdf codes d)
           (groupby_cat merged)) with (s := []); [| intros d [] | exact H].
  intros s [cid cdf] s' Hcg IH Hb d0 Hd0.
  apply groupby_cat_frame in Hcg. destruct Hcg as [Hcdf [x [Hx [Hc _]]]].
  apply cat_body_numbered in Hb.
  2:{ rewrite Hcdf. apply category_frame_filter. apply merged_frame_sorted. }
  destruct Hb as [c [start [codes [rows [Hcat [Hget [Halloc [-> HF]]]]]]]].
  apply in_app_or in Hd0. destruct Hd0 as [Hd0 | Hd0]; [now apply IH|].
  rewrite Forall_forall in HF. pose proof (HF _ Hd0) as Hn.
  assert (Hj : In (jd_job d0) cdf) by apply Hn.
  assert (Ec : cat (jd_job d0) = cid).
  { rewrite Hcdf in Hj. apply filter_In in Hj. now apply Z.eqb_eq. }
  assert (E : cdf = cat_rows (jd_job d0) merged).
  { unfold cat_rows. now rewrite Ec. }
  cbv zeta. rewrite <- E, Ec. now exists c, start, codes.
Qed.

Lemma dict_get_combine {V : Type} (ks : list string) :
  forall (vs : list V) (i : nat) (k : string) (v : V),
  NoDup ks -> nth_error ks i = Some k -> nth_error vs i = Some v ->
  Dict.get String.eqb (combine ks vs) k = Ok v.
Proof.
  induction ks as [|k0 ks IH]; intros vs i k v Hnd Hk Hv; [destruct i; discriminate Hk|].
  destruct vs as [|v0 vs]; [destruct i; discriminate Hv|].
  inversion Hnd as [|? ? Hk0 Hnd']; subst. simpl.
  destruct i as [|i]; simpl in Hk, Hv.
  - injection Hk as ->. injection Hv as ->. now rewrite String.eqb_refl.
  - destruct (String.eqb_spec k0 k) as [-> | Hne].
    + exfalso. apply Hk0. now apply nth_error_In in Hk.
    + now apply (IH vs i).
Qed.







(** ** Which document each action returns *)

Lemma summary_document (w : world) (sp : savepath) (bd : Pd.frame job)
    (adjs : adjustments_dict) (nos : invoice_nos_dict) (document : response) :
  summary w sp bd adjs nos = Ok document ->
  exists worksheets, document = Summary_xlsx (invoice_date sp) worksheets.
Proof.
  unfold summary. destruct (Pd.columns bd); [|discriminate]. simpl.
  destruct (for_each _ _ _) as [ws|e]; [|discriminate]. simpl.
  intros H. injection H as <-. now exists ws.
Qed.

Lemma credit_document (w : world) (cv : string)
    (adjs : adjustments_dict) (nos : invoice_nos_dict) (document : response) :
  credit w cv adjs nos = Ok document ->
  exists acct_no table, document = Credit_pdf acct_no table.
Proof.
  unfold credit. intros H.
  repeat match type of H with
         | bind ?m _ = Ok _ => destruct m; [cbn [bind] in H | discriminate H]
         end.
  injection H as <-. eexists. eexists. reflexivity.
Qed.

Lemma register_document (w : world) (c : option category_obj) (sp : savepath)
    (bd : Pd.frame job) (adjs : adjustments_dict) (nos : invoice_nos_dict)
    (document : response) :
  register w c sp bd adjs nos = Ok document ->
  exists df cat_des table,
    bd = Pd.Frame df /\ document = Register_pdf cat_des (invoice_date sp) table.
Proof.
  unfold register. destruct bd as [df|]; [|discriminate]. simpl.
  destruct (for_each _ _ _) as [[t a]|e]; [|discriminate]. simpl.
  destruct c; [|discriminate]. simpl.
  intros H. injection H as <-. eexists. eexists. eexists. split; reflexivity.
Qed.

(** What [post] returned tells which action ran, and the action tells the
    kind of document. As the invoices action stands, it returns its document
    only for a selection without jobs: the document then holds no invoice,
    and the numbering is committed all the same. *)
Theorem document_kind_by_action (rq : request) (w w' : world) (document : response) :
  post rq w = (Ok document, w') ->
  document <> Form_invalid ->
  exists sp selected adjustments invoice_nos,
    post_arguments rq w = Ok (Some (sp, selected, adjustments, invoice_nos)) /\
    match misc_submit rq with
    | submit_register =>
        exists df cat_des table,
          selected = Pd.Frame df /\ document = Register_pdf cat_des (invoice_date sp) table
    | submit_invoices =>
        exists cat_des new_start,
          selected = Pd.Frame [] /\ document = Invoices_pdf cat_des (invoice_date sp) [] /\
          next_invoice_start invoice_nos = Ok new_start /\
          map invoice_start (saved w') = new_start :: map invoice_start (saved w)
    | submit_summary =>
        exists worksheets, document = Summary_xlsx (invoice_date sp) worksheets
    | submit_credit =>
        exists acct_no table, document = Credit_pdf acct_no table
    end.
Proof.
  unfold post. intros H Hdoc.
  destruct (post_arguments rq w) as [[[[[sp selected] adjs] nos]|]|e];
    [| injection H as <- _; congruence | discriminate H].
  exists sp, selected, adjs, nos. split; [reflexivity|].
  destruct (misc_submit rq).
  - injection H as H _. now apply register_document in H.
  - apply invoices_spec in H. destruct H as [[e [He _]] | H]; [discriminate He|].
    destruct H as [cobj [new_start [_ [_ [-> [Hnext [Hr ->]]]]]]].
    injection Hr as ->. exists (description (ic cobj)), new_start. auto.
  - injection H as H _. now apply summary_document in H.
  - injection H as H _. now apply credit_document in H.
Qed.

Lemma document_kind_by_action_witness :
  exists sp selected adjustments invoice_nos,
    post_arguments (retail_request submit_invoices false no_adjustment)
                   (snd three_accts_run)
    = Ok (Some (sp, selected, adjustments, invoice_nos)) /\
    selected = Pd.Frame [].
Proof.
  eassert (H : post (retail_request submit_invoices false no_adjustment)
                    (snd three_accts_run) = (Ok _, _)) by (vm_compute; reflexivity).
  destruct (document_kind_by_action _ _ _ _ H ltac:(discriminate))
    as [sp [selected [adjs [nos [Hargs Hkind]]]]].
  exists sp, selected, adjs, nos. split; [exact Hargs|].
  simpl in Hkind. destruct Hkind as [cat_des [new_start [Hsel _]]]. exact Hsel.
Defined.



(** ** The inclusion flags and the jobs they stand for *)

Lemma filter_acct_provider (a : string) (pid : Z) (l : list job) :
  (forall r, In r l -> acct r = a -> provider r = pid) ->
  filter (fun r => (acct r =? a)%string) (filter (fun r => provider r =? pid) l)
  = filter (fun r => (acct r =? a)%string) l.
Proof.
  induction l as [|r l IH]; intros H; [reflexivity|]. simpl.
  destruct (String.eqb_spec (acct r) a) as [Er | Er].
  - rewrite (H r (or_introl eq_refl) Er), Z.eqb_refl. simpl.
    destruct (String.eqb_spec (acct r) a); [|contradiction].
    f_equal. apply IH. intros x Hx. apply H. now right.
  - destruct (provider r =? pid); simpl.
    + destruct (String.eqb_spec (acct r) a); [contradiction|].
      apply IH. intros x Hx. apply H. now right.
    + apply IH. intros x Hx. apply H. now right.
Qed.

Lemma visited_group_rows (cdf : list job) (pid : Z) (a : string) (adf : list job) :
  one_provider_per_acct cdf ->
  In (pid, (a, adf)) (visited_groups (groupby_provider cdf)) ->
  adf = filter (fun r => (acct r =? a)%string) cdf.
Proof.
  intros Hone H. pose proof (visited_groups_in _ _ _ _ H) as [Hne Hrows].
  unfold visited_groups in H. apply in_flat_map in H.
  destruct H as [[pid' pdf] [Hpg Hag]]. simpl in Hag.
  apply in_map_iff in Hag. destruct Hag as [[a' adf'] [Heq Hag]].
  injection Heq as -> -> ->.
  apply groupby_provider_in in Hpg. destruct Hpg as [-> _].
  apply groupby_acct_in in Hag. destruct Hag as [Hadf _].
  rewrite Hadf at 1.
  destruct adf as [|r0 adf]; [congruence|].
  destruct (Hrows r0 (or_introl eq_refl)) as [Ha [Hp Hin]].
  apply filter_acct_provider. intros r Hr Er.
  rewrite <- Hp. apply Hone; [assumption | assumption | congruence].
Qed.

(** The rows of a category are its accounts one after the other, each with
    its rows in a block. *)
Lemma category_rows_by_account (cdf : list job) :
  category_frame cdf -> one_provider_per_acct cdf ->
  cdf = flat_map (fun a => filter (fun r => (acct r =? a)%string) cdf)
                 (Pd.drop_duplicates String.eqb (map acct cdf)).
Proof.
  intros Hframe Hone.
  assert (Hnd : NoDup (visited_accts (groupby_provider cdf)))
    by now apply visited_accts_nodup_iff.
  rewrite <- (visited_accts_distinct cdf Hframe Hnd).
  destruct Hframe as [Hsorted Hcat].
  pose proof (provider_groups_rows_id cdf Hsorted Hcat) as Hrows.
  unfold provider_groups_rows in Hrows. rewrite <- visited_rows in Hrows.
  rewrite <- Hrows at 1. unfold visited_accts.
  rewrite flat_map_concat_map, map_map. f_equal.
  apply map_ext_in. intros [pid [a adf]] Hg. simpl.
  now apply (visited_group_rows cdf pid).
Qed.

Lemma select_app {A : Type} (l1 l2 : list A) (m1 m2 : list bool) :
  List.length m1 = List.length l1 ->
  Pd.select (l1 ++ l2) (m1 ++ m2) = (Pd.select l1 m1 ++ Pd.select l2 m2)%list.
Proof.
  revert m1. induction l1 as [|x l1 IH]; intros [|b m1] H; simpl in *; try discriminate.
  - reflexivity.
  - injection H as H. rewrite IH by assumption. now destruct b.
Qed.

Lemma select_blocks {A K : Type} (block : K -> list A) (flags : K -> list bool)
    (ks : list K) :
  (forall k, In k ks -> List.length (flags k) = List.length (block k)) ->
  Pd.select (flat_map block ks) (flat_map flags ks)
  = flat_map (fun k => Pd.select (block k) (flags k)) ks.
Proof.
  induction ks as [|k ks IH]; intros H; [reflexivity|]. simpl.
  rewrite select_app by (apply H; now left). f_equal.
  apply IH. intros k' Hk'. apply H. now right.
Qed.

Lemma firstn_all_ge {A : Type} (n : nat) (l : list A) :
  (List.length l <= n)%nat -> firstn n l = l.
Proof.
  revert n. induction l as [|x l IH]; intros [|n] H; simpl in *; try reflexivity; try lia.
  f_equal. apply IH. lia.
Qed.



(** * Other parts of the views and of the forms *)

(** ** End of the period *)

(** The end of the period is the last day on or before the selected day
    that is not a Saturday or a Sunday: it is at most two days earlier, it is
    the selected day itself when that is a working day, every day skipped is
    a Saturday or a Sunday, and the move never leaves the range of dates. *)
Theorem period_end_is_last_weekday (d : Z) :
  1 <= d ->
  1 <= period_end d /\
  0 <= weekday (period_end d) <= 4 /\
  d - 2 <= period_end d <= d /\
  (weekday d <= 4 -> period_end d = d) /\
  forall x, period_end d < x <= d -> 5 <= weekday x <= 6.
Proof.
  intros Hd. unfold period_end, minus_days, weekday.
  destruct ((d + 6) mod 7 =? 5) eqn:E5; [apply Z.eqb_eq in E5 | apply Z.eqb_neq in E5];
    simpl;
    [|destruct ((d + 6) mod 7 =? 6) eqn:E6;
      [apply Z.eqb_eq in E6 | apply Z.eqb_neq in E6]];
    repeat match goal with |- _ /\ _ => split end;
    intros; Z.div_mod_to_equations; lia.
Qed.

Lemma period_end_is_last_weekday_witness :
  period_end 737484 = 737483 /\ 0 <= weekday (period_end 737484) <= 4.
Proof.
  split; [reflexivity|].
  apply (period_end_is_last_weekday 737484). lia.
Defined.

(** ** Paths *)

Lemma ends_with_sep_append (s t : string) :
  t <> EmptyString -> Os.ends_with_sep (s ++ t) = Os.ends_with_sep t.
Proof.
  intros Ht. induction s as [|c s IH]; [reflexivity|].
  simpl. rewrite IH. destruct (s ++ t) eqn:E; [|reflexivity].
  destruct s; simpl in E; [congruence | discriminate E].
Qed.

Lemma join_static (pwd filename : string) :
  Os.starts_with_sep filename = false ->
  exists dir,
    Os.ends_with_sep dir = true /\
    forall name, Os.starts_with_sep name = false ->
      Os.join pwd ["billing/static/billing/"; name] = dir ++ name.
Proof.
  intros _. unfold Os.join. simpl fold_left.
  exists (Os.join_one pwd "billing/static/billing/"). split.
  - unfold Os.join_one.
      change (Os.starts_with_sep "billing/static/billing/") with false. cbv iota.
    destruct (negb (Py.truthy pwd) || Os.ends_with_sep pwd).
    + now rewrite ends_with_sep_append.
    + rewrite ends_with_sep_append by discriminate. reflexivity.
  - intros name Hname. unfold Os.join_one at 1. rewrite Hname.
    assert (Hend : Os.ends_with_sep (Os.join_one pwd "billing/static/billing/") = true).
    { unfold Os.join_one.
      change (Os.starts_with_sep "billing/static/billing/") with false. cbv iota.
      destruct (negb (Py.truthy pwd) || Os.ends_with_sep pwd).
      + now rewrite ends_with_sep_append.
      + rewrite ends_with_sep_append by discriminate. reflexivity. }
    rewrite Hend, orb_true_r. reflexivity.
Qed.

Lemma lower_append (s t : string) : Py.lower (s ++ t) = Py.lower s ++ Py.lower t.
Proof. induction s as [|c s IH]; simpl; [reflexivity | now rewrite IH]. Qed.

Lemma contains_prefix (sub s : string) :
  String.prefix sub s = true -> Py.contains sub s = true.
Proof. intros H. destruct s; cbn [Py.contains]; rewrite H; reflexivity. Qed.

Lemma contains_append (sub a b : string) : Py.contains sub (a ++ sub ++ b) = true.
Proof.
  induction a as [|c a IH].
  - change (EmptyString ++ sub ++ b) with (sub ++ b).
    apply contains_prefix. apply prefix_append.
  - cbn [String.append Py.contains]. rewrite IH. apply orb_true_r.
Qed.

(** Where the files of the application live. A host name that holds
    "localhost" in any letter case, anywhere, counts as local. Off the local
    host the logo and the snapshot of the billing data are fixed paths in
    the static directory of the proxy and the environment is not read; on the
    local host both need [PWD] and raise [KeyError] together without it.
    In both cases the snapshot is a sibling of the logo. *)
Theorem snapshot_is_stored_beside_logo (host : string) (environ : list (string * string)) :
  (forall a s b, Py.lower s = "localhost" -> on_localhost (a ++ s ++ b) = true) /\
  (on_localhost host = false ->
   get_ici_logo_path host environ = Ok "/var/www/wsgi-scripts/static/billing/ici_logo.png" /\
   get_cache_path host environ = Ok "/var/www/wsgi-scripts/static/billing/billing_data.h5" /\
   save_path host environ = Ok "/home/proxyserver/clerks/exports/") /\
  (on_localhost host = true ->
   Dict.get String.eqb environ "PWD" = Raise KeyError ->
   get_ici_logo_path host environ = Raise KeyError /\
   get_cache_path host environ = Raise KeyError) /\
  (forall logo, get_ici_logo_path host environ = Ok logo ->
   exists dir,
     Os.ends_with_sep dir = true /\
     logo = dir ++ "ici_logo.png" /\
     get_cache_path host environ = Ok (dir ++ "billing_data.h5")).
Proof.
  unfold get_ici_logo_path, get_cache_path, save_path.
  split; [|split; [|split]].
  - intros a s b Hs. unfold on_localhost. rewrite !lower_append, Hs.
    apply contains_append.
  - intros Hhost. rewrite Hhost. repeat split.
  - intros Hhost Hpwd. rewrite Hhost, Hpwd. split; reflexivity.
  - intros logo. cbv zeta. destruct (on_localhost host).
    + destruct (Dict.get String.eqb environ "PWD") as [pwd|e]; [|discriminate].
      cbn [bind]. intros H. injection H as <-.
      destruct (join_static pwd "ici_logo.png" eq_refl) as [dir [Hdir Hjoin]].
      exists dir. rewrite (Hjoin "billing_data.h5" eq_refl).
      split; [exact Hdir|]. split; [exact (Hjoin "ici_logo.png" eq_refl) | reflexivity].
    + intros H. injection H as <-.
      exists "/var/www/wsgi-scripts/static/billing/". repeat split.
Qed.

(** ** Starting codes of the period form *)

Lemma dict_get_key {V : Type} (d : list (Z * V)) (k : Z) (v : V) :
  Dict.get Z.eqb d k = Ok v -> In k (map fst d).
Proof.
  induction d as [|[k' v'] d IH]; simpl; [discriminate|].
  destruct (Z.eqb_spec k' k) as [-> | Hne]; [now left | right; now apply IH].
Qed.

Lemma dict_get_defined {V : Type} (d : list (Z * V)) (k : Z) :
  In k (map fst d) -> exists v, Dict.get Z.eqb d k = Ok v.
Proof.
  induction d as [|[k' v'] d IH]; simpl; [intros []|].
  destruct (Z.eqb_spec k' k) as [-> | Hne]; [intros _; now exists v'|].
  intros [H | H]; [congruence | now apply IH].
Qed.

Lemma start_fields_keys (cats : list InvoiceCategory) (k : Z) :
  In k (map fst (start_fields cats)) <-> exists c, In c cats /\ ic_id c = k.
Proof.
  unfold start_fields, order_by_number. rewrite map_map. simpl. rewrite in_map_iff.
  split; intros [c [H1 H2]].
  - exists c. split; [now apply sort_in in H2 | assumption].
  - exists c. split; [assumption | now apply sort_in].
Qed.

(** The form names the field of a starting code after the primary key of
    its category, and [get_billing_data] reads the field named after the
    number of the category. For the clean data of the period form, the
    starting code of a category is therefore found exactly when its number is
    the primary key of some category, and the code read is the one entered
    for that category; when the billing data are returned, this holds for the
    category of every row. *)
Theorem start_code_is_read_by_number (w : world) (clean_data : list (Z * string)) :
  map fst clean_data = map fst (start_fields (InvoiceCategory_objects w)) ->
  (forall c : InvoiceCategory,
     (exists start, Dict.get Z.eqb clean_data (number c) = Ok start) <->
     (exists c', In c' (InvoiceCategory_objects w) /\ ic_id c' = number c)) /\
  (forall v m billing_data,
     fst (get_billing_data v m clean_data false w) = Ok billing_data ->
     forall r, In r (merged_frame v m) ->
     exists c c' start,
       get_category (InvoiceCategory_objects w) (cat r) = Some c /\
       In c' (InvoiceCategory_objects w) /\ ic_id c' = number (ic c) /\
       Dict.get Z.eqb clean_data (ic_id c') = Ok start).
Proof.
  intros Hkeys. split.
  - intros c. rewrite <- start_fields_keys, <- Hkeys. split.
    + intros [start H]. now apply dict_get_key in H.
    + apply dict_get_defined.
  - intros v m bd H r Hr. unfold get_billing_data in H. simpl in H.
    apply for_each_ok_each in H. rewrite Forall_forall in H.
    destruct (groupby_covers Z.eqb Z.leb cat _ r Z.eqb_eq Hr) as [Hcg _].
    destruct (H _ Hcg) as [s1 [s2 Hb]].
    assert (Hret : exists bd', cat_body w clean_data s1
                     (cat r, filter (fun x => cat x =? cat r) (merged_frame v m)) = Ok bd')
      by now exists s2.
    apply cat_body_returns_iff in Hret.
    destruct Hret as [[c [start [q [Hc [Hget _]]]]] _].
    pose proof (dict_get_key _ _ _ Hget) as Hin. rewrite Hkeys in Hin.
    apply start_fields_keys in Hin. destruct Hin as [c' [Hc' Hid]].
    exists c, c', start. rewrite Hid. auto.
Qed.

Lemma start_code_is_read_by_number_witness :
  exists c', In c' [retail] /\ ic_id c' = number retail.
Proof.
  apply (proj1 (start_code_is_read_by_number (lab_world three_accts) [(5, "RT015001")]
                  eq_refl) retail).
  exists "RT015001". reflexivity.
Defined.

(** ** Request of a MACOLA number *)

Lemma filter_nil_iff {A : Type} (p : A -> bool) (l : list A) :
  filter p l = [] <-> forall x, In x l -> p x = false.
Proof.
  induction l as [|x l IH]; simpl; [tauto|].
  destruct (p x) eqn:E; split.
  - discriminate.
  - intros H. specialize (H x (or_introl eq_refl)). congruence.
  - intros H y [<- | Hy]; [assumption | now apply IH].
  - intros H. apply IH. intros y Hy. apply H. now right.
Qed.

Lemma cleaned_data_get (fields : list string) (data : string -> value) (k : string) :
  In k fields -> Dict.get String.eqb (cleaned_data_of fields data) k = Ok (data k).
Proof.
  induction fields as [|f fields IH]; simpl; [intros []|].
  destruct (String.eqb_spec f k) as [-> | Hne]; [reflexivity|].
  intros [H | H]; [congruence | now apply IH].
Qed.

Lemma extra_fields (acct_no : option string) (k : string) :
  In k ["state_employee"; "agency_loc"; "agency_no"; "fund_no";
        "req_date"; "req_person"; "acct_type"] ->
  In k (MacolaRequestForm_fields acct_no).
Proof.
  unfold MacolaRequestForm_fields. intros H. rewrite !in_app_iff.
  simpl in *. intuition.
Qed.

Ltac step_bind H :=
  match type of H with
  | bind ?m _ = Ok _ =>
      let v := fresh "v" in
      let e := fresh "e" in
      let E := fresh "E" in
      destruct m as [v|e] eqn:E; [cbn [bind] in H | discriminate H]
  end.

(** A request only yields a document for an account number that has a row
    in the table of accounts; the document is a table of 22 lines for a state
    employee and of 23 lines otherwise. *)
Theorem macola_document_needs_account (values : MacolaAcct -> list (string * value))
    (acct_no : string) (data : string -> value) (w : world)
    (document_acct : string) (table_data : list (list (list fragment))) :
  macola_form_valid values acct_no data w = Ok (Macola_pdf document_acct table_data) ->
  document_acct = acct_no /\ acct_no <> EmptyString /\
  (exists a, In a (MacolaAcct_objects w) /\ account_No a = acct_no) /\
  List.length table_data = (if truth (data "state_employee") then 22 else 23)%nat.
Proof.
  unfold macola_form_valid. intros H.
  assert (Hcd : forall k,
            In k ["state_employee"; "agency_loc"; "agency_no"; "fund_no";
                  "req_date"; "req_person"; "acct_type"] ->
            Dict.get String.eqb
              (cleaned_data_of (MacolaRequestForm_fields (get_form_kwargs acct_no)) data) k
            = Ok (data k)).
  { intros k Hk. apply cleaned_data_get. now apply extra_fields. }
  rewrite !Hcd in H by (simpl; tauto). cbn [bind] in H.
  destruct acct_no as [|c rest] eqn:Eacct.
  - exfalso. vm_compute in H. discriminate H.
  - rewrite <- Eacct in *.
    assert (Ht : Py.truthy acct_no = true) by now rewrite Eacct.
    unfold requested_account in H. rewrite Ht in H.
    destruct (filter _ (MacolaAcct_objects w)) as [|first others] eqn:Hf;
      [discriminate H|].
    assert (Hex : exists a, In a (MacolaAcct_objects w) /\ account_No a = acct_no).
    { exists first.
      assert (Hin : In first (filter (fun a => (account_No a =? acct_no)%string)
                                     (MacolaAcct_objects w)))
        by (rewrite Hf; now left).
      apply filter_In in Hin. destruct Hin as [Hin Hk].
      split; [assumption | now apply String.eqb_eq]. }
    step_bind H. destruct v as [acct|]; [|discriminate H].
    destruct (truth (data "state_employee")) eqn:Hstate; cbn [bind] in H.
    + repeat step_bind H. injection H as <- <-.
      repeat split; auto. rewrite Eacct. discriminate.
    + repeat step_bind H. injection H as <- <-.
      repeat split; auto. rewrite Eacct. discriminate.
Qed.

Lemma macola_document_needs_account_witness :
  exists a, In a (MacolaAcct_objects (lab_world three_accts)) /\ account_No a = "1001".
Proof.
  eassert (H : macola_form_valid account_columns "1001" request_data (lab_world three_accts)
               = Ok (Macola_pdf _ _)) by (vm_compute; reflexivity).
  exact (proj1 (proj2 (proj2 (macola_document_needs_account _ _ _ _ _ _ H)))).
Defined.

(** A request for an account that is not in the table never yields a
    document. The form for a new account is built for the URL argument
    "none", and [form_valid] then looks for an account of that number: it
    answers that the account does not exist. With an empty URL argument the
    form has no field for the data of the account, and reading
    [tax_exemption] raises [KeyError]. *)
Theorem macola_new_account_request (values : MacolaAcct -> list (string * value))
    (data : string -> value) (w : world) :
  get_form_kwargs "none" = None /\
  In "tax_exemption" (MacolaRequestForm_fields (get_form_kwargs "none")) /\
  ((forall a, In a (MacolaAcct_objects w) -> account_No a <> "none") ->
   macola_form_valid values "none" data w
   = Ok (Macola_form_invalid
           [Lit "Account '"; Arg (Str "none");
            Lit "' does not exist in MACOLA Customer Accounts table"])) /\
  ~ In "tax_exemption" (MacolaRequestForm_fields (get_form_kwargs EmptyString)) /\
  macola_form_valid values EmptyString data w = Raise KeyError.
Proof.
  split; [reflexivity|]. split; [simpl; tauto|]. split; [|split].
  - intros Hnone. unfold macola_form_valid.
    rewrite cleaned_data_get by (apply extra_fields; simpl; tauto). cbn [bind].
    unfold requested_account. change (Py.truthy "none") with true. cbv iota.
    replace (filter (fun a => (account_No a =? "none")%string) (MacolaAcct_objects w))
      with (@nil MacolaAcct); [reflexivity|].
    symmetry. apply filter_nil_iff. intros a Ha. apply String.eqb_neq. now apply Hnone.
  - simpl. intuition discriminate.
  - vm_compute. reflexivity.
Qed.

(** * The subtotals of the register *)

Section Subtotals.

Local Open Scope Q_scope.

Lemma register_provider_body_block (w : world)
    (adjustments : adjustments_dict) (invoice_nos : invoice_nos_dict)
    (table table' : list (list cell)) (ta ta' : list Q) (g : Z * list job) :
  NoDup (map fst invoice_nos) ->
  (forall r, In r (snd g) -> total r == sales r + tax r) ->
  register_provider_body w adjustments invoice_nos (included_accts_of invoice_nos)
                         (table, ta) g = Ok (table', ta') ->
  exists b adj,
    table' = (table ++ block_lines b)%list /\ ta' = (ta ++ [adj])%list /\
    subtotals_ok b.
Proof.
  intros Hnd Hrows H. destruct g as [pid pdf]. unfold register_provider_body in H.
  destruct (for_each (groupby_acct pdf) _ (table, [])) as [[t1 pa]|e] eqn:Hloop;
    [|discriminate H].
  simpl in H.
  apply register_acct_loop in Hloop; [|assumption|apply groupby_acct_rows].
  destruct Hloop as [lines [adjs [-> [-> [Hf [H2 [H3 [H4 H5]]]]]]]]. simpl in H.
  assert (G : forall f, sigma (map (fun g => sigma (map (included_amount
                           (included_accts_of invoice_nos) f) (snd g))) (groupby_acct pdf))
                        == sigma (map (included_amount (included_accts_of invoice_nos) f) pdf)).
  { intros f. symmetry. apply (sigma_groupby String.eqb string_eqb_eq). }
  rewrite G in H2, H3. rewrite !sigma_included in H2, H3.
  pose proof (py_sum_sigma adjs) as Hpy.
  set (prov_adj_sum := py_sum adjs) in *.
  destruct (set_totals (get_provider (BillToProvider_objects w) pid) pdf) as [p|].
  - destruct (Py.truthy (bp_short_name (bp p))); [|discriminate H]. simpl in H.
    injection H as <- <-.
    eexists (lines, [_]). exists prov_adj_sum. unfold block_lines. cbn [fst snd].
    rewrite <- List.app_assoc.
    split; [reflexivity|]. split; [reflexivity|].
    split; [exact Hf|]. right. eexists. split; [reflexivity|].
    split; [reflexivity|].
    assert (Ht : sigma (map total (filter (isin (included_accts_of invoice_nos)) pdf))
                 == sigma (map sales (filter (isin (included_accts_of invoice_nos)) pdf))
                    + sigma (map tax (filter (isin (included_accts_of invoice_nos)) pdf))).
    { rewrite <- sigma_plus. apply sigma_ext. intros r Hr. apply Hrows.
      apply filter_In in Hr. apply Hr. }
    unfold column. cbn [nth amount_of]. unfold Dec.
    repeat match goal with |- _ /\ _ => split end; cbn [fst snd].
    + rewrite sum_sigma. now rewrite H2.
    + rewrite sum_sigma. now rewrite H3.
    + now rewrite H4, Hpy.
    + rewrite sum_sigma, H5, H2, H3, H4, Hpy, Ht. ring.
  - injection H as <- <-. exists (lines, []), prov_adj_sum.
    unfold block_lines. cbn [fst snd]. rewrite List.app_nil_r.
    split; [reflexivity|]. split; [reflexivity|]. split; [exact Hf | now left].
Qed.

Lemma register_provider_blocks (w : world)
    (adjustments : adjustments_dict) (invoice_nos : invoice_nos_dict)
    (pgs : list (Z * list job)) :
  NoDup (map fst invoice_nos) ->
  (forall g r, In g pgs -> In r (snd g) -> total r == sales r + tax r) ->
  forall table ta table' ta',
  for_each pgs (register_provider_body w adjustments invoice_nos
                                       (included_accts_of invoice_nos)) (table, ta)
  = Ok (table', ta') ->
  exists blocks,
    table' = (table ++ flat_map block_lines blocks)%list /\
    List.length blocks = List.length pgs /\
    Forall subtotals_ok blocks.
Proof.
  intros Hnd. induction pgs as [|g pgs IH]; intros Hrows table ta table' ta' H.
  - simpl in H. injection H as <- <-. exists []. simpl.
    rewrite List.app_nil_r. repeat split. constructor.
  - rewrite for_each_cons in H.
    destruct (register_provider_body _ _ _ _ (table, ta) g) as [[t1 a1]|e] eqn:Hb;
      [|discriminate H].
    simpl in H. apply IH in H; [|intros g' r Hg'; apply Hrows; now right].
    destruct H as [blocks [-> [Hlen HF]]].
    apply register_provider_body_block in Hb;
      [|assumption | intros r Hr; apply (Hrows g); [now left | assumption]].
    destruct Hb as [b [adj [-> [_ Hb]]]].
    exists (b :: blocks). simpl. rewrite <- List.app_assoc.
    repeat split; [now rewrite Hlen | now constructor].
Qed.

End Subtotals.

Lemma merged_frame_total (v : list vistar_row) (m : list macola_row) (r : job) :
  In r (merged_frame v m) -> (total r == sales r + tax r)%Q.
Proof.
  intros Hr. apply (Permutation_in _ (Permutation_sym (merged_frame_perm v m))) in Hr.
  apply in_map_iff in Hr. destruct Hr as [[j a] [<- _]]. simpl. ring.
Qed.

Lemma post_register (rq : request) (w w' : world)
    (cat_des month_yr : string) (table_data : list (list cell)) :
  post rq w = (Ok (Register_pdf cat_des month_yr table_data), w') ->
  exists sp df adjustments invoice_nos cached,
    post_arguments rq w = Ok (Some (sp, Pd.Frame df, adjustments, invoice_nos)) /\
    NoDup (map fst invoice_nos) /\
    hdf_store w = Some cached /\ (forall r, In r df -> In r cached) /\
    register w (get_category (InvoiceCategory_objects w) (cat_id rq)) sp (Pd.Frame df)
             adjustments invoice_nos
    = Ok (Register_pdf cat_des month_yr table_data).
Proof.
  intros H. unfold post in H.
  destruct (post_arguments rq w) as [[[[[sp selected] adjs] nos]|]|e] eqn:Hargs;
    [| discriminate H | discriminate H].
  destruct (post_arguments_spec _ _ _ _ _ _ Hargs)
    as [cached [l [Hstore [_ [Hnos [_ Hsel]]]]]].
  assert (Hnd : NoDup (map fst nos)).
  { rewrite Hnos, map_fst_combine. apply NoDup_firstn.
    apply drop_duplicates_nodup. apply string_eqb_eq. }
  destruct (misc_submit rq).
  - injection H as H _. pose proof (register_document _ _ _ _ _ _ _ H) as Hdoc.
    destruct Hdoc as [df [cd [table [-> _]]]].
    exists sp, df, adjs, nos, cached. repeat split; auto.
    intros r Hr. cbv zeta in Hsel. apply getitem_rows in Hsel.
    destruct Hsel as [Hrows _]. simpl in Hrows. rewrite Hrows in Hr.
    apply (Subseq_in _ _ (select_subseq _ _)) in Hr.
    apply filter_In in Hr. apply Hr.
  - apply invoices_spec in H. destruct H as [[e [He _]] | H]; [discriminate He|].
    destruct H as [cobj [new_start [_ [_ [_ [_ [Hr _]]]]]]]. discriminate Hr.
  - injection H as H _. apply summary_document in H. destruct H as [ws H].
    discriminate H.
  - injection H as H _. apply credit_document in H. destruct H as [a [t H]].
    discriminate H.
Qed.


